(** * ts-data-grid: the sort engine and the viewport geometry

    A shallow embedding of [src/sort.ts] (value resolution, [compare], the
    multi-key comparator and [sort]) and of the parts of [createGrid] that
    decide the sort order and the visible window ([cycleColumnSortOrder],
    [onColumnHeaderClick], [sortRows], [recomputeVisibleArea]).

    Conventions of the embedding:
    - a JavaScript number is a double: the rational it denotes, or NaN, or
      an infinity.  Comparing two doubles compares these rationals.  The
      quotients, the product and the sum of the window computation are
      rounded to the nearest double ([Host.round64]); the grid's right edge
      less 17, the one other result of arithmetic, is taken as it is, which
      is what the host computes for an edge at 16 pixels or more;
    - a row is a JavaScript object whose properties hold primitive values,
      a finite map from property names to values;
    - arrays and the [{key, order}] objects of a sort order are mutable and
      live in a store; the functions that touch them are written in a small
      state-and-exception monad. *)

From Stdlib Require Import ZArith QArith Qround Qabs Lia Lqa Ascii String.
From stdpp Require Import base option list gmap strings.

#[local] Open Scope Z_scope.

(** ** JavaScript values *)

Module JS.

(** Numbers.  [-0] and [+0] are the same rational. *)
Inductive Number :=
  | NaN
  | NegInfinity
  | Finite (q : Q)
  | PosInfinity.

(** Primitive values held by a cell of a row. *)
Inductive Value :=
  | VUndefined
  | VNull
  | VBool (b : bool)
  | VNum (n : Number)
  | VStr (s : string).

Definition num (z : Z) : Value := VNum (Finite (inject_Z z)).

(** [x < y] on numbers: false as soon as one side is NaN. *)
Definition number_lt (x y : Number) : bool :=
  match x, y with
  | NaN, _ | _, NaN => false
  | NegInfinity, NegInfinity => false
  | NegInfinity, _ => true
  | _, NegInfinity => false
  | PosInfinity, _ => false
  | Finite _, PosInfinity => true
  | Finite p, Finite q => match Qcompare p q with Lt => true | _ => false end
  end.

(** [typeof v === 'string'] *)
Definition is_string (v : Value) : bool :=
  match v with VStr _ => true | _ => false end.

(** [v === null || v === undefined] *)
Definition is_nullish (v : Value) : bool :=
  match v with VUndefined | VNull => true | _ => false end.

Section Relational.

(** The host's conversion of a string to a number (StringToNumber of the
    language standard: decimal and hexadecimal literals, [Infinity], the
    empty string as 0, anything else NaN).  The grid does not depend on
    which number a string converts to, so it stays a variable. *)
Variable StringToNumber : string -> Number.

(** ToNumber on primitives. *)
Definition ToNumber (v : Value) : Number :=
  match v with
  | VUndefined => NaN
  | VNull => Finite 0%Q
  | VBool b => Finite (if b then 1%Q else 0%Q)
  | VNum n => n
  | VStr s => StringToNumber s
  end.

(** The relational operator [a < b]: two strings are compared by code
    units, any other pair is compared as numbers. *)
Definition lt (a b : Value) : bool :=
  match a, b with
  | VStr s, VStr t =>
      match String.compare s t with Lt => true | _ => false end
  | _, _ => number_lt (ToNumber a) (ToNumber b)
  end.

(** [a > b] is [b < a]. *)
Definition gt (a b : Value) : bool := lt b a.

End Relational.

End JS.

Import JS.

(** ** Host functions used by [sort.ts] *)

Module Host.

(** The collation key of a string at base sensitivity, for ASCII text: an
    upper-case letter counts as its lower-case form. *)
Definition is_upper (c : ascii) : bool :=
  (Nat.leb 65 (nat_of_ascii c) && Nat.leb (nat_of_ascii c) 90)%bool.

Definition base_letter (c : ascii) : ascii :=
  if is_upper c then ascii_of_nat (nat_of_ascii c + 32) else c.

Fixpoint base_key (s : string) : string :=
  match s with
  | EmptyString => EmptyString
  | String c s' => String (base_letter c) (base_key s')
  end.

(** Modelled from the spec: [String.prototype.localeCompare(that, 'en',
    { sensitivity: 'base' })] belongs to the host's internationalisation
    library, not to the repository.  The spec describes it as a locale-aware,
    case-insensitive ordering in which case does not break ties before
    content does.  The model covers strings of ASCII characters: the strings
    are compared alphabetically on their collation keys, and the result is
    -1, 0 or 1.  Accented letters are outside the model. *)
Definition localeCompare (s t : string) : Z :=
  match String.compare (base_key s) (base_key t) with
  | Lt => -1
  | Eq => 0
  | Gt => 1
  end.

(** [Array.prototype.sort(comparefn)].  The language standard fixes the
    result when [comparefn] is a consistent ordering of the elements: the
    elements in order, equal ones in the sequence they had; every conforming
    engine then returns the same array, the one computed here (see
    [Array_sort_unique] below).  When [comparefn] is not consistent the
    standard leaves the order to the engine, and engines differ: of the
    array computed here only that it rearranges the elements holds of every
    engine.  The function is the stable insertion sort, one conforming
    algorithm: an element moves behind another one only when [comparefn]
    says it is greater. *)
Section ArraySort.
Context {A : Type} (comparefn : A -> A -> Z).

Fixpoint insert (x : A) (l : list A) : list A :=
  match l with
  | [] => [x]
  | y :: l' => if comparefn x y >? 0 then y :: insert x l' else x :: l
  end.

Definition Array_sort (l : list A) : list A := foldr insert [] l.
End ArraySort.

(** Arithmetic on numbers.  The language standard gives [x / y], [x * y]
    and [x + y] as the exact result rounded to the nearest double, ties to
    the one whose last bit is even (IEEE 754 binary64: 53 significant bits,
    exponents from -1074).  [round64] is that rounding on the rationals.
    Results beyond the largest double (which the host turns into an
    infinity) and division by zero are outside the model. *)

(** The nearest whole number, ties to even. *)
Definition roundTiesToEven (y : Q) : Z :=
  let f := Qfloor y in
  match Qcompare (y - inject_Z f) (1 # 2) with
  | Lt => f
  | Gt => f + 1
  | Eq => if Z.even f then f else f + 1
  end.

(** The binary exponent of [x]: the [e] with [2 ^ e <= |x| < 2 ^ (e + 1)]. *)
Definition exponent (x : Q) : Z :=
  let a := Qabs x in
  if Qle_bool 1 a then Z.log2 (Qfloor a) else - Z.log2_up (Qceiling (/ a)).

Definition pow2 (e : Z) : Q :=
  if 0 <=? e then inject_Z (2 ^ e) else (/ inject_Z (2 ^ (- e)))%Q.

(** The unit in the last place of the doubles around [x]. *)
Definition ulp (x : Q) : Q := pow2 (Z.max (exponent x - 52) (-1074)).

Definition round64 (x : Q) : Q :=
  if Qeq_bool x 0 then 0%Q else (inject_Z (roundTiesToEven (x / ulp x)) * ulp x)%Q.

Definition divide (x y : Q) : Q := round64 (x / y).
Definition multiply (x y : Q) : Q := round64 (x * y).
Definition add (x y : Q) : Q := round64 (x + y).

End Host.

(** ** The data model of [grid.ts] *)

(** [type Row = any]: an object with named properties. *)
Abbreviation Row := (gmap string Value).

(** A column's [property] and [sortValue] are declared as functions of the
    row; [sort.ts] also accepts the name of a property of the row. *)
Inductive Accessor :=
  | ByFunction (f : Row -> Value)
  | ByName (name : string).

Module GridColumn.
Record t := mk {
  key : string;
  property : Accessor;
  sortValue : option Accessor;       (* [undefined] is [None] *)
  reverseSortOrder : bool;           (* [undefined] counts as [false] *)
  width : Q;
  label : string
}.
End GridColumn.
Abbreviation GridColumn := GridColumn.t.

(** [type SortOrder = 'ascending' | 'descending' | undefined] *)
Inductive Direction := ascending | descending.
Abbreviation SortOrder := (option Direction).

Module FieldSortOrder.
Record t := mk {
  key : string;
  order : SortOrder
}.
End FieldSortOrder.
Abbreviation FieldSortOrder := FieldSortOrder.t.

(** [type TableSortOrder = FieldSortOrder[]], as the sequence of its
    entries' contents. *)
Abbreviation TableSortOrder := (list FieldSortOrder).

(** ** [sort.ts] *)

Section SortTs.

Variable StringToNumber : string -> Number.

(** [typeof acc === 'function' ? acc(row) : row[acc]] *)
Definition access (acc : Accessor) (row : Row) : Value :=
  match acc with
  | ByFunction f => f row
  | ByName name => default VUndefined (row !! name)
  end.

Definition getCellValue (row : Row) (column : GridColumn) : Value :=
  let value := access (GridColumn.property column) row in
  if is_nullish value then VStr "" else value.

Definition getCellSortValue (row : Row) (column : GridColumn) : Value :=
  match GridColumn.sortValue column with
  | None => getCellValue row column
  | Some sortValue => access sortValue row
  end.

Definition compare (a b : Value) : Z :=
  match a, b with
  | VStr s, VStr t => Host.localeCompare s t
  | _, _ =>
      if JS.lt StringToNumber a b then -1
      else if JS.gt StringToNumber a b then 1
      else 0
  end.

(** [(sortOrder && sortOrder.length > 0) ? sortOrder : (defaultSortOrder || [])] *)
Definition effectiveOrder (sortOrder : TableSortOrder)
    (defaultSortOrder : option TableSortOrder) : TableSortOrder :=
  match sortOrder with
  | _ :: _ => sortOrder
  | [] => default [] defaultSortOrder
  end.

(** [columns.find((x) => x.key === entry.key)] *)
Definition findColumn (columns : list GridColumn) (k : string) : option GridColumn :=
  List.find (fun x => String.eqb (GridColumn.key x) k) columns.

(** The body of the [for (const entry of order)] loop up to the test of
    [result]: the value of [result] for one entry and its column. *)
Definition entryResult (entry : FieldSortOrder) (column : GridColumn) (a b : Row) : Z :=
  let A := getCellSortValue a column in
  let B := getCellSortValue b column in
  let result :=
    match FieldSortOrder.order entry with
    | Some ascending => compare A B
    | Some descending => - compare A B
    | None => 0
    end in
  if GridColumn.reverseSortOrder column then - result else result.

(** The loop of the comparator, with its early [return] and [continue]. *)
Fixpoint compareByOrder (columns : list GridColumn) (order : TableSortOrder)
    (a b : Row) : Z :=
  match order with
  | [] => 0
  | entry :: rest =>
      match findColumn columns (FieldSortOrder.key entry) with
      | None => compareByOrder columns rest a b
      | Some column =>
          let result := entryResult entry column a b in
          if result =? 0 then compareByOrder columns rest a b else result
      end
  end.

(** The arrow function handed to [rows.sort]. *)
Definition comparator (columns : list GridColumn) (sortOrder : TableSortOrder)
    (defaultSortOrder : option TableSortOrder) (a b : Row) : Z :=
  compareByOrder columns (effectiveOrder sortOrder defaultSortOrder) a b.

(** What [rows.sort(...)] leaves in the array. *)
Definition sorted (columns : list GridColumn) (sortOrder : TableSortOrder)
    (defaultSortOrder : option TableSortOrder) (rows : list Row) : list Row :=
  Host.Array_sort (comparator columns sortOrder defaultSortOrder) rows.

End SortTs.

(** ** The store: arrays and sort-order objects *)

Abbreviation loc := positive.

(** What a reference points to: an array of rows ([any[]]), an array of
    references to sort-order objects ([TableSortOrder]), or one
    [{ key, order }] object. *)
Inductive cell :=
  | RowArray (elements : list Row)
  | OrderArray (elements : list loc)
  | OrderEntry (contents : FieldSortOrder).

Abbreviation heap := (gmap loc cell).

Definition lookupRows (h : heap) (l : loc) : option (list Row) :=
  match h !! l with Some (RowArray rs) => Some rs | _ => None end.

Definition lookupEntries (h : heap) (l : loc) : option (list loc) :=
  match h !! l with Some (OrderArray es) => Some es | _ => None end.

Definition lookupEntry (h : heap) (l : loc) : option FieldSortOrder :=
  match h !! l with Some (OrderEntry c) => Some c | _ => None end.

(** The contents of a sort order: the array's objects, read in sequence. *)
Definition lookupOrder (h : heap) (l : loc) : option TableSortOrder :=
  es ← lookupEntries h l; mapM (lookupEntry h) es.

(** ** The state of one grid *)

(** The window computed by [recomputeVisibleArea] (the [let] variables
    [gridHeight] ... [totalRowHeight] of [createGrid]). *)
Module Viewport.
Record t := mk {
  gridHeight : Q;
  visibleRowCount : Z;
  firstVisibleRowIndex : Z;
  lastVisibleRowIndex : Z;
  totalColumnWidth : Q;
  totalRowHeight : Q
}.
End Viewport.
Abbreviation Viewport := Viewport.t.

(** What [recomputeVisibleArea] writes to the document: the value last
    assigned to [scrollLeft] of the row container and of the column header
    container, and the pixels last assigned to [style.width] and
    [style.height] of the scroll area (absent until the first assignment). *)
Module Containers.
Record t := mk {
  rowContainerScrollLeft : Q;
  columnHeaderContainerScrollLeft : Q;
  scrollAreaWidth : option Q;
  scrollAreaHeight : option Q
}.
Definition with_scrollLeft (x : Q) (c : t) : t :=
  mk x x (scrollAreaWidth c) (scrollAreaHeight c).
End Containers.
Abbreviation Containers := Containers.t.

(** The mutable variables of the closure that the sort engine and the
    geometry use, and the containers.  [scrolled] records the [scrollTop] of
    every [onScroll] notification, latest first. *)
Module Grid.
Record t := mk {
  rows : loc;
  sortOrder : loc;
  view : Viewport;
  scrolled : list Q;
  containers : Containers
}.
Definition with_rows (r : loc) (g : t) : t :=
  mk r (sortOrder g) (view g) (scrolled g) (containers g).
Definition with_sortOrder (o : loc) (g : t) : t :=
  mk (rows g) o (view g) (scrolled g) (containers g).
Definition with_view (v : Viewport) (g : t) : t :=
  mk (rows g) (sortOrder g) v (scrolled g) (containers g).
Definition with_scrolled (s : list Q) (g : t) : t :=
  mk (rows g) (sortOrder g) (view g) s (containers g).
Definition with_containers (c : Containers) (g : t) : t :=
  mk (rows g) (sortOrder g) (view g) (scrolled g) c.
End Grid.
Abbreviation Grid := Grid.t.

(** The constants of the closure: the settings and the measured row height.
    A hook is an observer: [onSort] sees the contents of the new order and
    answers whether it called [preventDefault]; [onScroll] only receives its
    notification. *)
Module Settings.
Record t := mk {
  columns : list GridColumn;
  defaultSortOrder : option loc;
  onSort : option (TableSortOrder -> bool);
  onScroll : bool;
  rowHeight : Q
}.
End Settings.
Abbreviation Settings := Settings.t.

(** What the handlers read from the document: the scroll container's
    offsets and the grid element's height. *)
Module Layout.
Record t := mk {
  scrollLeft : Q;
  scrollTop : Q;
  clientHeight : Q
}.
End Layout.
Abbreviation Layout := Layout.t.

Record World := mkWorld {
  grid : Grid;
  store : heap
}.

(** ** Computations: state, exceptions *)

(** A computation ends with a value and a new world, with a thrown
    [Error], or in [Fault] when a reference does not hold what its type
    promises (which type-checked callers cannot cause). *)
Inductive outcome (A : Type) :=
  | Return (a : A) (w : World)
  | Throw (message : string)
  | Fault.
Arguments Return {A} a w.
Arguments Throw {A} message.
Arguments Fault {A}.

Definition M (A : Type) : Type := World -> outcome A.

#[global] Instance M_ret : MRet M := fun A a w => Return a w.
#[global] Instance M_bind : MBind M := fun A B f m w =>
  match m w with
  | Return a w' => f a w'
  | Throw msg => Throw msg
  | Fault => Fault
  end.

Definition throw {A} (message : string) : M A := fun _ => Throw message.

Definition getGrid : M Grid := fun w => Return (grid w) w.

Definition setGrid (g : Grid) : M unit := fun w => Return tt (mkWorld g (store w)).

(** Reading through a reference. *)
Definition load {A} (read : heap -> loc -> option A) (l : loc) : M A := fun w =>
  match read (store w) l with
  | Some a => Return a w
  | None => Fault
  end.

(** A new object or array: a reference no cell of the store uses. *)
Definition alloc (c : cell) : M loc := fun w =>
  let l := fresh (dom (store w)) in
  Return l (mkWorld (grid w) (<[l := c]> (store w))).

(** Assignment to a property of an object, or to the elements of an array. *)
Definition assign (l : loc) (c : cell) : M unit := fun w =>
  Return tt (mkWorld (grid w) (<[l := c]> (store w))).

(** ** [sort] and the grid's handlers *)

(** The fields of the click event that [onColumnHeaderClick] reads:
    [currentTarget.dataset.key] (absent when the element carries no
    [data-key]) and the two modifier keys. *)
Module MouseEvent.
Record t := mk {
  datasetKey : option string;
  ctrlKey : bool;
  shiftKey : bool
}.
End MouseEvent.
Abbreviation MouseEvent := MouseEvent.t.

Section GridTs.

Variable StringToNumber : string -> Number.

(** [sort(rows, columns, sortOrder, defaultSortOrder)]: [rows.sort(...)]
    reorders the array it is given; that same array is returned. *)
Definition sort (rows : loc) (columns : list GridColumn) (sortOrder : loc)
    (defaultSortOrder : option loc) : M loc :=
  elements ← load lookupRows rows;
  order ← load lookupOrder sortOrder;
  fallback ← match defaultSortOrder with
             | Some d => o ← load lookupOrder d; mret (Some o)
             | None => mret None
             end;
  _ ← assign rows (RowArray (sorted StringToNumber columns order fallback elements));
  mret rows.

Variable settings : Settings.

Definition cycleColumnSortOrder (order : SortOrder) : SortOrder :=
  match order with
  | None => Some ascending
  | Some ascending => Some descending
  | Some descending =>
      match Settings.defaultSortOrder settings with
      | Some _ => None
      | None => Some ascending
      end
  end.

(** [rows = sort([...rows], columns, sortOrder, defaultSortOrder)] *)
Definition sortRows : M unit :=
  g ← getGrid;
  elements ← load lookupRows (Grid.rows g);
  copy ← alloc (RowArray elements);
  result ← sort copy (Settings.columns settings) (Grid.sortOrder g)
             (Settings.defaultSortOrder settings);
  g ← getGrid;
  setGrid (Grid.with_rows result g).

(** [columns.reduce((sum, x) => sum + x.width, 0)] *)
Definition sumWidths (columns : list GridColumn) : Q :=
  fold_left (fun sum x => Host.add sum (GridColumn.width x)) columns 0%Q.

(** [a !== b] on numbers. *)
Definition Qne (a b : Q) : bool := negb (Qeq_bool a b).

(** [recomputeVisibleArea].  [Math.ceil] of a double is the ceiling of the
    rational it denotes; the indices are whole numbers, which are added
    exactly.  [renderDebug] writes the debug element only and is left out. *)
Definition recomputeVisibleArea (layout : Layout) : M bool :=
  g ← getGrid;
  let scrollLeft := Layout.scrollLeft layout in
  let moved := Containers.with_scrollLeft scrollLeft (Grid.containers g) in
  _ ← setGrid (Grid.with_containers moved g);
  let v := Grid.view g in
  let rowHeight := Settings.rowHeight settings in
  let scrollTop := Layout.scrollTop layout in
  let newGridHeight := Layout.clientHeight layout in
  let newVisibleRowCount := Qceiling (Host.divide newGridHeight rowHeight) in
  let newFirstVisibleRowIndex := Qceiling (Host.divide scrollTop rowHeight) in
  let newLastVisibleRowIndex := newFirstVisibleRowIndex + newVisibleRowCount - 1 in
  let newTotalColumnWidth := sumWidths (Settings.columns settings) in
  elements ← load lookupRows (Grid.rows g);
  let newTotalRowHeight :=
    Host.multiply (inject_Z (Z.of_nat (length elements))) rowHeight in
  if (Qne newGridHeight (Viewport.gridHeight v)
      || negb (newVisibleRowCount =? Viewport.visibleRowCount v)
      || negb (newFirstVisibleRowIndex =? Viewport.firstVisibleRowIndex v)
      || negb (newLastVisibleRowIndex =? Viewport.lastVisibleRowIndex v)
      || Qne newTotalColumnWidth (Viewport.totalColumnWidth v)
      || Qne newTotalRowHeight (Viewport.totalRowHeight v))%bool
  then
    let resized :=
      Containers.mk scrollLeft scrollLeft
        (if Qne newTotalColumnWidth (Viewport.totalColumnWidth v)
         then Some newTotalColumnWidth
         else Containers.scrollAreaWidth moved)
        (if Qne newTotalRowHeight (Viewport.totalRowHeight v)
         then Some newTotalRowHeight
         else Containers.scrollAreaHeight moved) in
    let notified :=
      if (negb (newFirstVisibleRowIndex =? Viewport.firstVisibleRowIndex v)
          && Settings.onScroll settings)%bool
      then scrollTop :: Grid.scrolled g
      else Grid.scrolled g in
    _ ← setGrid (Grid.with_containers resized (Grid.with_scrolled notified
           (Grid.with_view
              (Viewport.mk newGridHeight newVisibleRowCount newFirstVisibleRowIndex
                 newLastVisibleRowIndex newTotalColumnWidth newTotalRowHeight) g)));
    mret true
  else mret false.

(** [updateRows]: [createRows] only rebuilds display elements. *)
Definition updateRows (layout : Layout) (forceUpdate : bool) : M unit :=
  _ ← recomputeVisibleArea layout;
  mret tt.

(** [JSON.parse(JSON.stringify(sortOrder))]: a new array of new objects with
    the same contents (a property whose value is [undefined] is dropped by
    [stringify] and reads as [undefined] again). *)
Definition JSON_copy (l : loc) : M loc :=
  es ← load lookupEntries l;
  copies ← mapM (fun e => c ← load lookupEntry e; alloc (OrderEntry c)) es;
  alloc (OrderArray copies).

(** [array.find((x) => x.key === columnKey)]: the first such object. *)
Fixpoint findEntry (columnKey : string) (es : list loc) : M (option loc) :=
  match es with
  | [] => mret None
  | e :: rest =>
      c ← load lookupEntry e;
      if String.eqb (FieldSortOrder.key c) columnKey then mret (Some e)
      else findEntry columnKey rest
  end.

(** [array.filter((x) => x.key !== columnKey)]: the elements of the new
    array. *)
Fixpoint filterEntries (columnKey : string) (es : list loc) : M (list loc) :=
  match es with
  | [] => mret []
  | e :: rest =>
      c ← load lookupEntry e;
      kept ← filterEntries columnKey rest;
      if String.eqb (FieldSortOrder.key c) columnKey then mret kept
      else mret (e :: kept)
  end.

(** [onColumnHeaderClick]; [updateColumnHeaders] only rebuilds display
    elements and is left out. *)
Definition onColumnHeaderClick (layout : Layout) (e : MouseEvent) : M unit :=
  match MouseEvent.datasetKey e with
  | None => throw "Grid column header element has no key."
  | Some columnKey =>
    if String.eqb columnKey "" then throw "Grid column header element has no key."
    else
      g ← getGrid;
      newSortOrder ← JSON_copy (Grid.sortOrder g);
      elements ← load lookupEntries newSortOrder;
      found ← findEntry columnKey elements;
      entry ← match found with
              | Some entry => mret entry
              | None => alloc (OrderEntry (FieldSortOrder.mk columnKey None))
              end;
      newSortOrder ←
        (if (negb (MouseEvent.ctrlKey e) && negb (MouseEvent.shiftKey e))%bool
         then alloc (OrderArray [])
         else kept ← filterEntries columnKey elements; alloc (OrderArray kept));
      c ← load lookupEntry entry;
      let order := cycleColumnSortOrder (FieldSortOrder.order c) in
      _ ← assign entry (OrderEntry (FieldSortOrder.mk (FieldSortOrder.key c) order));
      _ ← match order with
          | Some _ =>
              es ← load lookupEntries newSortOrder;
              assign newSortOrder (OrderArray (es ++ [entry]))
          | None => mret tt
          end;
      g ← getGrid;
      _ ← setGrid (Grid.with_sortOrder newSortOrder g);
      handled ← match Settings.onSort settings with
                | Some hook => o ← load lookupOrder newSortOrder; mret (hook o)
                | None => mret false
                end;
      if handled : bool then mret tt
      else _ ← sortRows; updateRows layout true
  end.

End GridTs.

(** ** Notions used to state the properties *)

(** [a] occurs before [b] in [l]: the two elements, in that order, form a
    subsequence of [l]. *)
Definition Before {A} (a b : A) (l : list A) : Prop := [a; b] `sublist_of` l.

(** The comparator as the specification words it: each entry of the order
    contributes the comparison of the two rows' sort values, negated for a
    descending entry and negated again for a reversed column; an entry
    without a column contributes nothing; the first nonzero contribution is
    the answer and 0 is the answer when there is none. *)
Definition negateIf (b : bool) (z : Z) : Z := if b then - z else z.

Definition isDescending (o : SortOrder) : bool :=
  match o with Some descending => true | _ => false end.

Definition contribution (StringToNumber : string -> Number)
    (columns : list GridColumn) (a b : Row) (entry : FieldSortOrder) : option Z :=
  column ← findColumn columns (FieldSortOrder.key entry);
  Some (negateIf (GridColumn.reverseSortOrder column)
          (negateIf (isDescending (FieldSortOrder.order entry))
             (compare StringToNumber (getCellSortValue a column)
                (getCellSortValue b column)))).

Definition firstNonzero (results : list Z) : Z :=
  default 0 (List.find (fun z => negb (z =? 0)) results).

Definition comparatorSpec (StringToNumber : string -> Number)
    (columns : list GridColumn) (order : TableSortOrder) (a b : Row) : Z :=
  firstNonzero (omap (contribution StringToNumber columns a b) order).

(** The next sort order as the specification words it: a plain click keeps
    nothing of the current order, a modified click keeps the entries of the
    other columns in their sequence; the clicked column's entry, when its
    advanced state is not none, is the last one. *)
Definition currentState (columnKey : string) (order : TableSortOrder) : SortOrder :=
  match List.find (fun x => String.eqb (FieldSortOrder.key x) columnKey) order with
  | Some entry => FieldSortOrder.order entry
  | None => None
  end.

Definition otherColumns (columnKey : string) (order : TableSortOrder) : TableSortOrder :=
  List.filter (fun x => negb (String.eqb (FieldSortOrder.key x) columnKey)) order.

Definition clickedTail (columnKey : string) (advanced : SortOrder) : TableSortOrder :=
  match advanced with
  | Some d => [FieldSortOrder.mk columnKey (Some d)]
  | None => []
  end.

(** The sum of the column widths. *)
Definition totalWidth (columns : list GridColumn) : Q :=
  foldr Qplus 0%Q (map GridColumn.width columns).

(** The optional default order of a store. *)
Definition lookupDefault (h : heap) (d : option loc) : option (option TableSortOrder) :=
  match d with
  | Some l => o ← lookupOrder h l; Some (Some o)
  | None => Some None
  end.

(** ** The value accessors and [compare] *)

Section ValueFacts.

Variable StringToNumber : string -> Number.

Lemma getCellValue_never_nullish row column :
  is_nullish (getCellValue row column) = false.
Proof.
  unfold getCellValue.
  destruct (is_nullish (access (GridColumn.property column) row)) eqn:E; done.
Qed.

(** C8: the display value is the accessed value with null and undefined
    replaced by the empty string; a column with a sort-value accessor sorts
    by that accessor's result untouched, whatever it is, null and undefined
    included; a column without one sorts by its display value. *)
Theorem value_resolution (row : Row) (k : string) (display : Accessor)
    (rev : bool) (w : Q) (l : string) :
  (forall sv,
     getCellValue row (GridColumn.mk k display sv rev w l) =
       match access display row with
       | VUndefined | VNull => VStr ""
       | v => v
       end) /\
  (forall acc,
     getCellSortValue row (GridColumn.mk k display (Some acc) rev w l) =
       access acc row) /\
  (forall v,
     getCellSortValue row
       (GridColumn.mk k display (Some (ByFunction (fun _ => v))) rev w l) = v) /\
  getCellSortValue row (GridColumn.mk k display None rev w l) =
    getCellValue row (GridColumn.mk k display None rev w l).
Proof.
  repeat split.
  intros sv. unfold getCellValue. simpl.
  by destruct (access display row).
Qed.

Lemma base_letter_idem c : Host.base_letter (Host.base_letter c) = Host.base_letter c.
Proof.
  unfold Host.base_letter.
  destruct (Host.is_upper c) eqn:E; [|by rewrite E].
  destruct c as [[] [] [] [] [] [] [] []]; vm_compute in E; try discriminate E;
    reflexivity.
Qed.

Lemma base_key_idem s : Host.base_key (Host.base_key s) = Host.base_key s.
Proof. induction s as [|c s IH]; simpl; [done|]. by rewrite base_letter_idem, IH. Qed.

Lemma compare_generic a b :
  (is_string a && is_string b)%bool = false ->
  compare StringToNumber a b =
    if JS.lt StringToNumber a b then -1
    else if JS.gt StringToNumber a b then 1 else 0.
Proof. destruct a, b; simpl; intros H; try discriminate H; reflexivity. Qed.

(** C7: on two strings [compare] is the base-sensitivity collation, which
    does not see case, so that "Apple" equals "apple" and comes before
    "Banana"; on any other pair it is -1 when [a < b], else 1 when [a > b],
    else 0. *)
Theorem compare_spec (a b : Value) :
  (forall s t, compare StringToNumber (VStr s) (VStr t) = Host.localeCompare s t) /\
  (forall s t, compare StringToNumber (VStr s) (VStr t) =
               compare StringToNumber (VStr (Host.base_key s)) (VStr (Host.base_key t))) /\
  compare StringToNumber (VStr "Apple") (VStr "apple") = 0 /\
  compare StringToNumber (VStr "Apple") (VStr "Banana") < 0 /\
  ((is_string a && is_string b)%bool = false ->
   compare StringToNumber a b =
     if JS.lt StringToNumber a b then -1
     else if JS.gt StringToNumber a b then 1 else 0).
Proof.
  split; [done|]. split.
  { intros s t. simpl. unfold Host.localeCompare. by rewrite !base_key_idem. }
  split; [reflexivity|]. split; [reflexivity|].
  apply compare_generic.
Qed.

End ValueFacts.

(** ** The per-column cycle *)

Section Cycle.

Variables (columns : list GridColumn) (onSort : option (TableSortOrder -> bool))
  (onScroll : bool) (rowHeight : Q).

Let configured (d : option loc) : Settings :=
  Settings.mk columns d onSort onScroll rowHeight.

Lemma cycle_without_default n :
  Nat.iter (S n) (cycleColumnSortOrder (configured None)) None =
    Some (if Nat.even n then ascending else descending).
Proof.
  induction n as [|n IH]; [reflexivity|].
  change (Nat.iter (S (S n)) ?f ?x) with (f (Nat.iter (S n) f x)).
  rewrite IH, Nat.even_succ, <- Nat.negb_even.
  by destruct (Nat.even n).
Qed.

(** C3: none advances to ascending and ascending to descending whatever the
    settings are; descending advances to none when the grid has a default
    sort order and to ascending when it has none.  With a default the states
    after 0, 1, 2, 3 and 4 clicks are none, ascending, descending, none,
    ascending; without one the state after any positive number of clicks is
    ascending or descending in alternation, so none never comes back. *)
Theorem cycle_correct (d : option loc) (l : loc) :
  cycleColumnSortOrder (configured d) None = Some ascending /\
  cycleColumnSortOrder (configured d) (Some ascending) = Some descending /\
  cycleColumnSortOrder (configured (Some l)) (Some descending) = None /\
  cycleColumnSortOrder (configured None) (Some descending) = Some ascending /\
  map (fun n => Nat.iter n (cycleColumnSortOrder (configured (Some l))) None)
      [0; 1; 2; 3; 4]%nat =
    [None; Some ascending; Some descending; None; Some ascending] /\
  (forall n, Nat.iter (S n) (cycleColumnSortOrder (configured None)) None =
             Some (if Nat.even n then ascending else descending)) /\
  (forall n, is_Some (Nat.iter (S n) (cycleColumnSortOrder (configured None)) None)).
Proof.
  repeat split; try reflexivity.
  - apply cycle_without_default.
  - intros n. rewrite cycle_without_default. by eexists.
Qed.

End Cycle.

(** ** The comparator *)

Section Comparator.

Variable StringToNumber : string -> Number.
Variable columns : list GridColumn.

Lemma entryResult_directed entry column a b :
  FieldSortOrder.order entry <> None ->
  entryResult StringToNumber entry column a b =
    negateIf (GridColumn.reverseSortOrder column)
      (negateIf (isDescending (FieldSortOrder.order entry))
         (compare StringToNumber (getCellSortValue a column)
            (getCellSortValue b column))).
Proof.
  unfold entryResult. destruct (FieldSortOrder.order entry) as [[]|]; done.
Qed.

Lemma firstNonzero_cons z results :
  firstNonzero (z :: results) = if z =? 0 then firstNonzero results else z.
Proof. unfold firstNonzero. simpl. by destruct (z =? 0). Qed.

Lemma compareByOrder_spec order a b :
  Forall (fun entry => FieldSortOrder.order entry <> None) order ->
  compareByOrder StringToNumber columns order a b =
    comparatorSpec StringToNumber columns order a b.
Proof.
  unfold comparatorSpec.
  induction 1 as [|entry rest Hdir _ IH]; [reflexivity|].
  simpl. unfold contribution at 1.
  destruct (findColumn columns (FieldSortOrder.key entry)) as [column|]; simpl.
  - rewrite firstNonzero_cons, <- (entryResult_directed _ _ _ _ Hdir), IH. done.
  - exact IH.
Qed.

(** The column of an entry is the first column descriptor that carries the
    entry's key; there is none exactly when no descriptor carries it. *)
Lemma findColumn_by_key k :
  match findColumn columns k with
  | Some column =>
      exists before after,
        columns = before ++ column :: after /\
        GridColumn.key column = k /\
        Forall (fun c => GridColumn.key c <> k) before
  | None => Forall (fun c => GridColumn.key c <> k) columns
  end.
Proof.
  unfold findColumn. induction columns as [|c cs IH]; simpl; [constructor|].
  destruct (String.eqb (GridColumn.key c) k) eqn:E.
  - apply String.eqb_eq in E. by exists [], cs.
  - apply String.eqb_neq in E. destruct (List.find _ cs) as [column|].
    + destruct IH as (before & after & -> & Hkey & Hbefore).
      exists (c :: before), after. split; [done|]. split; [done|]. by constructor.
    + by constructor.
Qed.

(** C4: for an order whose entries all carry a direction, the comparator is
    the first nonzero contribution of the effective order read left to
    right, where an entry contributes the comparison of the two rows' sort
    values for its column, negated when the entry is descending and negated
    again when the column is reversed, and an entry whose key names no
    column contributes nothing; it is 0 when no contribution is nonzero.
    The column of an entry is the first descriptor with the entry's key; an
    entry whose key no descriptor carries has none and is skipped. *)
Theorem comparator_spec (sortOrder : TableSortOrder)
    (defaultSortOrder : option TableSortOrder) (a b : Row) :
  Forall (fun entry => FieldSortOrder.order entry <> None)
    (effectiveOrder sortOrder defaultSortOrder) ->
  comparator StringToNumber columns sortOrder defaultSortOrder a b =
    firstNonzero
      (omap (contribution StringToNumber columns a b)
         (effectiveOrder sortOrder defaultSortOrder)) /\
  (forall k,
     match findColumn columns k with
     | Some column =>
         exists before after,
           columns = before ++ column :: after /\
           GridColumn.key column = k /\
           Forall (fun c => GridColumn.key c <> k) before
     | None => Forall (fun c => GridColumn.key c <> k) columns
     end) /\
  (forall entry,
     Forall (fun c => GridColumn.key c <> FieldSortOrder.key entry) columns ->
     contribution StringToNumber columns a b entry = None /\
     forall rest,
       compareByOrder StringToNumber columns (entry :: rest) a b =
         compareByOrder StringToNumber columns rest a b) /\
  (forall entry rest,
     findColumn columns (FieldSortOrder.key entry) = None ->
     compareByOrder StringToNumber columns (entry :: rest) a b =
       compareByOrder StringToNumber columns rest a b) /\
  (Forall (fun z => z = 0)
     (omap (contribution StringToNumber columns a b)
        (effectiveOrder sortOrder defaultSortOrder)) ->
   comparator StringToNumber columns sortOrder defaultSortOrder a b = 0).
Proof.
  intros Hdir.
  assert (comparator StringToNumber columns sortOrder defaultSortOrder a b =
    firstNonzero (omap (contribution StringToNumber columns a b)
      (effectiveOrder sortOrder defaultSortOrder))) as Heq
    by (apply compareByOrder_spec, Hdir).
  split; [exact Heq|]. split; [exact findColumn_by_key|].
  assert (forall entry,
    Forall (fun c => GridColumn.key c <> FieldSortOrder.key entry) columns ->
    findColumn columns (FieldSortOrder.key entry) = None) as Hunknown.
  { intros entry Hnone.
    pose proof (findColumn_by_key (FieldSortOrder.key entry)) as Hfound.
    destruct (findColumn columns (FieldSortOrder.key entry)) as [column|]; [|done].
    destruct Hfound as (before & after & Hcolumns & Hkey & _).
    rewrite Hcolumns in Hnone. apply Forall_app in Hnone as [_ Hnone].
    by apply Forall_cons in Hnone as [Hnone _]. }
  split; [|split].
  - intros entry Hnone. split.
    + unfold contribution. by rewrite (Hunknown entry Hnone).
    + intros rest. simpl. by rewrite (Hunknown entry Hnone).
  - intros entry rest Hnone. simpl. by rewrite Hnone.
  - rewrite Heq. clear Heq Hdir Hunknown.
    induction 1 as [|z zs Hz _ IH]; [reflexivity|].
    rewrite firstNonzero_cons, Hz. exact IH.
Qed.

Lemma entryResult_undefined k column a b :
  entryResult StringToNumber (FieldSortOrder.mk k None) column a b = 0.
Proof. unfold entryResult. simpl. by destruct (GridColumn.reverseSortOrder column). Qed.

Lemma compareByOrder_undefined order a b :
  Forall (fun entry => FieldSortOrder.order entry = None) order ->
  compareByOrder StringToNumber columns order a b = 0.
Proof.
  induction 1 as [|[k o] rest Ho _ IH]; [reflexivity|].
  simpl in Ho. subst o. simpl.
  destruct (findColumn columns k); [|exact IH].
  by rewrite entryResult_undefined.
Qed.

End Comparator.

(** ** The host's sort *)

Section ArraySortFacts.

Context {A : Type} (comparefn : A -> A -> Z).

Lemma insert_perm x l : Host.insert comparefn x l ≡ₚ x :: l.
Proof.
  induction l as [|y l IH]; simpl; [done|].
  destruct (comparefn x y >? 0); [|done].
  rewrite IH. apply Permutation_swap.
Qed.

Lemma Array_sort_perm l : Host.Array_sort comparefn l ≡ₚ l.
Proof.
  induction l as [|x l IH]; simpl; [done|].
  by rewrite insert_perm, IH.
Qed.




(** An array in which no element is greater than a later one is left as it
    is. *)
Lemma Array_sort_in_order l :
  (forall a b, Before a b l -> comparefn a b <= 0) ->
  Host.Array_sort comparefn l = l.
Proof.
  induction l as [|x l IH]; intros Hord; simpl; [done|].
  rewrite IH by (intros a b Hab; apply Hord, sublist_cons, Hab).
  destruct l as [|y l]; simpl; [done|].
  assert (comparefn x y <= 0) as Hxy.
  { apply Hord. unfold Before. do 2 apply sublist_skip. apply sublist_nil_l. }
  destruct (comparefn x y >? 0) eqn:Hgt; [lia|done].
Qed.

End ArraySortFacts.

(** A comparator is consistent on the elements of [l] when it makes them a
    sequence of classes of equals: the conditions the language standard puts
    on [comparefn]. *)
Record Consistent {A} (comparefn : A -> A -> Z) (l : list A) : Prop := {
  tie_refl a : a ∈ l -> comparefn a a = 0;
  tie_sym a b : a ∈ l -> b ∈ l -> comparefn a b = 0 -> comparefn b a = 0;
  tie_trans a b c : a ∈ l -> b ∈ l -> c ∈ l ->
    comparefn a b = 0 -> comparefn b c = 0 -> comparefn a c = 0;
  less_trans a b c : a ∈ l -> b ∈ l -> c ∈ l ->
    comparefn a b < 0 -> comparefn b c < 0 -> comparefn a c < 0;
  greater_trans a b c : a ∈ l -> b ∈ l -> c ∈ l ->
    comparefn a b > 0 -> comparefn b c > 0 -> comparefn a c > 0
}.

(** No element is greater than a later one. *)
Definition InOrder {A} (comparefn : A -> A -> Z) (l : list A) : Prop :=
  forall a b, Before a b l -> comparefn a b <= 0.


Section Unique.
Context {A : Type} (comparefn : A -> A -> Z).

Lemma Consistent_incl l k : k ⊆ l -> Consistent comparefn l -> Consistent comparefn k.
Proof.
  intros Hkl [R S T L G]. split.
  - intros a Ha. apply R; auto.
  - intros a b Ha Hb. apply S; auto.
  - intros a b c Ha Hb Hc. apply T; auto.
  - intros a b c Ha Hb Hc. apply L; auto.
  - intros a b c Ha Hb Hc. apply G; auto.
Qed.

Lemma greater_less l a b :
  Consistent comparefn l -> a ∈ l -> b ∈ l -> comparefn a b > 0 -> comparefn b a < 0.
Proof.
  intros C Ha Hb Hab.
  destruct (Z.compare_spec (comparefn b a) 0) as [E|E|E]; [|done|].
  - apply (tie_sym _ _ C) in E; [lia|done|done].
  - pose proof (greater_trans _ _ C a b a Ha Hb Ha Hab ltac:(lia)).
    pose proof (tie_refl _ _ C a Ha). lia.
Qed.


Lemma less_tie l a b c :
  Consistent comparefn l -> a ∈ l -> b ∈ l -> c ∈ l ->
  comparefn a b < 0 -> comparefn b c = 0 -> comparefn a c < 0.
Proof.
  intros C Ha Hb Hc Hab Hbc.
  destruct (Z.compare_spec (comparefn a c) 0) as [E|E|E]; [|done|].
  - pose proof (tie_trans _ _ C a c b Ha Hc Hb E (tie_sym _ _ C b c Hb Hc Hbc)). lia.
  - pose proof (greater_less l a c C Ha Hc ltac:(lia)) as Hca.
    pose proof (less_trans _ _ C c a b Hc Ha Hb Hca Hab).
    pose proof (tie_sym _ _ C b c Hb Hc Hbc). lia.
Qed.

Lemma tie_less l a b c :
  Consistent comparefn l -> a ∈ l -> b ∈ l -> c ∈ l ->
  comparefn a b = 0 -> comparefn b c < 0 -> comparefn a c < 0.
Proof.
  intros C Ha Hb Hc Hab Hbc.
  destruct (Z.compare_spec (comparefn a c) 0) as [E|E|E]; [|done|].
  - pose proof (tie_trans _ _ C b a c Hb Ha Hc (tie_sym _ _ C a b Ha Hb Hab) E). lia.
  - pose proof (greater_less l a c C Ha Hc ltac:(lia)) as Hca.
    pose proof (less_trans _ _ C b c a Hb Hc Ha Hbc Hca).
    pose proof (tie_sym _ _ C a b Ha Hb Hab). lia.
Qed.

Lemma not_greater_trans l a b c :
  Consistent comparefn l -> a ∈ l -> b ∈ l -> c ∈ l ->
  comparefn a b <= 0 -> comparefn b c <= 0 -> comparefn a c <= 0.
Proof.
  intros C Ha Hb Hc Hab Hbc.
  destruct (Z.eq_dec (comparefn a b) 0) as [E1|E1];
    destruct (Z.eq_dec (comparefn b c) 0) as [E2|E2].
  - rewrite (tie_trans _ _ C a b c); done.
  - pose proof (tie_less l a b c C Ha Hb Hc E1 ltac:(lia)). lia.
  - pose proof (less_tie l a b c C Ha Hb Hc ltac:(lia) E2). lia.
  - pose proof (less_trans _ _ C a b c Ha Hb Hc ltac:(lia) ltac:(lia)). lia.
Qed.


Lemma insert_in_order x l :
  Consistent comparefn (x :: l) -> InOrder comparefn l ->
  InOrder comparefn (Host.insert comparefn x l).
Proof.
  unfold InOrder, Before.
  induction l as [|y l IH]; intros C Hord a b Hab; simpl in Hab.
  - apply sublist_cons_r in Hab as [Hab|(l' & Heq & Hab)].
    + by apply sublist_nil_r in Hab.
    + injection Heq as -> <-. by apply sublist_nil_r in Hab.
  - assert (x ∈ x :: y :: l) as Hx by apply list_elem_of_here.
    assert (y ∈ x :: y :: l) as Hy by apply list_elem_of_further, list_elem_of_here.
    assert (forall b, b ∈ l -> comparefn y b <= 0) as Hyb.
    { intros b' Hb'. apply Hord. apply sublist_skip. by apply singleton_sublist_l. }
    destruct (comparefn x y >? 0) eqn:Hgt.
    + apply sublist_cons_r in Hab as [Hab|(l' & Heq & Hab)].
      * apply IH; [|intros a' b' Hab'; apply Hord, sublist_cons, Hab'|done].
        eapply Consistent_incl; [|exact C]. intros z. rewrite !elem_of_cons. tauto.
      * injection Heq as -> <-. apply singleton_sublist_l in Hab.
        rewrite insert_perm in Hab. apply elem_of_cons in Hab as [->|Hb]; [|by apply Hyb].
        pose proof (greater_less _ x y C Hx Hy ltac:(lia)). lia.
    + apply sublist_cons_r in Hab as [Hab|(l' & Heq & Hab)]; [by apply Hord|].
      injection Heq as -> <-. apply singleton_sublist_l in Hab.
      apply elem_of_cons in Hab as [->|Hb]; [lia|].
      apply (not_greater_trans (x :: y :: l) x y b C); [done|done| |lia|by apply Hyb].
      by do 2 apply list_elem_of_further.
Qed.

Lemma Array_sort_sorts l :
  Consistent comparefn l -> InOrder comparefn (Host.Array_sort comparefn l).
Proof.
  induction l as [|x l IH]; intros C; simpl.
  - intros a b Hab. by apply sublist_nil_r in Hab.
  - apply insert_in_order.
    + eapply Consistent_incl; [|exact C]. intros z. rewrite !elem_of_cons, Array_sort_perm. done.
    + apply IH. eapply Consistent_incl; [|exact C]. intros z. rewrite !elem_of_cons. tauto.
Qed.







End Unique.

(** Three sample rows [{k, v}] and the column that shows and sorts [v]. *)
Definition sampleRow (k : string) (v : Z) : Row :=
  {[ "k" := VStr k; "v" := num v ]}.

Definition columnV : GridColumn :=
  GridColumn.mk "v" (ByFunction (fun row => default VUndefined (row !! "v")))
    None false 80 "V".

Definition ascendingV : TableSortOrder := [FieldSortOrder.mk "v" (Some ascending)].

Section SortFacts.

Variable StringToNumber : string -> Number.
Variable columns : list GridColumn.


End SortFacts.

(** ** Running computations *)

Lemma bind_run {A B} (m : M A) (f : A -> M B) w a w' :
  m w = Return a w' -> (m ≫= f) w = f a w'.
Proof. unfold mbind, M_bind. by intros ->. Qed.

Lemma load_run {A} (read : heap -> loc -> option A) l w a :
  read (store w) l = Some a -> load read l w = Return a w.
Proof. unfold load. by intros ->. Qed.

Lemma fresh_unused (h : heap) : h !! fresh (dom h) = None.
Proof. apply not_elem_of_dom, is_fresh. Qed.

Lemma alloc_extends (h : heap) c : h ⊆ <[fresh (dom h) := c]> h.
Proof. apply insert_subseteq, fresh_unused. Qed.

(** Reading a store that has grown gives what it gave before. *)
Lemma lookupRows_weaken (h h' : heap) l rs :
  h ⊆ h' -> lookupRows h l = Some rs -> lookupRows h' l = Some rs.
Proof.
  unfold lookupRows. intros Hsub Hl.
  destruct (h !! l) as [c|] eqn:E; [|done].
  by rewrite (lookup_weaken _ _ _ _ E Hsub).
Qed.

Lemma lookupEntries_weaken (h h' : heap) l es :
  h ⊆ h' -> lookupEntries h l = Some es -> lookupEntries h' l = Some es.
Proof.
  unfold lookupEntries. intros Hsub Hl.
  destruct (h !! l) as [c|] eqn:E; [|done].
  by rewrite (lookup_weaken _ _ _ _ E Hsub).
Qed.

Lemma lookupEntry_weaken (h h' : heap) l c :
  h ⊆ h' -> lookupEntry h l = Some c -> lookupEntry h' l = Some c.
Proof.
  unfold lookupEntry. intros Hsub Hl.
  destruct (h !! l) as [c'|] eqn:E; [|done].
  by rewrite (lookup_weaken _ _ _ _ E Hsub).
Qed.

Lemma lookupOrder_weaken (h h' : heap) l o :
  h ⊆ h' -> lookupOrder h l = Some o -> lookupOrder h' l = Some o.
Proof.
  unfold lookupOrder. intros Hsub Hl.
  destruct (lookupEntries h l) as [es|] eqn:E; [|done].
  rewrite (lookupEntries_weaken _ _ _ _ Hsub E). simpl in *.
  apply mapM_Some in Hl. apply mapM_Some.
  eapply Forall2_impl; [exact Hl|].
  intros e c. by apply lookupEntry_weaken.
Qed.

Lemma lookupDefault_weaken (h h' : heap) d o :
  h ⊆ h' -> lookupDefault h d = Some o -> lookupDefault h' d = Some o.
Proof.
  intros Hsub. destruct d as [l|]; simpl; [|done].
  destruct (lookupOrder h l) as [o'|] eqn:E; [|done].
  by rewrite (lookupOrder_weaken _ _ _ _ Hsub E).
Qed.

Section SortRuns.

Variable StringToNumber : string -> Number.

Lemma sort_run w rowsLoc columns orderLoc d rs so dso :
  lookupRows (store w) rowsLoc = Some rs ->
  lookupOrder (store w) orderLoc = Some so ->
  lookupDefault (store w) d = Some dso ->
  sort StringToNumber rowsLoc columns orderLoc d w =
    Return rowsLoc
      (mkWorld (grid w)
         (<[rowsLoc := RowArray (sorted StringToNumber columns so dso rs)]> (store w))).
Proof.
  intros Hrows Horder Hdefault. unfold sort.
  rewrite (bind_run _ _ _ _ _ (load_run _ _ _ _ Hrows)).
  rewrite (bind_run _ _ _ _ _ (load_run _ _ _ _ Horder)).
  destruct d as [l|]; simpl in Hdefault.
  - destruct (lookupOrder (store w) l) as [o|] eqn:E; [|done].
    injection Hdefault as <-.
    rewrite (bind_run _ _ w (Some o) w); [done|].
    by rewrite (bind_run _ _ _ _ _ (load_run _ _ _ _ E)).
  - injection Hdefault as <-. done.
Qed.

Lemma sortRows_run settings w rs so dso :
  lookupRows (store w) (Grid.rows (grid w)) = Some rs ->
  lookupOrder (store w) (Grid.sortOrder (grid w)) = Some so ->
  lookupDefault (store w) (Settings.defaultSortOrder settings) = Some dso ->
  sortRows StringToNumber settings w =
    Return tt
      (mkWorld (Grid.with_rows (fresh (dom (store w))) (grid w))
         (<[fresh (dom (store w)) :=
              RowArray (sorted StringToNumber (Settings.columns settings) so dso rs)]>
            (store w))).
Proof.
  intros Hrows Horder Hdefault. unfold sortRows.
  rewrite (bind_run _ _ w (grid w) w) by done.
  rewrite (bind_run _ _ _ _ _ (load_run _ _ _ _ Hrows)).
  rewrite (bind_run _ _ w (fresh (dom (store w)))
             (mkWorld (grid w) (<[fresh (dom (store w)) := RowArray rs]> (store w))))
    by done.
  erewrite bind_run; cycle 1.
  { apply (sort_run _ _ _ _ _ rs so dso); simpl.
    - unfold lookupRows. by rewrite lookup_insert_eq.
    - by apply (lookupOrder_weaken (store w)); [apply alloc_extends|].
    - by apply (lookupDefault_weaken (store w)); [apply alloc_extends|]. }
  simpl. unfold mbind, M_bind, getGrid, setGrid. simpl.
  by rewrite insert_insert_eq.
Qed.

End SortRuns.

(** A small world: the rows [b, a] in the array 1, and the order "ascending
    by v" in the array 2, whose only object is 3. *)
Definition emptyView : Viewport := Viewport.mk 0 0 0 0 0 0.

(** The containers of a new grid: not scrolled, the scroll area not sized. *)
Definition atRest : Containers := Containers.mk 0 0 None None.

Definition sampleStore : heap :=
  {[ 1%positive := RowArray [sampleRow "b" 2; sampleRow "a" 1];
     2%positive := OrderArray [3%positive];
     3%positive := OrderEntry (FieldSortOrder.mk "v" (Some ascending)) ]}.

Definition sampleWorld : World :=
  mkWorld (Grid.mk 1 2 emptyView [] atRest) sampleStore.

Definition sampleSettings : Settings :=
  Settings.mk [columnV] None None false 20.

(** A host in which no string converts to a number. *)
Definition noNumber : string -> Number := fun _ => NaN.

Section SortEffects.

Variable StringToNumber : string -> Number.

(** C10: an entry whose order is undefined gives 0 for every pair of rows,
    reversed column or not, and the comparator goes on to the next entry;
    when the effective order holds only such entries the comparator is 0
    everywhere and [sort] returns with the rows in the sequence they had. *)
Theorem undefined_order_is_skipped (w : World) (rowsLoc orderLoc : loc)
    (d : option loc) (columns : list GridColumn) (rs : list Row)
    (so : TableSortOrder) (dso : option TableSortOrder) :
  lookupRows (store w) rowsLoc = Some rs ->
  lookupOrder (store w) orderLoc = Some so ->
  lookupDefault (store w) d = Some dso ->
  Forall (fun entry => FieldSortOrder.order entry = None) (effectiveOrder so dso) ->
  (forall k column a b,
     entryResult StringToNumber (FieldSortOrder.mk k None) column a b = 0) /\
  (forall k rest a b,
     compareByOrder StringToNumber columns (FieldSortOrder.mk k None :: rest) a b =
       compareByOrder StringToNumber columns rest a b) /\
  (forall a b, comparator StringToNumber columns so dso a b = 0) /\
  exists w',
    sort StringToNumber rowsLoc columns orderLoc d w = Return rowsLoc w' /\
    lookupRows (store w') rowsLoc = Some rs.
Proof.
  intros Hrows Horder Hdefault Hundef.
  assert (forall a b, comparator StringToNumber columns so dso a b = 0) as Hzero
    by (intros a b; apply compareByOrder_undefined, Hundef).
  split; [apply entryResult_undefined|]. split.
  { intros k rest a b. simpl. destruct (findColumn columns k); [|done].
    by rewrite entryResult_undefined. }
  split; [exact Hzero|].
  eexists. split; [by apply (sort_run _ _ _ _ _ _ rs so dso)|].
  simpl. unfold lookupRows. rewrite lookup_insert_eq. f_equal.
  apply Array_sort_in_order. intros a b _. by rewrite Hzero.
Qed.

(** C5, as the code has it: [sortRows] hands [sort] a copy of the grid's row
    array, so every array and object of the store, the previous row array
    among them, is left as it was, and the grid's rows become a new array
    that holds the sorted rows; [sort] itself returns the array it was
    given. *)
Theorem sortRows_leaves_rows_unmutated (settings : Settings) (w : World)
    (rs : list Row) (so : TableSortOrder) (dso : option TableSortOrder) :
  lookupRows (store w) (Grid.rows (grid w)) = Some rs ->
  lookupOrder (store w) (Grid.sortOrder (grid w)) = Some so ->
  lookupDefault (store w) (Settings.defaultSortOrder settings) = Some dso ->
  (exists w',
     sortRows StringToNumber settings w = Return tt w' /\
     (forall l c, store w !! l = Some c -> store w' !! l = Some c) /\
     lookupRows (store w') (Grid.rows (grid w)) = Some rs /\
     store w !! Grid.rows (grid w') = None /\
     lookupRows (store w') (Grid.rows (grid w')) =
       Some (sorted StringToNumber (Settings.columns settings) so dso rs)) /\
  (exists w',
     sort StringToNumber (Grid.rows (grid w)) (Settings.columns settings)
       (Grid.sortOrder (grid w)) (Settings.defaultSortOrder settings) w =
       Return (Grid.rows (grid w)) w' /\
     lookupRows (store w') (Grid.rows (grid w)) =
       Some (sorted StringToNumber (Settings.columns settings) so dso rs)).
Proof.
  intros Hrows Horder Hdefault. split.
  - eexists. split; [by apply (sortRows_run _ _ _ rs so dso)|]. simpl.
    assert (store w ⊆ <[fresh (dom (store w)) :=
      RowArray (sorted StringToNumber (Settings.columns settings) so dso rs)]> (store w))
      as Hsub by apply alloc_extends.
    split; [intros l c Hl; by apply (lookup_weaken _ _ _ _ Hl)|].
    split; [by apply (lookupRows_weaken (store w))|].
    split; [apply fresh_unused|].
    unfold lookupRows. by rewrite lookup_insert_eq.
  - eexists. split; [by apply (sort_run _ _ _ _ _ _ rs so dso)|].
    simpl. unfold lookupRows. by rewrite lookup_insert_eq.
Qed.

End SortEffects.

(** C5, as stated, fails for [sort]: applied to the array 1 of the sample
    world, which holds [b, a], it answers the array 1 itself, and the array
    then holds [a, b]. *)
Lemma sort_reorders_its_argument :
  lookupRows (store sampleWorld) 1%positive =
    Some [sampleRow "b" 2; sampleRow "a" 1] /\
  exists w',
    sort noNumber 1%positive [columnV] 2%positive None sampleWorld =
      Return 1%positive w' /\
    lookupRows (store w') 1%positive = Some [sampleRow "a" 1; sampleRow "b" 2].
Proof.
  split; [reflexivity|].
  eexists. split; [vm_compute; reflexivity|]. vm_compute. reflexivity.
Qed.

(** ** The host's arithmetic *)

(** What the geometry needs of the rounding: it keeps the sign, it never
    crosses a whole number, it leaves whole numbers below [2 ^ 53] alone,
    and below [2 ^ 52] it moves a number by a quarter at most. *)

Section Doubles.

#[local] Open Scope Q_scope.

Lemma roundTiesToEven_cases y :
  Host.roundTiesToEven y = Qfloor y \/ Host.roundTiesToEven y = (Qfloor y + 1)%Z.
Proof.
  unfold Host.roundTiesToEven. cbv zeta.
  destruct (Qcompare _ _); [destruct (Z.even _)|..]; auto.
Qed.

Lemma roundTiesToEven_le y (m : Z) : y <= inject_Z m -> (Host.roundTiesToEven y <= m)%Z.
Proof.
  intros Hy.
  assert (Qfloor y <= m)%Z as Hf.
  { rewrite <- (Qfloor_Z m). by apply Qfloor_resp_le. }
  destruct (Z.eq_dec (Qfloor y) m) as [E|E].
  - unfold Host.roundTiesToEven. cbv zeta.
    destruct (Qcompare_spec (y - inject_Z (Qfloor y)) (1 # 2)) as [H|H|H];
      [rewrite E in H; lra|lia|rewrite E in H; lra].
  - destruct (roundTiesToEven_cases y) as [-> | ->]; lia.
Qed.

Lemma roundTiesToEven_ge y (m : Z) : inject_Z m <= y -> (m <= Host.roundTiesToEven y)%Z.
Proof.
  intros Hy.
  assert (m <= Qfloor y)%Z as Hf.
  { rewrite <- (Qfloor_Z m). by apply Qfloor_resp_le. }
  destruct (roundTiesToEven_cases y) as [-> | ->]; lia.
Qed.

Lemma roundTiesToEven_near y :
  y - (1 # 2) <= inject_Z (Host.roundTiesToEven y) /\
  inject_Z (Host.roundTiesToEven y) <= y + (1 # 2).
Proof.
  pose proof (Qfloor_le y) as Hlo. pose proof (Qlt_floor y) as Hhi.
  rewrite inject_Z_plus in Hhi. change (inject_Z 1) with 1 in Hhi.
  unfold Host.roundTiesToEven. cbv zeta.
  destruct (Qcompare_spec (y - inject_Z (Qfloor y)) (1 # 2)) as [H|H|H];
    [destruct (Z.even _)|..]; rewrite ?inject_Z_plus;
    change (inject_Z 1) with 1; split; lra.
Qed.

Lemma inject_Z_pos (z : Z) : (0 < z)%Z -> 0 < inject_Z z.
Proof. intros H. change 0 with (inject_Z 0). by rewrite <- Zlt_Qlt. Qed.

Lemma pow2_scale e :
  (e <= 0)%Z -> Host.pow2 e * inject_Z (2 ^ (- e)) == 1.
Proof.
  intros He. unfold Host.pow2.
  assert (0 < inject_Z (2 ^ (- e))) as Hpos.
  { apply inject_Z_pos, Z.pow_pos_nonneg; lia. }
  destruct (0 <=? e)%Z eqn:E.
  - apply Z.leb_le in E. replace e with 0%Z by lia. reflexivity.
  - field. lra.
Qed.

Lemma pow2_pos e : 0 < Host.pow2 e.
Proof.
  unfold Host.pow2. destruct (0 <=? e)%Z eqn:E.
  - apply Z.leb_le in E. by apply inject_Z_pos, Z.pow_pos_nonneg.
  - apply Z.leb_gt in E. apply Qinv_lt_0_compat.
    apply inject_Z_pos, Z.pow_pos_nonneg; lia.
Qed.

Lemma exponent_lt x n :
  (0 < n)%Z -> Qabs x < inject_Z (2 ^ n) -> (Host.exponent x < n)%Z.
Proof.
  intros Hn Hx. unfold Host.exponent. cbv zeta.
  destruct (Qle_bool 1 (Qabs x)) eqn:E.
  - apply Qle_bool_iff in E.
    assert (1 <= Qfloor (Qabs x))%Z as H1.
    { change 1%Z with (Qfloor 1). by apply Qfloor_resp_le. }
    apply Z.log2_lt_pow2; [lia|].
    change (Qfloor (Qabs x) < 2 ^ n)%Z. rewrite Zlt_Qlt.
    apply Qle_lt_trans with (Qabs x); [apply Qfloor_le|exact Hx].
  - pose proof (Z.log2_up_nonneg (Qceiling (/ Qabs x))). lia.
Qed.

(** Below [2 ^ n] with [n <= 53] the unit in the last place is
    [1 / 2 ^ k] for a [k] of at least [53 - n]. *)
Lemma ulp_scale x n :
  (0 < n <= 53)%Z -> Qabs x < inject_Z (2 ^ n) ->
  exists K : Z, (2 ^ (53 - n) <= K)%Z /\ Host.ulp x * inject_Z K == 1.
Proof.
  intros Hn Hx. pose proof (exponent_lt x n (proj1 Hn) Hx) as He.
  unfold Host.ulp. set (e := Z.max (Host.exponent x - 52) (-1074)).
  assert (e <= n - 53)%Z as Hle by lia.
  exists (2 ^ (- e))%Z. split; [apply Z.pow_le_mono_r; lia|].
  apply pow2_scale. lia.
Qed.

Lemma round64_zero x : x == 0 -> Host.round64 x = 0.
Proof. intros E. unfold Host.round64. apply Qeq_bool_iff in E. by rewrite E. Qed.

Lemma round64_nonzero x :
  ~ x == 0 ->
  Host.round64 x = inject_Z (Host.roundTiesToEven (x / Host.ulp x)) * Host.ulp x.
Proof.
  intros E. unfold Host.round64. destruct (Qeq_bool x 0) eqn:B; [|done].
  by apply Qeq_bool_iff in B.
Qed.

#[global] Instance roundTiesToEven_comp : Proper (Qeq ==> eq) Host.roundTiesToEven.
Proof.
  intros x y E. unfold Host.roundTiesToEven. cbv zeta.
  rewrite (Qfloor_comp _ _ E).
  assert (x - inject_Z (Qfloor y) == y - inject_Z (Qfloor y)) as E'
    by (by rewrite E).
  by rewrite (Qcompare_comp _ _ E' _ _ (Qeq_refl (1 # 2))).
Qed.

(** Below [2 ^ n] a double is a whole number of units [1 / K]: scaled by
    [K], rounding is rounding to the nearest whole number. *)
Lemma round64_scaled x n :
  (0 < n <= 53)%Z -> Qabs x < inject_Z (2 ^ n) ->
  exists K : Z,
    (2 ^ (53 - n) <= K)%Z /\
    Host.round64 x * inject_Z K == inject_Z (Host.roundTiesToEven (x * inject_Z K)).
Proof.
  intros Hn Hx. destruct (ulp_scale x n Hn Hx) as (K & HK & Hscale).
  exists K. split; [exact HK|].
  destruct (Qeq_dec x 0) as [E|E].
  - rewrite (round64_zero x E).
    assert (x * inject_Z K == 0) as -> by (rewrite E; ring). reflexivity.
  - rewrite (round64_nonzero x E).
    pose proof (pow2_pos (Z.max (Host.exponent x - 52) (-1074))) as Hpos.
    fold (Host.ulp x) in Hpos. set (u := Host.ulp x) in *.
    assert (x / u == x * inject_Z K) as ->.
    { field_simplify_eq; [|lra]. rewrite <- (Qmult_1_r x) at 1.
      rewrite <- Hscale. ring. }
    rewrite <- Qmult_assoc, Hscale. ring.
Qed.

(** Rounding never crosses a whole number: a number that is at most [m]
    rounds to at most [m], one that is at least [m] rounds to at least [m]. *)
Lemma round64_le_Z x (m : Z) :
  Qabs x < inject_Z (2 ^ 53) -> x <= inject_Z m -> Host.round64 x <= inject_Z m.
Proof.
  intros Hx Hm.
  destruct (round64_scaled x 53) as (K & HK & Hscaled); [lia|exact Hx|].
  assert (0 < inject_Z K) as HKq by (apply inject_Z_pos; simpl in HK; lia).
  assert (Host.roundTiesToEven (x * inject_Z K) <= m * K)%Z as Hr.
  { apply roundTiesToEven_le. rewrite inject_Z_mult.
    apply Qmult_le_compat_r; [exact Hm|lra]. }
  rewrite Zle_Qle, inject_Z_mult, <- Hscaled in Hr.
  by apply (Qmult_le_r _ _ (inject_Z K)).
Qed.

Lemma round64_ge_Z x (m : Z) :
  Qabs x < inject_Z (2 ^ 53) -> inject_Z m <= x -> inject_Z m <= Host.round64 x.
Proof.
  intros Hx Hm.
  destruct (round64_scaled x 53) as (K & HK & Hscaled); [lia|exact Hx|].
  assert (0 < inject_Z K) as HKq by (apply inject_Z_pos; simpl in HK; lia).
  assert (m * K <= Host.roundTiesToEven (x * inject_Z K))%Z as Hr.
  { apply roundTiesToEven_ge. rewrite inject_Z_mult.
    apply Qmult_le_compat_r; [exact Hm|lra]. }
  rewrite Zle_Qle, inject_Z_mult, <- Hscaled in Hr.
  by apply (Qmult_le_r _ _ (inject_Z K)).
Qed.

(** Whole numbers below [2 ^ 53] are doubles. *)
Lemma round64_Z (m : Z) :
  (Z.abs m < 2 ^ 53)%Z -> Host.round64 (inject_Z m) == inject_Z m.
Proof.
  intros Hm.
  assert (Qabs (inject_Z m) < inject_Z (2 ^ 53)) as Hx.
  { change (inject_Z (Z.abs m) < inject_Z (2 ^ 53)). by rewrite <- Zlt_Qlt. }
  apply Qle_antisym; [apply round64_le_Z|apply round64_ge_Z]; try done; apply Qle_refl.
Qed.

(** Below [2 ^ 52] the rounding error is at most a quarter. *)
Lemma round64_near x :
  Qabs x < inject_Z (2 ^ 52) ->
  x - (1 # 4) <= Host.round64 x /\ Host.round64 x <= x + (1 # 4).
Proof.
  intros Hx.
  destruct (round64_scaled x 52) as (K & HK & Hscaled); [lia|exact Hx|].
  assert (2 <= inject_Z K) as HKq.
  { change 2 with (inject_Z 2). rewrite <- Zle_Qle. simpl in HK. lia. }
  destruct (roundTiesToEven_near (x * inject_Z K)) as [Hlo Hhi].
  rewrite <- Hscaled in Hlo, Hhi.
  split.
  - apply (Qmult_le_r _ _ (inject_Z K)); [lra|]. nra.
  - apply (Qmult_le_r _ _ (inject_Z K)); [lra|]. nra.
Qed.

(** Rounding keeps the sign. *)
Lemma round64_nonneg x : 0 <= x -> 0 <= Host.round64 x.
Proof.
  intros Hx. destruct (Qeq_dec x 0) as [E|E].
  - rewrite (round64_zero x E). apply Qle_refl.
  - rewrite (round64_nonzero x E).
    pose proof (pow2_pos (Z.max (Host.exponent x - 52) (-1074))) as Hpos.
    fold (Host.ulp x) in Hpos.
    apply Qmult_le_0_compat; [|lra].
    change 0 with (inject_Z 0). rewrite <- Zle_Qle. apply roundTiesToEven_ge.
    apply Qle_shift_div_l; [exact Hpos|]. change (inject_Z 0) with 0. lra.
Qed.

#[global] Instance round64_comp : Proper (Qeq ==> Qeq) Host.round64.
Proof.
  intros x y E. unfold Host.round64.
  assert (Host.ulp x = Host.ulp y) as ->.
  { unfold Host.ulp, Host.exponent. cbv zeta.
    rewrite (Qleb_comp _ _ (Qeq_refl 1) _ _ (Qabs_wd _ _ E)).
    destruct (Qle_bool 1 (Qabs y)); by rewrite E. }
  rewrite (Qeqb_comp _ _ E _ _ (Qeq_refl 0)).
  destruct (Qeq_bool y 0); [reflexivity|]. by rewrite E.
Qed.

End Doubles.

(** ** The visible window *)

(** A whole number of pixels. *)
Definition whole (x : Q) : Prop := exists n : Z, (0 <= n)%Z /\ (x == inject_Z n)%Q.

Section Geometry.

#[local] Open Scope Q_scope.

#[global] Instance divide_comp : Proper (Qeq ==> Qeq ==> Qeq) Host.divide.
Proof. intros x x' Ex y y' Ey. unfold Host.divide. by rewrite Ex, Ey. Qed.

#[global] Instance multiply_comp : Proper (Qeq ==> Qeq ==> Qeq) Host.multiply.
Proof. intros x x' Ex y y' Ey. unfold Host.multiply. by rewrite Ex, Ey. Qed.

#[global] Instance add_comp : Proper (Qeq ==> Qeq ==> Qeq) Host.add.
Proof. intros x x' Ex y y' Ey. unfold Host.add. by rewrite Ex, Ey. Qed.

(** [n] is the ceiling of [x / h]: the least whole number of rows of height
    [h] that cover [x]. *)
Lemma ceiling_of_quotient x h :
  0 < h ->
  inject_Z (Qceiling (x / h) - 1) * h < x /\ x <= inject_Z (Qceiling (x / h)) * h.
Proof.
  intros Hh.
  assert (~ h == 0) as Hnz by (intros E; rewrite E in Hh; discriminate Hh).
  assert ((x / h) * h == x) as Hback by (rewrite Qmult_comm; by apply Qmult_div_r).
  split.
  - rewrite <- Hback at 2. apply Qmult_lt_compat_r; [done|]. apply Qceiling_lt.
  - rewrite <- Hback at 1. apply Qmult_le_compat_r; [|by apply Qlt_le_weak].
    apply Qle_ceiling.
Qed.

Lemma quotient_nonnegative x h : 0 < h -> 0 <= x -> 0 <= x / h.
Proof. intros Hh Hx. apply Qle_shift_div_l; [exact Hh|]. lra. Qed.

(** The ceiling of a rounded number is the ceiling of the number, or one
    less when the number rounds down to a whole number. *)
Lemma ceiling_rounded x :
  0 <= x -> x < inject_Z (2 ^ 53) ->
  (Qceiling x - 1 <= Qceiling (Host.round64 x) <= Qceiling x)%Z.
Proof.
  intros H0 Hx.
  assert (Qabs x < inject_Z (2 ^ 53)) as Habs by (by rewrite (Qabs_pos x H0)).
  split.
  - rewrite <- (Qceiling_Z (Qceiling x - 1)). apply Qceiling_resp_le.
    apply round64_ge_Z; [exact Habs|]. apply Qlt_le_weak, Qceiling_lt.
  - rewrite <- (Qceiling_Z (Qceiling x)). apply Qceiling_resp_le.
    apply round64_le_Z; [exact Habs|]. apply Qle_ceiling.
Qed.

Lemma ceiling_nonnegative x h : 0 < h -> 0 <= x -> (0 <= Qceiling (Host.divide x h))%Z.
Proof.
  intros Hh Hx. change 0%Z with (Qceiling 0). apply Qceiling_resp_le.
  apply round64_nonneg. by apply quotient_nonnegative.
Qed.

(** The sum of whole widths is exact as long as it stays below [2 ^ 53]. *)
Lemma sumWidths_from acc columns :
  whole acc ->
  Forall (fun c => whole (GridColumn.width c)) columns ->
  acc + totalWidth columns < inject_Z (2 ^ 53) ->
  fold_left (fun sum x => Host.add sum (GridColumn.width x)) columns acc ==
    acc + totalWidth columns.
Proof.
  intros Hacc Hall. revert acc Hacc.
  induction Hall as [|c columns (n & Hn & Hc) Hall IH]; intros acc (a & Ha & Hacc) Hsum;
    simpl.
  - unfold totalWidth. simpl. ring.
  - assert (0 <= totalWidth columns) as Hrest.
    { clear -Hall. induction Hall as [|c' columns (m & Hm & Hc') _ IH];
        unfold totalWidth in *; simpl; [lra|].
      rewrite Hc'. rewrite Zle_Qle in Hm. change (inject_Z 0) with 0 in Hm. lra. }
    unfold totalWidth in Hsum |- *. simpl in Hsum |- *.
    fold (totalWidth columns) in Hsum |- *.
    assert (Host.add acc (GridColumn.width c) == inject_Z (a + n)) as Hstep.
    { assert (inject_Z (a + n) < inject_Z (2 ^ 53)) as Hlt
        by (rewrite inject_Z_plus; lra).
      unfold Host.add. rewrite Hacc, Hc, <- inject_Z_plus. apply round64_Z.
      rewrite <- Zlt_Qlt in Hlt. lia. }
    rewrite IH.
    + rewrite Hstep, inject_Z_plus, Hacc, Hc. ring.
    + exists (a + n)%Z. split; [lia|exact Hstep].
    + rewrite Hstep, inject_Z_plus. rewrite Hacc, Hc in Hsum. lra.
Qed.

Lemma sumWidths_total columns :
  Forall (fun c => whole (GridColumn.width c)) columns ->
  totalWidth columns < inject_Z (2 ^ 53) ->
  sumWidths columns == totalWidth columns.
Proof.
  intros Hall Hsum. unfold sumWidths. rewrite sumWidths_from; [ring|..|lra]; [|done].
  exists 0%Z. split; [lia|reflexivity].
Qed.

(** So is the height of a whole number of rows of a whole height. *)
Lemma multiply_whole (n : nat) h :
  whole h -> inject_Z (Z.of_nat n) * h < inject_Z (2 ^ 53) ->
  Host.multiply (inject_Z (Z.of_nat n)) h == inject_Z (Z.of_nat n) * h.
Proof.
  intros (m & Hm & Hh) Hlt. unfold Host.multiply.
  rewrite Hh, <- inject_Z_mult in Hlt |- *. apply round64_Z.
  rewrite <- Zlt_Qlt in Hlt. lia.
Qed.

Lemma Qne_false a b : Qne a b = false -> a == b.
Proof. unfold Qne. intros H. apply Qeq_bool_iff. by destruct (Qeq_bool a b). Qed.

End Geometry.

(** The window [recomputeVisibleArea] computes from what it reads, its test
    of whether anything changed, and the scroll area it leaves. *)
Definition computedView (settings : Settings) (layout : Layout) (rowCount : nat) :
    Viewport :=
  let rowHeight := Settings.rowHeight settings in
  let count := Qceiling (Host.divide (Layout.clientHeight layout) rowHeight) in
  let first := Qceiling (Host.divide (Layout.scrollTop layout) rowHeight) in
  Viewport.mk (Layout.clientHeight layout) count first (first + count - 1)
    (sumWidths (Settings.columns settings))
    (Host.multiply (inject_Z (Z.of_nat rowCount)) rowHeight).

Definition viewDiffers (new old : Viewport) : bool :=
  (Qne (Viewport.gridHeight new) (Viewport.gridHeight old)
   || negb (Viewport.visibleRowCount new =? Viewport.visibleRowCount old)
   || negb (Viewport.firstVisibleRowIndex new =? Viewport.firstVisibleRowIndex old)
   || negb (Viewport.lastVisibleRowIndex new =? Viewport.lastVisibleRowIndex old)
   || Qne (Viewport.totalColumnWidth new) (Viewport.totalColumnWidth old)
   || Qne (Viewport.totalRowHeight new) (Viewport.totalRowHeight old))%bool.

Definition resizedContainers (scrollLeft : Q) (new old : Viewport) (c : Containers) :
    Containers :=
  Containers.mk scrollLeft scrollLeft
    (if Qne (Viewport.totalColumnWidth new) (Viewport.totalColumnWidth old)
     then Some (Viewport.totalColumnWidth new)
     else Containers.scrollAreaWidth c)
    (if Qne (Viewport.totalRowHeight new) (Viewport.totalRowHeight old)
     then Some (Viewport.totalRowHeight new)
     else Containers.scrollAreaHeight c).

Section Window.

Variable settings : Settings.

Lemma recompute_result layout w rs :
  lookupRows (store w) (Grid.rows (grid w)) = Some rs ->
  let new := computedView settings layout (length rs) in
  let old := Grid.view (grid w) in
  recomputeVisibleArea settings layout w =
    if viewDiffers new old
    then Return true
           (mkWorld
              (Grid.with_containers
                 (resizedContainers (Layout.scrollLeft layout) new old
                    (Grid.containers (grid w)))
                 (Grid.with_scrolled
                    (if (negb (Viewport.firstVisibleRowIndex new =?
                               Viewport.firstVisibleRowIndex old)
                         && Settings.onScroll settings)%bool
                     then Layout.scrollTop layout :: Grid.scrolled (grid w)
                     else Grid.scrolled (grid w))
                    (Grid.with_view new (grid w))))
              (store w))
    else Return false
           (mkWorld
              (Grid.with_containers
                 (Containers.with_scrollLeft (Layout.scrollLeft layout)
                    (Grid.containers (grid w)))
                 (grid w))
              (store w)).
Proof.
  intros Hrows. unfold recomputeVisibleArea.
  rewrite (bind_run _ _ w (grid w) w) by done.
  rewrite (bind_run _ _ w tt
             (mkWorld
                (Grid.with_containers
                   (Containers.with_scrollLeft (Layout.scrollLeft layout)
                      (Grid.containers (grid w)))
                   (grid w))
                (store w))) by done.
  erewrite bind_run; [|by apply load_run].
  cbv zeta. unfold viewDiffers, computedView, resizedContainers. simpl.
  match goal with |- context [if ?c then _ else _] => destruct c end; reflexivity.
Qed.

Lemma viewDiffers_same v : viewDiffers v v = false.
Proof.
  unfold viewDiffers, Qne. by rewrite !Qeq_bool_refl, !Z.eqb_refl.
Qed.

(** Whether or not it reports a change, [recomputeVisibleArea] leaves the
    window it computed, touches neither the store nor the rows nor the
    order, and has moved the two containers. *)
Lemma recompute_view layout w rs :
  lookupRows (store w) (Grid.rows (grid w)) = Some rs ->
  exists changed w',
    recomputeVisibleArea settings layout w = Return changed w' /\
    store w' = store w /\
    Grid.rows (grid w') = Grid.rows (grid w) /\
    Grid.sortOrder (grid w') = Grid.sortOrder (grid w) /\
    Viewport.visibleRowCount (Grid.view (grid w')) =
      Qceiling (Host.divide (Layout.clientHeight layout) (Settings.rowHeight settings)) /\
    Viewport.firstVisibleRowIndex (Grid.view (grid w')) =
      Qceiling (Host.divide (Layout.scrollTop layout) (Settings.rowHeight settings)) /\
    Viewport.lastVisibleRowIndex (Grid.view (grid w')) =
      Viewport.firstVisibleRowIndex (Grid.view (grid w')) +
      Viewport.visibleRowCount (Grid.view (grid w')) - 1 /\
    (Viewport.gridHeight (Grid.view (grid w')) == Layout.clientHeight layout)%Q /\
    (Viewport.totalColumnWidth (Grid.view (grid w')) ==
       sumWidths (Settings.columns settings))%Q /\
    (Viewport.totalRowHeight (Grid.view (grid w')) ==
       Host.multiply (inject_Z (Z.of_nat (length rs))) (Settings.rowHeight settings))%Q /\
    Containers.rowContainerScrollLeft (Grid.containers (grid w')) =
      Layout.scrollLeft layout /\
    Containers.columnHeaderContainerScrollLeft (Grid.containers (grid w')) =
      Layout.scrollLeft layout.
Proof.
  intros Hrows.
  rewrite (recompute_result layout w rs Hrows). cbv zeta.
  destruct (viewDiffers _ _) eqn:Hdiff.
  - eexists _, _. split; [reflexivity|]. by simpl.
  - eexists _, _. split; [reflexivity|].
    unfold viewDiffers in Hdiff.
    repeat (apply orb_false_elim in Hdiff as [Hdiff ?]).
    repeat match goal with
    | H : negb (_ =? _)%Z = false |- _ => apply negb_false_iff, Z.eqb_eq in H
    | H : Qne _ _ = false |- _ => apply Qne_false in H
    end.
    simpl in *. repeat split; try done; try lia; by symmetry.
Qed.

#[local] Open Scope Q_scope.

(** C1: whatever window the grid held before, after [recomputeVisibleArea]
    the visible row count is the ceiling of [clientHeight / rowHeight], the
    first visible index is the ceiling of [scrollTop / rowHeight], the last
    visible index is the first plus the count minus one, the total column
    width is the sum of the widths and the total height is the row count
    times the row height, each as the host computes it: the quotients, the
    product and the sum rounded to a double.  Against the exact quotient a
    computed ceiling is the ceiling or one less, and it is the least number
    of rows that cover the height when the quotient is a double; the sum and
    the product are exact for whole numbers of pixels.  With a row height of
    20 and a scroll offset of 1 the first index is 1.  The windows are those
    of fewer than [2 ^ 52] rows, where doubles hold every index. *)
Theorem visible_area (layout : Layout) (w : World) (rs : list Row) :
  0 < Settings.rowHeight settings ->
  0 <= Layout.clientHeight layout ->
  0 <= Layout.scrollTop layout ->
  Layout.clientHeight layout / Settings.rowHeight settings < inject_Z (2 ^ 52) ->
  Layout.scrollTop layout / Settings.rowHeight settings < inject_Z (2 ^ 52) ->
  lookupRows (store w) (Grid.rows (grid w)) = Some rs ->
  exists changed w',
    recomputeVisibleArea settings layout w = Return changed w' /\
    let v := Grid.view (grid w') in
    let rowHeight := Settings.rowHeight settings in
    let clientHeight := Layout.clientHeight layout in
    let scrollTop := Layout.scrollTop layout in
    let rowCount := inject_Z (Z.of_nat (length rs)) in
    let count := Viewport.visibleRowCount v in
    let first := Viewport.firstVisibleRowIndex v in
    let last := Viewport.lastVisibleRowIndex v in
    count = Qceiling (Host.divide clientHeight rowHeight) /\
    first = Qceiling (Host.divide scrollTop rowHeight) /\
    (last = first + count - 1)%Z /\
    (last - first + 1 = count)%Z /\
    Viewport.gridHeight v == clientHeight /\
    Viewport.totalColumnWidth v == sumWidths (Settings.columns settings) /\
    Viewport.totalRowHeight v == Host.multiply rowCount rowHeight /\
    (Qceiling (clientHeight / rowHeight) - 1 <= count)%Z /\
    (count <= Qceiling (clientHeight / rowHeight))%Z /\
    (Qceiling (scrollTop / rowHeight) - 1 <= first)%Z /\
    (first <= Qceiling (scrollTop / rowHeight))%Z /\
    (Host.divide clientHeight rowHeight == clientHeight / rowHeight ->
     inject_Z (count - 1) * rowHeight < clientHeight /\
     clientHeight <= inject_Z count * rowHeight) /\
    (Host.divide scrollTop rowHeight == scrollTop / rowHeight ->
     inject_Z (first - 1) * rowHeight < scrollTop /\
     scrollTop <= inject_Z first * rowHeight) /\
    (Forall (fun c => whole (GridColumn.width c)) (Settings.columns settings) ->
     totalWidth (Settings.columns settings) < inject_Z (2 ^ 53) ->
     Viewport.totalColumnWidth v == totalWidth (Settings.columns settings)) /\
    (whole rowHeight -> rowCount * rowHeight < inject_Z (2 ^ 53) ->
     Viewport.totalRowHeight v == rowCount * rowHeight) /\
    (rowHeight == 20 -> scrollTop == 1 -> first = 1%Z).
Proof.
  intros Hh Hc Hs Hcrange Hsrange Hrows.
  destruct (recompute_view layout w rs Hrows)
    as (changed & w' & Hrun & _ & _ & _ & Hcount & Hfirst & Hlast & Hheight & Hwidth &
        Htotal & _).
  assert (forall x, 0 <= x -> x / Settings.rowHeight settings < inject_Z (2 ^ 52) ->
    (Qceiling (x / Settings.rowHeight settings) - 1 <=
       Qceiling (Host.divide x (Settings.rowHeight settings)) <=
       Qceiling (x / Settings.rowHeight settings))%Z) as Hbounds.
  { intros x Hx Hrange. apply ceiling_rounded; [by apply quotient_nonnegative|].
    eapply Qlt_trans; [exact Hrange|]. by rewrite <- Zlt_Qlt. }
  exists changed, w'. split; [exact Hrun|]. cbv zeta.
  rewrite Hlast, Hcount, Hfirst.
  split; [done|]. split; [done|]. split; [done|]. split; [lia|].
  split; [done|]. split; [done|]. split; [done|].
  split; [by apply Hbounds|]. split; [by apply Hbounds|].
  split; [by apply Hbounds|]. split; [by apply Hbounds|].
  split; [intros ->; by apply ceiling_of_quotient|].
  split; [intros ->; by apply ceiling_of_quotient|].
  split; [intros Hwhole Hrange; rewrite Hwidth; by apply sumWidths_total|].
  split; [intros Hwhole Hrange; rewrite Htotal; by apply multiply_whole|].
  intros -> ->. reflexivity.
Qed.

End Window.

(** ** A click on a column header *)

(** The objects [es] hold the contents [order] in the store [h]. *)
Definition holds (h : heap) (es : list loc) (order : TableSortOrder) : Prop :=
  Forall2 (fun e c => lookupEntry h e = Some c) es order.

Lemma lookupOrder_holds h l order :
  lookupOrder h l = Some order <->
  exists es, lookupEntries h l = Some es /\ holds h es order.
Proof.
  unfold lookupOrder, holds. split.
  - intros H. destruct (lookupEntries h l) as [es|]; [|done].
    exists es. split; [done|]. by apply mapM_Some.
  - intros (es & -> & H). by apply mapM_Some.
Qed.

Lemma holds_weaken h h' es order : h ⊆ h' -> holds h es order -> holds h' es order.
Proof.
  intros Hsub H. eapply Forall2_impl; [exact H|].
  intros e c. by apply lookupEntry_weaken.
Qed.

Lemma unused_weaken (h h' : heap) l : h ⊆ h' -> h' !! l = None -> h !! l = None.
Proof.
  intros Hsub Hl. destruct (h !! l) as [c|] eqn:E; [|done].
  by rewrite (lookup_weaken _ _ _ _ E Hsub) in Hl.
Qed.

(** The copies made by [JSON.parse]: new objects with the old contents. *)
Lemma copies_run es order w :
  holds (store w) es order ->
  exists es' w',
    mapM (fun e => c ← load lookupEntry e; alloc (OrderEntry c)) es w = Return es' w' /\
    grid w' = grid w /\
    store w ⊆ store w' /\
    holds (store w') es' order /\
    Forall (fun e => store w !! e = None) es'.
Proof.
  intros H. revert w H.
  induction es as [|e es IH] in order |- *; intros w H.
  - apply Forall2_nil_inv_l in H as ->. exists [], w.
    split; [done|]. split; [done|]. split; [done|]. split; constructor.
  - apply Forall2_cons_inv_l in H as (c & order' & Hc & H & ->).
    set (w1 := mkWorld (grid w) (<[fresh (dom (store w)) := OrderEntry c]> (store w))).
    assert (store w ⊆ store w1) as Hsub by apply alloc_extends.
    destruct (IH order' w1 (holds_weaken _ _ _ _ Hsub H))
      as (es' & w' & Hrun & Hgrid & Hsub' & Hholds & Hnew).
    exists (fresh (dom (store w)) :: es'), w'.
    split; [|split; [|split; [|split]]].
    + change (mapM ?f (e :: es)) with (y ← f e; k ← mapM f es; mret (y :: k)).
      rewrite (bind_run _ _ w (fresh (dom (store w))) w1).
      * by rewrite (bind_run _ _ _ _ _ Hrun).
      * by rewrite (bind_run _ _ _ _ _ (load_run _ _ _ _ Hc)).
    + done.
    + by etrans.
    + constructor; [|done].
      apply (lookupEntry_weaken (store w1)); [done|].
      unfold lookupEntry. simpl. by rewrite lookup_insert_eq.
    + constructor; [apply fresh_unused|].
      eapply Forall_impl; [exact Hnew|]. intros l. by apply unused_weaken.
Qed.

Lemma JSON_copy_run l order w :
  lookupOrder (store w) l = Some order ->
  exists l' es' w',
    JSON_copy l w = Return l' w' /\
    grid w' = grid w /\
    store w ⊆ store w' /\
    lookupEntries (store w') l' = Some es' /\
    holds (store w') es' order /\
    store w !! l' = None /\
    Forall (fun e => store w !! e = None) es'.
Proof.
  intros H. apply lookupOrder_holds in H as (es & Hes & H).
  destruct (copies_run _ _ _ H) as (es' & w1 & Hrun & Hgrid & Hsub & Hholds & Hnew).
  exists (fresh (dom (store w1))), es',
    (mkWorld (grid w1) (<[fresh (dom (store w1)) := OrderArray es']> (store w1))).
  assert (store w1 ⊆ <[fresh (dom (store w1)) := OrderArray es']> (store w1)) as Hsub'
    by apply alloc_extends.
  split; [|split; [|split; [|split; [|split; [|split]]]]]; simpl.
  - unfold JSON_copy.
    rewrite (bind_run _ _ _ _ _ (load_run _ _ _ _ Hes)).
    by rewrite (bind_run _ _ _ _ _ Hrun).
  - done.
  - by etrans.
  - unfold lookupEntries. by rewrite lookup_insert_eq.
  - by apply (holds_weaken (store w1)).
  - apply (unused_weaken _ (store w1)); [done|apply fresh_unused].
  - done.
Qed.

Lemma findEntry_run columnKey es order w :
  holds (store w) es order ->
  exists found,
    findEntry columnKey es w = Return found w /\
    match found with
    | Some e =>
        e ∈ es /\
        exists c, lookupEntry (store w) e = Some c /\
                  FieldSortOrder.key c = columnKey /\
                  FieldSortOrder.order c = currentState columnKey order
    | None => currentState columnKey order = None
    end.
Proof.
  unfold currentState.
  induction 1 as [|e c es order Hc _ IH]; simpl.
  - by exists None.
  - rewrite (bind_run _ _ _ _ _ (load_run _ _ _ _ Hc)).
    destruct (String.eqb (FieldSortOrder.key c) columnKey) eqn:Hkey.
    + exists (Some e). split; [done|]. split; [apply list_elem_of_here|].
      exists c. by apply String.eqb_eq in Hkey.
    + destruct IH as (found & Hrun & Hfound). exists found. split; [done|].
      destruct found; [|done].
      destruct Hfound as [Hin Hfound]. split; [by apply list_elem_of_further|done].
Qed.

Lemma filterEntries_run columnKey es order w :
  holds (store w) es order ->
  exists kept,
    filterEntries columnKey es w = Return kept w /\
    holds (store w) kept (otherColumns columnKey order).
Proof.
  unfold holds, otherColumns.
  induction 1 as [|e c es order Hc _ (kept & Hrun & IH)]; simpl.
  - by exists [].
  - rewrite (bind_run _ _ _ _ _ (load_run _ _ _ _ Hc)).
    rewrite (bind_run _ _ _ _ _ Hrun).
    destruct (String.eqb (FieldSortOrder.key c) columnKey); simpl.
    + by exists kept.
    + exists (e :: kept). split; [done|]. by constructor.
Qed.

Lemma otherColumns_keys columnKey order :
  Forall (fun c => FieldSortOrder.key c <> columnKey) (otherColumns columnKey order).
Proof.
  unfold otherColumns. induction order as [|c order IH]; simpl; [constructor|].
  destruct (String.eqb (FieldSortOrder.key c) columnKey) eqn:Hkey; simpl; [done|].
  constructor; [|done]. by apply String.eqb_neq.
Qed.

(** Writing the clicked column's object leaves the other columns' objects
    as they are. *)
Lemma holds_assign_other (h : heap) entry c0 c' kept order :
  lookupEntry h entry = Some c0 ->
  Forall (fun c => FieldSortOrder.key c <> FieldSortOrder.key c0) order ->
  holds h kept order ->
  holds (<[entry := OrderEntry c']> h) kept order.
Proof.
  intros Hentry Hkeys H. revert Hkeys.
  induction H as [|e c kept order Hc _ IH]; intros Hkeys; [constructor|].
  apply Forall_cons in Hkeys as [Hkey Hkeys].
  constructor; [|by apply IH].
  unfold lookupEntry. rewrite lookup_insert_ne; [exact Hc|].
  intros <-. rewrite Hentry in Hc. by injection Hc as <-.
Qed.

Lemma holds_app h es1 o1 es2 o2 :
  holds h es1 o1 -> holds h es2 o2 -> holds h (es1 ++ es2) (o1 ++ o2).
Proof. apply Forall2_app. Qed.

Section ClickRuns.

Variable StringToNumber : string -> Number.
Variable settings : Settings.
Variable layout : Layout.

Lemma recomputeVisibleArea_run w rs :
  lookupRows (store w) (Grid.rows (grid w)) = Some rs ->
  exists changed w',
    recomputeVisibleArea settings layout w = Return changed w' /\
    store w' = store w /\
    Grid.rows (grid w') = Grid.rows (grid w) /\
    Grid.sortOrder (grid w') = Grid.sortOrder (grid w).
Proof.
  intros Hrows.
  destruct (recompute_view settings layout w rs Hrows)
    as (changed & w' & Hrun & Hstore & Hr & Hso & _).
  by exists changed, w'.
Qed.

Lemma updateRows_run force w rs :
  lookupRows (store w) (Grid.rows (grid w)) = Some rs ->
  exists w',
    updateRows settings layout force w = Return tt w' /\
    store w' = store w /\
    Grid.rows (grid w') = Grid.rows (grid w) /\
    Grid.sortOrder (grid w') = Grid.sortOrder (grid w).
Proof.
  intros Hrows.
  destruct (recomputeVisibleArea_run _ _ Hrows) as (changed & w' & Hrun & Hw').
  exists w'. split; [|done].
  unfold updateRows. by rewrite (bind_run _ _ _ _ _ Hrun).
Qed.

(** After the new order is in place: the [onSort] hook, then, unless it
    prevented the default, the sort of the rows and the refresh. *)
Lemma after_order_run w n rs so dso :
  Grid.sortOrder (grid w) = n ->
  lookupRows (store w) (Grid.rows (grid w)) = Some rs ->
  lookupOrder (store w) n = Some so ->
  lookupDefault (store w) (Settings.defaultSortOrder settings) = Some dso ->
  exists w',
    (handled ← match Settings.onSort settings with
               | Some hook => o ← load lookupOrder n; mret (hook o)
               | None => mret false
               end;
     if handled : bool then mret tt
     else _ ← sortRows StringToNumber settings; updateRows settings layout true) w =
      Return tt w' /\
    store w ⊆ store w' /\
    Grid.sortOrder (grid w') = n.
Proof.
  intros Hn Hrows Horder Hdefault.
  assert (exists w',
    (_ ← sortRows StringToNumber settings; updateRows settings layout true) w =
      Return tt w' /\ store w ⊆ store w' /\ Grid.sortOrder (grid w') = n)
    as (ws & Hsorted & Hsub & Hns).
  { rewrite <- Hn in Horder.
    pose proof (sortRows_run StringToNumber settings w rs so dso Hrows Horder Hdefault)
      as Hrun.
    destruct (updateRows_run true
      (mkWorld (Grid.with_rows (fresh (dom (store w))) (grid w))
         (<[fresh (dom (store w)) :=
              RowArray (sorted StringToNumber (Settings.columns settings) so dso rs)]>
            (store w)))
      (sorted StringToNumber (Settings.columns settings) so dso rs))
      as (w' & Hup & Hstore & _ & Hso).
    { simpl. unfold lookupRows. by rewrite lookup_insert_eq. }
    exists w'. split; [by rewrite (bind_run _ _ _ _ _ Hrun)|].
    split; [rewrite Hstore; apply alloc_extends|].
    by rewrite Hso. }
  destruct (Settings.onSort settings) as [hook|].
  - rewrite (bind_run _ _ w (hook so) w)
      by (by rewrite (bind_run _ _ _ _ _ (load_run _ _ _ _ Horder))).
    destruct (hook so); [|by exists ws].
    by exists w.
  - rewrite (bind_run _ _ w false w) by done. by exists ws.
Qed.

End ClickRuns.

Lemma holds_assign_array (h : heap) n es0 es' es order :
  lookupEntries h n = Some es0 ->
  holds h es order ->
  holds (<[n := OrderArray es']> h) es order.
Proof.
  intros Hn H. eapply Forall2_impl; [exact H|].
  intros e c Hc. unfold lookupEntry. rewrite lookup_insert_ne; [exact Hc|].
  intros <-. unfold lookupEntries, lookupEntry in *.
  by destruct (h !! n) as [[]|].
Qed.

(** Whether the click replaces the order: neither Ctrl nor Shift is held. *)
Definition isPlain (e : MouseEvent) : bool :=
  (negb (MouseEvent.ctrlKey e) && negb (MouseEvent.shiftKey e))%bool.

(** The contents of the order after a click, in the specification's words. *)
Definition orderAfter (settings : Settings) (e : MouseEvent) (columnKey : string)
    (order : TableSortOrder) : TableSortOrder :=
  (if isPlain e then [] else otherColumns columnKey order) ++
  clickedTail columnKey (cycleColumnSortOrder settings (currentState columnKey order)).

Section ClickResult.

Variable StringToNumber : string -> Number.
Variable settings : Settings.
Variable layout : Layout.

Lemma click_prefix_run w e columnKey order :
  MouseEvent.datasetKey e = Some columnKey ->
  columnKey <> "" ->
  lookupOrder (store w) (Grid.sortOrder (grid w)) = Some order ->
  exists w6,
    onColumnHeaderClick StringToNumber settings layout e w =
      (handled ← match Settings.onSort settings with
                 | Some hook =>
                     o ← load lookupOrder (Grid.sortOrder (grid w6)); mret (hook o)
                 | None => mret false
                 end;
       if handled : bool then mret tt
       else _ ← sortRows StringToNumber settings; updateRows settings layout true) w6 /\
    grid w6 = Grid.with_sortOrder (Grid.sortOrder (grid w6)) (grid w) /\
    store w ⊆ store w6 /\
    store w !! Grid.sortOrder (grid w6) = None /\
    lookupOrder (store w6) (Grid.sortOrder (grid w6)) =
      Some (orderAfter settings e columnKey order).
Proof.
  intros Hkey Hnonempty Horder.
  unfold onColumnHeaderClick, orderAfter. rewrite Hkey.
  apply String.eqb_neq in Hnonempty. rewrite Hnonempty.
  rewrite (bind_run _ _ w (grid w) w) by done.
  (* the copy *)
  destruct (JSON_copy_run _ _ _ Horder)
    as (l1 & es1 & w1 & Hcopy & Hg1 & Hsub1 & Hes1 & Hholds1 & _ & Hnew1).
  rewrite (bind_run _ _ _ _ _ Hcopy).
  rewrite (bind_run _ _ _ _ _ (load_run _ _ _ _ Hes1)).
  (* the clicked column's object *)
  destruct (findEntry_run columnKey es1 order w1 Hholds1) as (found & Hfind & Hfound).
  rewrite (bind_run _ _ _ _ _ Hfind).
  assert (exists entry w2 c0,
    match found with
    | Some entry => mret entry
    | None => alloc (OrderEntry (FieldSortOrder.mk columnKey None))
    end w1 = Return entry w2 /\
    grid w2 = grid w1 /\ store w1 ⊆ store w2 /\
    lookupEntry (store w2) entry = Some c0 /\
    FieldSortOrder.key c0 = columnKey /\
    FieldSortOrder.order c0 = currentState columnKey order /\
    store w !! entry = None)
    as (entry & w2 & c0 & Hentry & Hg2 & Hsub2 & Hc0 & Hkey0 & Hstate0 & Hnew_entry).
  { destruct found as [e'|].
    - destruct Hfound as (Hin & c & Hc & Hk & Ho).
      exists e', w1, c. repeat split; try done.
      by apply (proj1 (Forall_forall _ _) Hnew1).
    - exists (fresh (dom (store w1))),
        (mkWorld (grid w1)
           (<[fresh (dom (store w1)) := OrderEntry (FieldSortOrder.mk columnKey None)]>
              (store w1))),
        (FieldSortOrder.mk columnKey None).
      repeat split; try done; simpl.
      + apply alloc_extends.
      + unfold lookupEntry. by rewrite lookup_insert_eq.
      + apply (unused_weaken _ (store w1)); [done|apply fresh_unused]. }
  rewrite (bind_run _ _ _ _ _ Hentry).
  (* the array of the new order *)
  fold (isPlain e).
  set (base := if isPlain e then [] else otherColumns columnKey order).
  assert (exists n kept w3,
    (if isPlain e then alloc (OrderArray [])
     else kept ← filterEntries columnKey es1; alloc (OrderArray kept)) w2 =
      Return n w3 /\
    grid w3 = grid w2 /\ store w2 ⊆ store w3 /\
    lookupEntries (store w3) n = Some kept /\
    holds (store w3) kept base /\
    store w2 !! n = None)
    as (n & kept & w3 & Hnew & Hg3 & Hsub3 & Hn3 & Hkept3 & Hnew_n).
  { subst base. destruct (isPlain e).
    - exists (fresh (dom (store w2))), [],
        (mkWorld (grid w2) (<[fresh (dom (store w2)) := OrderArray []]> (store w2))).
      repeat split; try done; simpl.
      + apply alloc_extends.
      + unfold lookupEntries. by rewrite lookup_insert_eq.
      + constructor.
      + apply fresh_unused.
    - destruct (filterEntries_run columnKey es1 order w2
        (holds_weaken _ _ _ _ Hsub2 Hholds1)) as (kept & Hrun & Hkept).
      exists (fresh (dom (store w2))), kept,
        (mkWorld (grid w2) (<[fresh (dom (store w2)) := OrderArray kept]> (store w2))).
      repeat split; try done; simpl.
      + by rewrite (bind_run _ _ _ _ _ Hrun).
      + apply alloc_extends.
      + unfold lookupEntries. by rewrite lookup_insert_eq.
      + apply (holds_weaken (store w2)); [apply alloc_extends|done].
      + apply fresh_unused. }
  rewrite (bind_run _ _ _ _ _ Hnew).
  (* the advanced state is written into the object *)
  pose proof (lookupEntry_weaken _ _ _ _ Hsub3 Hc0) as Hc3.
  rewrite (bind_run _ _ _ _ _ (load_run _ _ _ _ Hc3)).
  rewrite Hkey0, Hstate0.
  set (advanced := cycleColumnSortOrder settings (currentState columnKey order)).
  set (w4 := mkWorld (grid w3)
    (<[entry := OrderEntry (FieldSortOrder.mk columnKey advanced)]> (store w3))).
  rewrite (bind_run _ _ w3 tt w4) by done.
  assert (n <> entry) as Hne.
  { intros ->. unfold lookupEntry in Hc0. by rewrite Hnew_n in Hc0. }
  assert (store w ⊆ store w2) as Hsub02 by (by etrans).
  assert (store w ⊆ store w4) as Hsub4.
  { apply insert_subseteq_r; [done|]. by etrans. }
  assert (lookupEntries (store w4) n = Some kept) as Hn4.
  { unfold lookupEntries. simpl. by rewrite lookup_insert_ne. }
  assert (holds (store w4) kept base) as Hkept4.
  { apply (holds_assign_other _ _ c0); [done| |done].
    rewrite Hkey0. subst base. destruct (isPlain e); [constructor|].
    apply otherColumns_keys. }
  assert (lookupEntry (store w4) entry = Some (FieldSortOrder.mk columnKey advanced))
    as Hentry4.
  { unfold lookupEntry. simpl. by rewrite lookup_insert_eq. }
  (* the object joins the array unless its state is none *)
  assert (exists w5,
    match advanced with
    | Some _ =>
        es ← load lookupEntries n;
        assign n (OrderArray (es ++ [entry]))
    | None => mret tt
    end w4 = Return tt w5 /\
    grid w5 = grid w4 /\ store w ⊆ store w5 /\
    lookupOrder (store w5) n = Some (base ++ clickedTail columnKey advanced))
    as (w5 & Hpush & Hg5 & Hsub5 & Horder5).
  { destruct advanced as [d|] eqn:Hadv.
    - exists (mkWorld (grid w4) (<[n := OrderArray (kept ++ [entry])]> (store w4))).
      split; [by rewrite (bind_run _ _ _ _ _ (load_run _ _ _ _ Hn4))|].
      split; [done|]. simpl. split.
      + apply insert_subseteq_r; [|done].
        by apply (unused_weaken _ (store w2)).
      + apply lookupOrder_holds. exists (kept ++ [entry]). split.
        * unfold lookupEntries. by rewrite lookup_insert_eq.
        * apply (holds_assign_array _ _ kept); [done|].
          apply holds_app; [done|]. by constructor.
    - exists w4. split; [done|]. split; [done|]. split; [done|].
      simpl. rewrite app_nil_r. apply lookupOrder_holds. by exists kept. }
  rewrite (bind_run _ _ _ _ _ Hpush).
  rewrite (bind_run _ _ w5 (grid w5) w5) by done.
  set (w6 := mkWorld (Grid.with_sortOrder n (grid w5)) (store w5)).
  rewrite (bind_run _ _ w5 tt w6) by done.
  exists w6. split; [reflexivity|]. simpl.
  split; [by rewrite Hg5; simpl; rewrite Hg3, Hg2, Hg1|].
  split; [done|]. split; [by apply (unused_weaken _ (store w2))|done].
Qed.

Lemma click_run w e columnKey rs order dso :
  MouseEvent.datasetKey e = Some columnKey ->
  columnKey <> "" ->
  lookupRows (store w) (Grid.rows (grid w)) = Some rs ->
  lookupOrder (store w) (Grid.sortOrder (grid w)) = Some order ->
  lookupDefault (store w) (Settings.defaultSortOrder settings) = Some dso ->
  exists w',
    onColumnHeaderClick StringToNumber settings layout e w = Return tt w' /\
    store w ⊆ store w' /\
    store w !! Grid.sortOrder (grid w') = None /\
    lookupOrder (store w') (Grid.sortOrder (grid w')) =
      Some (orderAfter settings e columnKey order).
Proof.
  intros Hkey Hnonempty Hrows Horder Hdefault.
  destruct (click_prefix_run w e columnKey order Hkey Hnonempty Horder)
    as (w6 & -> & Hg6 & Hsub6 & Hnew6 & Horder6).
  destruct (after_order_run StringToNumber settings layout w6
              (Grid.sortOrder (grid w6)) rs (orderAfter settings e columnKey order) dso)
    as (w' & Hrun & Hsub' & Hsort'); try done.
  { rewrite Hg6. simpl. by apply (lookupRows_weaken (store w)). }
  { by apply (lookupDefault_weaken (store w)). }
  exists w'. split; [exact Hrun|]. split; [by etrans|].
  rewrite Hsort'. split; [done|].
  by apply (lookupOrder_weaken (store w6)).
Qed.

End ClickResult.

(** Observing a grid: the world after a click on the header of a column, and
    the contents of the current sort order. *)
Definition click (StringToNumber : string -> Number) (settings : Settings)
    (layout : Layout) (columnKey : string) (ctrl shift : bool) (w : World) :
    option World :=
  match onColumnHeaderClick StringToNumber settings layout
          (MouseEvent.mk (Some columnKey) ctrl shift) w with
  | Return _ w' => Some w'
  | _ => None
  end.

Definition currentOrder (w : World) : option TableSortOrder :=
  lookupOrder (store w) (Grid.sortOrder (grid w)).

(** A grid with the columns colA and colB, sorted by ascending colA. *)
Definition columnNamed (k : string) : GridColumn :=
  GridColumn.mk k (ByName k) None false 80 k.

Definition abSettings (d : option loc) : Settings :=
  Settings.mk [columnNamed "colA"; columnNamed "colB"] d None false 20.

Definition abRow (a b : Z) : Row := {[ "colA" := num a; "colB" := num b ]}.

Definition abStore : heap :=
  {[ 1%positive := RowArray [abRow 2 1; abRow 1 2; abRow 1 1];
     2%positive := OrderArray [3%positive];
     3%positive := OrderEntry (FieldSortOrder.mk "colA" (Some ascending));
     4%positive := OrderArray [] ]}.

Definition abWorld : World := mkWorld (Grid.mk 1 2 emptyView [] atRest) abStore.

Definition restLayout : Layout := Layout.mk 0 0 100.

Definition entryOf (k : string) (d : Direction) : FieldSortOrder :=
  FieldSortOrder.mk k (Some d).

Lemma clickedTail_own columnKey advanced :
  List.filter (fun c => String.eqb (FieldSortOrder.key c) columnKey)
    (clickedTail columnKey advanced) = clickedTail columnKey advanced.
Proof. destruct advanced; simpl; [|done]. by rewrite String.eqb_refl. Qed.

Lemma clickedTail_others columnKey advanced :
  otherColumns columnKey (clickedTail columnKey advanced) = [].
Proof.
  unfold otherColumns. destruct advanced; simpl; [|done]. by rewrite String.eqb_refl.
Qed.

Lemma otherColumns_own columnKey order :
  List.filter (fun c => String.eqb (FieldSortOrder.key c) columnKey)
    (otherColumns columnKey order) = [].
Proof.
  unfold otherColumns. induction order as [|c cs IH]; simpl; [done|].
  destruct (String.eqb (FieldSortOrder.key c) columnKey) eqn:Hc; simpl; [done|].
  by rewrite Hc.
Qed.

Lemma otherColumns_idem columnKey order :
  otherColumns columnKey (otherColumns columnKey order) = otherColumns columnKey order.
Proof.
  unfold otherColumns. induction order as [|c cs IH]; simpl; [done|].
  destruct (String.eqb (FieldSortOrder.key c) columnKey) eqn:Hc; simpl; [done|].
  by rewrite Hc, IH.
Qed.

Section ClickTheorems.

Variable StringToNumber : string -> Number.
Variable settings : Settings.
Variable layout : Layout.

(** C2: a click on the header of [columnKey] ends with a new order.  The
    clicked column's entry, with its state advanced, is the last entry of
    the new order, and is left out when the advanced state is none.  Without
    Ctrl and Shift nothing else is in the new order; with one of them the
    entries of the other columns are there before it, in the sequence they
    had, and no other entry of the clicked column is.  From [colA
    ascending]: a plain click on colB gives [colB ascending]; a modified
    click on colB gives [colA ascending, colB ascending]; a further modified
    click on colA gives [colB ascending, colA descending]. *)
Theorem click_order (w : World) (e : MouseEvent) (columnKey : string)
    (rs : list Row) (order : TableSortOrder) (dso : option TableSortOrder) :
  MouseEvent.datasetKey e = Some columnKey ->
  columnKey <> "" ->
  lookupRows (store w) (Grid.rows (grid w)) = Some rs ->
  lookupOrder (store w) (Grid.sortOrder (grid w)) = Some order ->
  lookupDefault (store w) (Settings.defaultSortOrder settings) = Some dso ->
  (exists w' order',
     let advanced := cycleColumnSortOrder settings (currentState columnKey order) in
     onColumnHeaderClick StringToNumber settings layout e w = Return tt w' /\
     currentOrder w' = Some order' /\
     (MouseEvent.ctrlKey e = false -> MouseEvent.shiftKey e = false ->
      order' = clickedTail columnKey advanced /\ (length order' <= 1)%nat) /\
     (MouseEvent.ctrlKey e = true \/ MouseEvent.shiftKey e = true ->
      order' = otherColumns columnKey order ++ clickedTail columnKey advanced /\
      otherColumns columnKey order' = otherColumns columnKey order) /\
     List.filter (fun c => String.eqb (FieldSortOrder.key c) columnKey) order' =
       clickedTail columnKey advanced) /\
  (w ← click noNumber (abSettings None) restLayout "colB" false false abWorld;
   currentOrder w) = Some [entryOf "colB" ascending] /\
  (w ← click noNumber (abSettings None) restLayout "colB" false true abWorld;
   currentOrder w) = Some [entryOf "colA" ascending; entryOf "colB" ascending] /\
  (w ← click noNumber (abSettings None) restLayout "colB" false true abWorld;
   w ← click noNumber (abSettings None) restLayout "colA" true false w;
   currentOrder w) = Some [entryOf "colB" ascending; entryOf "colA" descending].
Proof.
  intros Hkey Hnonempty Hrows Horder Hdefault.
  split; [|by vm_compute].
  destruct (click_run StringToNumber settings layout w e columnKey rs order dso)
    as (w' & Hrun & _ & _ & Horder'); try done.
  exists w', (orderAfter settings e columnKey order).
  split; [done|]. split; [done|].
  unfold orderAfter, isPlain.
  set (advanced := cycleColumnSortOrder settings (currentState columnKey order)).
  pose proof (clickedTail_own columnKey advanced) as Htail.
  pose proof (clickedTail_others columnKey advanced) as Htail'.
  pose proof (otherColumns_own columnKey order) as Hothers.
  pose proof (otherColumns_idem columnKey order) as Hidem.
  split; [|split].
  - intros -> ->. simpl. split; [done|]. destruct advanced; simpl; lia.
  - intros Hmod.
    assert ((negb (MouseEvent.ctrlKey e) && negb (MouseEvent.shiftKey e))%bool = false)
      as -> by (destruct Hmod as [-> | ->]; [done|apply andb_false_r]).
    split; [done|].
    unfold otherColumns at 1. rewrite List.filter_app.
    fold (otherColumns columnKey (otherColumns columnKey order)).
    fold (otherColumns columnKey (clickedTail columnKey advanced)).
    by rewrite Hidem, Htail', app_nil_r.
  - rewrite List.filter_app, Htail.
    destruct (negb (MouseEvent.ctrlKey e) && negb (MouseEvent.shiftKey e))%bool;
      [done|by rewrite Hothers].
Qed.

(** C9: the click writes into no array and no object that existed before
    it.  The array that was the sort order holds the same objects, they hold
    the same key and order, and the new order is another array. *)
Theorem click_leaves_previous_order (w : World) (e : MouseEvent)
    (columnKey : string) (rs : list Row) (order : TableSortOrder)
    (dso : option TableSortOrder) :
  MouseEvent.datasetKey e = Some columnKey ->
  columnKey <> "" ->
  lookupRows (store w) (Grid.rows (grid w)) = Some rs ->
  lookupOrder (store w) (Grid.sortOrder (grid w)) = Some order ->
  lookupDefault (store w) (Settings.defaultSortOrder settings) = Some dso ->
  exists w',
    onColumnHeaderClick StringToNumber settings layout e w = Return tt w' /\
    (forall l c, store w !! l = Some c -> store w' !! l = Some c) /\
    lookupEntries (store w') (Grid.sortOrder (grid w)) =
      lookupEntries (store w) (Grid.sortOrder (grid w)) /\
    lookupOrder (store w') (Grid.sortOrder (grid w)) = Some order /\
    store w !! Grid.sortOrder (grid w') = None.
Proof.
  intros Hkey Hnonempty Hrows Horder Hdefault.
  destruct (click_run StringToNumber settings layout w e columnKey rs order dso)
    as (w' & Hrun & Hsub & Hnew & _); try done.
  exists w'. split; [done|].
  split; [intros l c Hl; by apply (lookup_weaken _ _ _ _ Hl)|].
  split; [|split; [by apply (lookupOrder_weaken (store w))|done]].
  apply lookupOrder_holds in Horder as (es & Hes & _).
  rewrite Hes. by apply (lookupEntries_weaken (store w)).
Qed.

End ClickTheorems.

(** ** The properties on sample grids *)

(** Four plain clicks on colA, from an empty order, in a grid that has a
    default order: ascending, descending, nothing, ascending again. *)
Definition emptyOrderWorld : World := mkWorld (Grid.mk 1 4 emptyView [] atRest) abStore.

Definition clickA (d : option loc) (w : World) : option World :=
  click noNumber (abSettings d) restLayout "colA" false false w.

Lemma four_clicks_with_default :
  currentOrder emptyOrderWorld = Some [] /\
  (w ← clickA (Some 4%positive) emptyOrderWorld; currentOrder w) =
    Some [entryOf "colA" ascending] /\
  (w ← clickA (Some 4%positive) emptyOrderWorld; w ← clickA (Some 4%positive) w;
   currentOrder w) = Some [entryOf "colA" descending] /\
  (w ← clickA (Some 4%positive) emptyOrderWorld; w ← clickA (Some 4%positive) w;
   w ← clickA (Some 4%positive) w; currentOrder w) = Some [] /\
  (w ← clickA (Some 4%positive) emptyOrderWorld; w ← clickA (Some 4%positive) w;
   w ← clickA (Some 4%positive) w; w ← clickA (Some 4%positive) w;
   currentOrder w) = Some [entryOf "colA" ascending].
Proof. repeat split; vm_compute; reflexivity. Qed.

Lemma three_clicks_without_default :
  (w ← clickA None emptyOrderWorld; w ← clickA None w; w ← clickA None w;
   currentOrder w) = Some [entryOf "colA" ascending].
Proof. vm_compute. reflexivity. Qed.

(** A header without a key: the handler throws. *)
Lemma click_without_key :
  onColumnHeaderClick noNumber (abSettings None) restLayout
    (MouseEvent.mk (Some "") false false) abWorld =
    Throw "Grid column header element has no key." /\
  onColumnHeaderClick noNumber (abSettings None) restLayout
    (MouseEvent.mk None false false) abWorld =
    Throw "Grid column header element has no key.".
Proof. split; reflexivity. Qed.

Definition scrolledLayout : Layout := Layout.mk 0 1 100.

(** Rows of 18.4 pixels and columns of 0.1 and 0.2 pixels, as doubles: the
    row height is [2589569785738035 / 2 ^ 47], a little less than 18.4, and
    the widths are a little more than 0.1 and 0.2. *)
Definition fractionalSettings : Settings :=
  Settings.mk
    [GridColumn.mk "k" (ByName "k") None false (3602879701896397 # 36028797018963968) "K";
     GridColumn.mk "v" (ByName "v") None false (3602879701896397 # 18014398509481984) "V"]
    None None false (2589569785738035 # 140737488355328).

(** On the sample grid the numbers are whole and nothing is rounded.  On the
    fractional one, scrolled by 92 pixels under a height of 184, the two
    quotients are a little more than 5 and than 10 and round to 5 and to 10:
    the window is rows 5 to 14, where the exact ceilings are 6 and 11; the
    sum of the widths rounds up to [1351079888211149 / 2 ^ 52], which
    prints as 0.30000000000000004. *)
Lemma visible_area_witness :
  (exists changed w',
     recomputeVisibleArea sampleSettings scrolledLayout sampleWorld = Return changed w' /\
     Viewport.visibleRowCount (Grid.view (grid w')) = 5 /\
     Viewport.firstVisibleRowIndex (Grid.view (grid w')) = 1 /\
     Viewport.lastVisibleRowIndex (Grid.view (grid w')) = 5 /\
     (Viewport.totalColumnWidth (Grid.view (grid w')) == 80)%Q /\
     (Viewport.totalRowHeight (Grid.view (grid w')) == 40)%Q) /\
  (exists changed w',
     recomputeVisibleArea fractionalSettings (Layout.mk 0 92 184) sampleWorld =
       Return changed w' /\
     Viewport.visibleRowCount (Grid.view (grid w')) = 10 /\
     Viewport.firstVisibleRowIndex (Grid.view (grid w')) = 5 /\
     Viewport.lastVisibleRowIndex (Grid.view (grid w')) = 14 /\
     Qceiling (184 / Settings.rowHeight fractionalSettings) = 11 /\
     Qceiling (92 / Settings.rowHeight fractionalSettings) = 6 /\
     (Viewport.totalColumnWidth (Grid.view (grid w')) ==
        1351079888211149 # 4503599627370496)%Q).
Proof.
  split.
  - destruct (visible_area sampleSettings scrolledLayout sampleWorld
                [sampleRow "b" 2; sampleRow "a" 1])
      as (changed & w' & Hrun & Hcount & Hfirst & Hlast & _ & _ & _ & _ & _ & _ & _ & _ &
          _ & _ & Hwidth & Hheight & _); [reflexivity || discriminate..|].
    exists changed, w'. split; [exact Hrun|].
    cbv zeta in Hcount, Hfirst, Hlast, Hwidth, Hheight.
    rewrite Hlast, Hcount, Hfirst.
    split; [reflexivity|]. split; [reflexivity|]. split; [reflexivity|]. split.
    + apply Hwidth; [|reflexivity].
      repeat constructor. exists 80. split; [lia|reflexivity].
    + apply Hheight; [|reflexivity].
      exists 20. split; [lia|reflexivity].
  - destruct (visible_area fractionalSettings (Layout.mk 0 92 184) sampleWorld
                [sampleRow "b" 2; sampleRow "a" 1])
      as (changed & w' & Hrun & Hcount & Hfirst & Hlast & _ & _ & Htotal & _);
      [reflexivity || discriminate..|].
    exists changed, w'. split; [exact Hrun|].
    cbv zeta in Hcount, Hfirst, Hlast, Htotal.
    rewrite Hlast, Hcount, Hfirst, Htotal. repeat split; reflexivity.
Defined.

Definition shiftClickB : MouseEvent := MouseEvent.mk (Some "colB") false true.

Lemma click_order_witness :
  exists w',
    onColumnHeaderClick noNumber (abSettings None) restLayout shiftClickB abWorld =
      Return tt w' /\
    currentOrder w' = Some [entryOf "colA" ascending; entryOf "colB" ascending].
Proof.
  destruct (click_order noNumber (abSettings None) restLayout abWorld shiftClickB "colB"
              [abRow 2 1; abRow 1 2; abRow 1 1] [entryOf "colA" ascending] None)
    as [(w' & order' & Hrun & Horder & _ & Hmod & _) _].
  - reflexivity.
  - discriminate.
  - reflexivity.
  - reflexivity.
  - reflexivity.
  - exists w'. split; [exact Hrun|].
    destruct Hmod as [-> _]; [by right|]. exact Horder.
Defined.

Lemma click_leaves_previous_order_witness :
  exists w',
    onColumnHeaderClick noNumber (abSettings None) restLayout shiftClickB abWorld =
      Return tt w' /\
    lookupEntries (store w') 2%positive = Some [3%positive] /\
    lookupOrder (store w') 2%positive = Some [entryOf "colA" ascending].
Proof.
  destruct (click_leaves_previous_order noNumber (abSettings None) restLayout abWorld
              shiftClickB "colB" [abRow 2 1; abRow 1 2; abRow 1 1]
              [entryOf "colA" ascending] None)
    as (w' & Hrun & _ & Hsame & Horder & _).
  - reflexivity.
  - discriminate.
  - reflexivity.
  - reflexivity.
  - reflexivity.
  - exists w'. split; [exact Hrun|]. split; [exact Hsame|exact Horder].
Defined.

(** An order whose first entry names a column the grid does not have. *)
Definition strayOrder : TableSortOrder :=
  [entryOf "w" descending; entryOf "v" ascending].

Lemma comparator_spec_witness :
  comparator noNumber [columnV] strayOrder None (sampleRow "a" 1) (sampleRow "c" 2) = -1 /\
  findColumn [columnV] "v" = Some columnV /\
  findColumn [columnV] "w" = None.
Proof.
  destruct (comparator_spec noNumber [columnV] strayOrder None
              (sampleRow "a" 1) (sampleRow "c" 2)) as (Hspec & Hcolumn & _).
  - repeat constructor; discriminate.
  - split; [rewrite Hspec; reflexivity|]. split.
    + pose proof (Hcolumn "v") as Hv.
      destruct (findColumn [columnV] "v") as [column|] eqn:Hfound.
      * destruct Hv as (before & after & Hcolumns & _ & Hbefore).
        destruct before as [|c before].
        -- by injection Hcolumns as <- _.
        -- injection Hcolumns as _ Hrest. by destruct before.
      * by apply Forall_cons in Hv as [Hv _].
    + pose proof (Hcolumn "w") as Hw.
      destruct (findColumn [columnV] "w") as [column|]; [|done].
      destruct Hw as (before & after & Hcolumns & Hkey & _).
      destruct before as [|c before].
      * injection Hcolumns as <- _. discriminate Hkey.
      * injection Hcolumns as _ Hrest. by destruct before.
Defined.

Lemma sortRows_leaves_rows_unmutated_witness :
  exists w',
    sortRows noNumber sampleSettings sampleWorld = Return tt w' /\
    lookupRows (store w') 1%positive = Some [sampleRow "b" 2; sampleRow "a" 1] /\
    lookupRows (store w') (Grid.rows (grid w')) =
      Some [sampleRow "a" 1; sampleRow "b" 2].
Proof.
  destruct (sortRows_leaves_rows_unmutated noNumber sampleSettings sampleWorld
              [sampleRow "b" 2; sampleRow "a" 1] ascendingV None)
    as [(w' & Hrun & _ & Hold & _ & Hnew) _].
  - reflexivity.
  - reflexivity.
  - reflexivity.
  - exists w'. split; [exact Hrun|]. split; [exact Hold|exact Hnew].
Defined.

(** The sample world with an order whose only entry has no direction. *)
Definition undirectedStore : heap :=
  {[ 1%positive := RowArray [sampleRow "b" 2; sampleRow "a" 1];
     2%positive := OrderArray [3%positive];
     3%positive := OrderEntry (FieldSortOrder.mk "v" None) ]}.

Definition undirectedWorld : World :=
  mkWorld (Grid.mk 1 2 emptyView [] atRest) undirectedStore.

Lemma undefined_order_is_skipped_witness :
  exists w',
    sort noNumber 1%positive [columnV] 2%positive None undirectedWorld =
      Return 1%positive w' /\
    lookupRows (store w') 1%positive = Some [sampleRow "b" 2; sampleRow "a" 1].
Proof.
  destruct (undefined_order_is_skipped noNumber undirectedWorld 1%positive 2%positive
              None [columnV] [sampleRow "b" 2; sampleRow "a" 1]
              [FieldSortOrder.mk "v" None] None)
    as (_ & _ & _ & Hsort).
  - reflexivity.
  - reflexivity.
  - reflexivity.
  - repeat constructor.
  - exact Hsort.
Defined.

(** Three rows on which the comparator is a consistent ordering. *)
Definition threeRows : list Row :=
  [sampleRow "c" 2; sampleRow "a" 1; sampleRow "b" 1].

Lemma threeRows_consistent :
  Consistent (comparator noNumber [columnV] ascendingV None) threeRows.
Proof.
  split; unfold threeRows; intros;
    repeat match goal with
    | H : _ ∈ _ :: _ |- _ => apply elem_of_cons in H as [->|H]
    | H : _ ∈ [] |- _ => by apply elem_of_nil in H
    end;
    try reflexivity;
    match goal with
    | H : comparator _ _ _ _ _ _ = 0 |- _ => try (by vm_compute in H)
    | H : comparator _ _ _ _ _ _ < 0 |- _ => try (by vm_compute in H)
    | H : comparator _ _ _ _ _ _ > 0 |- _ => try (by vm_compute in H)
    | _ => idtac
    end.
Defined.


Lemma compare_spec_witness :
  compare noNumber (num 1) (num 2) = -1 /\
  compare noNumber (num 2) (VStr "x") = 0.
Proof.
  split.
  - destruct (compare_spec noNumber (num 1) (num 2)) as (_ & _ & _ & _ & Hgeneric).
    rewrite Hgeneric; reflexivity.
  - destruct (compare_spec noNumber (num 2) (VStr "x")) as (_ & _ & _ & _ & Hgeneric).
    rewrite Hgeneric; reflexivity.
Defined.

(** * Further properties *)

(** ** The window, call after call *)

Section Scrolling.

Variable settings : Settings.

(** X1: a second [recomputeVisibleArea] with nothing moved answers [false]
    and changes nothing: no new window, no notification. *)
Theorem recompute_idempotent (layout : Layout) (w : World) (rs : list Row) :
  (0 < Settings.rowHeight settings)%Q ->
  lookupRows (store w) (Grid.rows (grid w)) = Some rs ->
  exists changed w',
    recomputeVisibleArea settings layout w = Return changed w' /\
    recomputeVisibleArea settings layout w' = Return false w'.
Proof.
  intros _ Hrows.
  rewrite (recompute_result settings layout w rs Hrows). cbv zeta.
  destruct (viewDiffers (computedView settings layout (length rs)) (Grid.view (grid w)))
    eqn:Hdiff.
  - eexists _, _. split; [reflexivity|].
    rewrite (recompute_result settings layout _ rs) by done. cbv zeta. simpl.
    by rewrite viewDiffers_same.
  - eexists _, _. split; [reflexivity|].
    rewrite (recompute_result settings layout _ rs) by done. cbv zeta. simpl.
    by rewrite Hdiff.
Qed.

(** X2: [onScroll] hears of a scroll exactly when the first visible row
    index changes: when the index the call leaves (the ceiling of the
    quotient as the host computes it) is not the one it found, the log gains
    [scrollTop], provided the hook is installed; otherwise the log is left
    alone, whatever else changed. *)
Theorem scroll_notified_on_first_row_change (layout : Layout) (w : World)
    (rs : list Row) :
  (0 < Settings.rowHeight settings)%Q ->
  lookupRows (store w) (Grid.rows (grid w)) = Some rs ->
  exists changed w',
    recomputeVisibleArea settings layout w = Return changed w' /\
    Viewport.firstVisibleRowIndex (Grid.view (grid w')) =
      Qceiling (Host.divide (Layout.scrollTop layout) (Settings.rowHeight settings)) /\
    Grid.scrolled (grid w') =
      if (negb (Viewport.firstVisibleRowIndex (Grid.view (grid w')) =?
                Viewport.firstVisibleRowIndex (Grid.view (grid w)))
          && Settings.onScroll settings)%bool
      then Layout.scrollTop layout :: Grid.scrolled (grid w)
      else Grid.scrolled (grid w).
Proof.
  intros _ Hrows.
  rewrite (recompute_result settings layout w rs Hrows). cbv zeta.
  destruct (viewDiffers _ _) eqn:Hdiff.
  - eexists _, _. split; [reflexivity|]. split; reflexivity.
  - eexists _, _. split; [reflexivity|].
    unfold viewDiffers in Hdiff.
    repeat (apply orb_false_elim in Hdiff as [Hdiff ?]).
    simpl in *.
    match goal with
    | H : negb (Qceiling (Host.divide (Layout.scrollTop _) _) =? _) = false |- _ =>
        pose proof H as Hsame; apply negb_false_iff, Z.eqb_eq in Hsame
    end.
    split; [by symmetry|]. by rewrite Z.eqb_refl.
Qed.

(** X3: row [i] of the scroll area spans [i * rowHeight] to
    [(i + 1) * rowHeight]; every row that lies wholly between [scrollTop] and
    [scrollTop + clientHeight] is inside the window from the first to the
    last visible index, although the two quotients are rounded (for windows
    of fewer than [2 ^ 52] rows). *)
Theorem window_covers_visible_rows (layout : Layout) (w : World) (rs : list Row)
    (i : Z) :
  (0 < Settings.rowHeight settings)%Q ->
  (0 <= Layout.scrollTop layout)%Q ->
  (0 <= Layout.clientHeight layout)%Q ->
  (Layout.scrollTop layout / Settings.rowHeight settings < inject_Z (2 ^ 52))%Q ->
  (Layout.clientHeight layout / Settings.rowHeight settings < inject_Z (2 ^ 52))%Q ->
  lookupRows (store w) (Grid.rows (grid w)) = Some rs ->
  (Layout.scrollTop layout <= inject_Z i * Settings.rowHeight settings)%Q ->
  (inject_Z (i + 1) * Settings.rowHeight settings <=
     Layout.scrollTop layout + Layout.clientHeight layout)%Q ->
  exists changed w',
    recomputeVisibleArea settings layout w = Return changed w' /\
    Viewport.firstVisibleRowIndex (Grid.view (grid w')) <= i /\
    i <= Viewport.lastVisibleRowIndex (Grid.view (grid w')).
Proof.
  intros Hh Hs Hc Hsrange Hcrange Hrows Htop Hbottom.
  destruct (recompute_view settings layout w rs Hrows)
    as (changed & w' & Hrun & _ & _ & _ & Hcount & Hfirst & Hlast & _).
  exists changed, w'. split; [exact Hrun|].
  rewrite Hlast, Hfirst, Hcount. unfold Host.divide.
  set (h := Settings.rowHeight settings) in *.
  set (x := (Layout.scrollTop layout / h)%Q) in *.
  set (y := (Layout.clientHeight layout / h)%Q) in *.
  assert (0 <= x)%Q as Hx by (by apply quotient_nonnegative).
  assert (0 <= y)%Q as Hy by (by apply quotient_nonnegative).
  assert (x <= inject_Z i)%Q as Hxi by (by apply Qle_shift_div_r).
  assert (inject_Z (i + 1) <= x + y)%Q as Hxy.
  { apply (Qmult_le_r _ _ h Hh).
    assert ((x + y) * h == Layout.scrollTop layout + Layout.clientHeight layout)%Q
      as -> by (subst x y; field; lra).
    exact Hbottom. }
  assert (Qabs x < inject_Z (2 ^ 52))%Q as Hxabs by (by rewrite (Qabs_pos x Hx)).
  assert (Qabs y < inject_Z (2 ^ 52))%Q as Hyabs by (by rewrite (Qabs_pos y Hy)).
  split.
  - rewrite <- (Qceiling_Z i). apply Qceiling_resp_le.
    apply round64_le_Z; [|exact Hxi].
    eapply Qlt_trans; [exact Hxabs|]. by rewrite <- Zlt_Qlt.
  - destruct (round64_near x Hxabs) as [Hxlo _].
    destruct (round64_near y Hyabs) as [Hylo _].
    pose proof (Qle_ceiling (Host.round64 x)) as Hxc.
    pose proof (Qle_ceiling (Host.round64 y)) as Hyc.
    set (first := Qceiling (Host.round64 x)) in *.
    set (count := Qceiling (Host.round64 y)) in *.
    assert (i + 1 < first + count + 1); [|lia].
    rewrite Zlt_Qlt, !inject_Z_plus. change (inject_Z 1) with 1%Q.
    rewrite inject_Z_plus in Hxy. change (inject_Z 1) with 1%Q in Hxy. lra.
Qed.

End Scrolling.

(** ** The comparator as an ordering *)


Section Ordering.

Variable StringToNumber : string -> Number.

Lemma number_lt_asym x y : number_lt x y = true -> number_lt y x = false.
Proof.
  destruct x as [| |p|], y as [| |q|]; simpl; try done.
  rewrite <- (Qcompare_antisym p q). by destruct (p ?= q)%Q.
Qed.

Lemma localeCompare_antisym s t : Host.localeCompare t s = - Host.localeCompare s t.
Proof.
  unfold Host.localeCompare.
  rewrite (String.compare_antisym (Host.base_key s) (Host.base_key t)).
  by destruct (String.compare (Host.base_key t) (Host.base_key s)).
Qed.

Lemma generic_antisym x y :
  (if number_lt y x then -1 else if number_lt x y then 1 else 0) =
  - (if number_lt x y then -1 else if number_lt y x then 1 else 0).
Proof.
  pose proof (number_lt_asym x y) as Hxy.
  destruct (number_lt x y), (number_lt y x); try done.
  by specialize (Hxy eq_refl).
Qed.

Lemma compare_antisym a b :
  compare StringToNumber b a = - compare StringToNumber a b.
Proof.
  destruct a as [| |x|x|s], b as [| |y|y|t];
    try apply localeCompare_antisym; apply generic_antisym.
Qed.

Lemma entryResult_antisym entry column a b :
  entryResult StringToNumber entry column b a =
    - entryResult StringToNumber entry column a b.
Proof.
  unfold entryResult.
  rewrite (compare_antisym (getCellSortValue a column) (getCellSortValue b column)).
  destruct (FieldSortOrder.order entry) as [[]|],
    (GridColumn.reverseSortOrder column); lia.
Qed.

(** X4: handing the comparator the same two rows the other way round
    negates its answer, so it never calls each of two rows the smaller one,
    and a row compared with itself gives 0. *)
Theorem comparator_antisymmetric (columns : list GridColumn)
    (sortOrder : TableSortOrder) (defaultSortOrder : option TableSortOrder)
    (a b : Row) :
  comparator StringToNumber columns sortOrder defaultSortOrder b a =
    - comparator StringToNumber columns sortOrder defaultSortOrder a b /\
  comparator StringToNumber columns sortOrder defaultSortOrder a a = 0.
Proof.
  assert (forall order x y,
    compareByOrder StringToNumber columns order y x =
      - compareByOrder StringToNumber columns order x y) as Hanti.
  { intros order x y. induction order as [|entry rest IH]; simpl; [done|].
    destruct (findColumn columns (FieldSortOrder.key entry)) as [column|]; [|done].
    rewrite (entryResult_antisym entry column x y).
    destruct (entryResult StringToNumber entry column x y =? 0) eqn:E.
    - apply Z.eqb_eq in E. rewrite E. simpl. exact IH.
    - apply Z.eqb_neq in E.
      destruct (- entryResult StringToNumber entry column x y =? 0) eqn:E';
        [apply Z.eqb_eq in E'; lia|done]. }
  split; [apply Hanti|].
  pose proof (Hanti (effectiveOrder sortOrder defaultSortOrder) a a) as H.
  unfold comparator. lia.
Qed.

(** X5: [compare] ties a string that is no number with every number, also
    with two numbers that it tells apart: on a column that mixes such values
    the comparator's ties do not chain. *)
Theorem compare_mixed_values_do_not_chain (p q : Q) (s : string) :
  StringToNumber s = NaN ->
  (p < q)%Q ->
  compare StringToNumber (VNum (Finite p)) (VStr s) = 0 /\
  compare StringToNumber (VStr s) (VNum (Finite q)) = 0 /\
  compare StringToNumber (VNum (Finite p)) (VNum (Finite q)) = -1.
Proof.
  intros Hs Hpq.
  assert (Qcompare p q = Lt) as Hlt by (by apply Qlt_alt). clear Hpq. rename Hlt into Hpq.
  unfold compare, JS.gt, JS.lt, ToNumber, number_lt. by rewrite Hs, Hpq.
Qed.







End Ordering.

(** ** What [sort] achieves *)

Section Sorting.

Variable StringToNumber : string -> Number.
Variable columns : list GridColumn.

(** X7: when the comparator is a consistent ordering of the rows, the
    sorted rows are in order: no row is followed, anywhere later, by a row
    the comparator ranks before it. *)
Theorem sorted_rows_in_order (sortOrder : TableSortOrder)
    (defaultSortOrder : option TableSortOrder) (rows : list Row) :
  Consistent (comparator StringToNumber columns sortOrder defaultSortOrder) rows ->
  forall a b,
    Before a b (sorted StringToNumber columns sortOrder defaultSortOrder rows) ->
    comparator StringToNumber columns sortOrder defaultSortOrder a b <= 0.
Proof. intros C. by apply Array_sort_sorts. Qed.

(** X8: sorting rows that are already sorted by the same order leaves them
    as they are. *)
Theorem sorting_twice (sortOrder : TableSortOrder)
    (defaultSortOrder : option TableSortOrder) (rows : list Row) :
  Consistent (comparator StringToNumber columns sortOrder defaultSortOrder) rows ->
  sorted StringToNumber columns sortOrder defaultSortOrder
    (sorted StringToNumber columns sortOrder defaultSortOrder rows) =
  sorted StringToNumber columns sortOrder defaultSortOrder rows.
Proof.
  intros C. apply Array_sort_in_order. by apply Array_sort_sorts.
Qed.

End Sorting.

(** ** A click, from the header to the rows *)

(** Whether the [onSort] hook, shown the new order, prevents the default. *)
Definition prevented (settings : Settings) (order : TableSortOrder) : bool :=
  match Settings.onSort settings with
  | Some hook => hook order
  | None => false
  end.

(** An order as the data model wants it: one entry per column at most, and
    no entry without a direction. *)
Definition WellFormedOrder (order : TableSortOrder) : Prop :=
  NoDup (map FieldSortOrder.key order) /\
  Forall (fun c => FieldSortOrder.order c <> None) order.

Section ClickOutcome.

Variable StringToNumber : string -> Number.
Variable settings : Settings.
Variable layout : Layout.

Lemma after_order_cases w n rs so dso :
  Grid.sortOrder (grid w) = n ->
  lookupRows (store w) (Grid.rows (grid w)) = Some rs ->
  lookupOrder (store w) n = Some so ->
  lookupDefault (store w) (Settings.defaultSortOrder settings) = Some dso ->
  exists w',
    (handled ← match Settings.onSort settings with
               | Some hook => o ← load lookupOrder n; mret (hook o)
               | None => mret false
               end;
     if handled : bool then mret tt
     else _ ← sortRows StringToNumber settings; updateRows settings layout true) w =
      Return tt w' /\
    if prevented settings so then w' = w
    else
      store w' =
        <[fresh (dom (store w)) :=
            RowArray (sorted StringToNumber (Settings.columns settings) so dso rs)]>
          (store w) /\
      Grid.rows (grid w') = fresh (dom (store w)) /\
      Grid.sortOrder (grid w') = n /\
      Viewport.firstVisibleRowIndex (Grid.view (grid w')) =
        Qceiling (Host.divide (Layout.scrollTop layout) (Settings.rowHeight settings)) /\
      Viewport.visibleRowCount (Grid.view (grid w')) =
        Qceiling (Host.divide (Layout.clientHeight layout) (Settings.rowHeight settings)).
Proof.
  intros Hn Hrows Horder Hdefault.
  assert (exists w',
    (_ ← sortRows StringToNumber settings; updateRows settings layout true) w =
      Return tt w' /\
    store w' =
      <[fresh (dom (store w)) :=
          RowArray (sorted StringToNumber (Settings.columns settings) so dso rs)]>
        (store w) /\
    Grid.rows (grid w') = fresh (dom (store w)) /\
    Grid.sortOrder (grid w') = n /\
    Viewport.firstVisibleRowIndex (Grid.view (grid w')) =
      Qceiling (Host.divide (Layout.scrollTop layout) (Settings.rowHeight settings)) /\
    Viewport.visibleRowCount (Grid.view (grid w')) =
      Qceiling (Host.divide (Layout.clientHeight layout) (Settings.rowHeight settings)))
    as (ws & Hsorted & Hws).
  { rewrite <- Hn in Horder.
    pose proof (sortRows_run StringToNumber settings w rs so dso Hrows Horder Hdefault)
      as Hrun.
    destruct (recompute_view settings layout
      (mkWorld (Grid.with_rows (fresh (dom (store w))) (grid w))
         (<[fresh (dom (store w)) :=
              RowArray (sorted StringToNumber (Settings.columns settings) so dso rs)]>
            (store w)))
      (sorted StringToNumber (Settings.columns settings) so dso rs))
      as (changed & w' & Hup & Hstore & Hr & Hso & Hcount & Hfirst & _).
    { simpl. unfold lookupRows. by rewrite lookup_insert_eq. }
    exists w'. split.
    - rewrite (bind_run _ _ _ _ _ Hrun). unfold updateRows.
      by rewrite (bind_run _ _ _ _ _ Hup).
    - by rewrite Hstore, Hr, Hso, Hcount, Hfirst. }
  unfold prevented. destruct (Settings.onSort settings) as [hook|].
  - rewrite (bind_run _ _ w (hook so) w)
      by (by rewrite (bind_run _ _ _ _ _ (load_run _ _ _ _ Horder))).
    destruct (hook so); [by exists w|by exists ws].
  - rewrite (bind_run _ _ w false w) by done. by exists ws.
Qed.

(** X9: the handler throws exactly when the clicked header carries no key
    or an empty one; with a key it always completes. *)
Theorem click_throws_exactly_without_key (w : World) (e : MouseEvent)
    (rs : list Row) (order : TableSortOrder) (dso : option TableSortOrder) :
  lookupRows (store w) (Grid.rows (grid w)) = Some rs ->
  lookupOrder (store w) (Grid.sortOrder (grid w)) = Some order ->
  lookupDefault (store w) (Settings.defaultSortOrder settings) = Some dso ->
  match MouseEvent.datasetKey e with
  | None | Some "" =>
      onColumnHeaderClick StringToNumber settings layout e w =
        Throw "Grid column header element has no key."
  | Some _ =>
      exists w', onColumnHeaderClick StringToNumber settings layout e w = Return tt w'
  end.
Proof.
  intros Hrows Horder Hdefault.
  destruct (MouseEvent.datasetKey e) as [columnKey|] eqn:Hkey.
  - destruct (String.eqb columnKey "") eqn:Hempty.
    + apply String.eqb_eq in Hempty. subst columnKey.
      unfold onColumnHeaderClick. by rewrite Hkey.
    + apply String.eqb_neq in Hempty.
      destruct (click_run StringToNumber settings layout w e columnKey rs order dso)
        as (w' & Hrun & _); try done.
      destruct columnKey; [done|]. by exists w'.
  - unfold onColumnHeaderClick. by rewrite Hkey.
Qed.

(** X10: when the [onSort] hook prevents the default, the click installs the
    new order and does nothing else: the grid keeps its row array, with the
    rows in the sequence they had, and its window. *)
Theorem click_with_default_prevented (w : World) (e : MouseEvent)
    (columnKey : string) (rs : list Row) (order : TableSortOrder)
    (dso : option TableSortOrder) :
  MouseEvent.datasetKey e = Some columnKey ->
  columnKey <> "" ->
  lookupRows (store w) (Grid.rows (grid w)) = Some rs ->
  lookupOrder (store w) (Grid.sortOrder (grid w)) = Some order ->
  lookupDefault (store w) (Settings.defaultSortOrder settings) = Some dso ->
  prevented settings (orderAfter settings e columnKey order) = true ->
  exists w',
    onColumnHeaderClick StringToNumber settings layout e w = Return tt w' /\
    currentOrder w' = Some (orderAfter settings e columnKey order) /\
    Grid.rows (grid w') = Grid.rows (grid w) /\
    lookupRows (store w') (Grid.rows (grid w')) = Some rs /\
    Grid.view (grid w') = Grid.view (grid w) /\
    Grid.scrolled (grid w') = Grid.scrolled (grid w).
Proof.
  intros Hkey Hnonempty Hrows Horder Hdefault Hprevented.
  destruct (click_prefix_run StringToNumber settings layout w e columnKey order
              Hkey Hnonempty Horder) as (w6 & -> & Hg6 & Hsub6 & _ & Horder6).
  destruct (after_order_cases w6 (Grid.sortOrder (grid w6)) rs
              (orderAfter settings e columnKey order) dso)
    as (w' & Hrun & Hw'); try done.
  { rewrite Hg6. simpl. by apply (lookupRows_weaken (store w)). }
  { by apply (lookupDefault_weaken (store w)). }
  rewrite Hprevented in Hw'. subst w'.
  exists w6. split; [exact Hrun|]. split; [exact Horder6|].
  rewrite Hg6. simpl. repeat split.
  by apply (lookupRows_weaken (store w)).
Qed.

(** X11: unless the hook prevents it, the click leaves the grid with a new
    row array that holds the rows it had, sorted by the new order (by the
    default order when the new order is empty); the array it had before
    still holds them in their old sequence. *)
Theorem click_sorts_rows_by_new_order (w : World) (e : MouseEvent)
    (columnKey : string) (rs : list Row) (order : TableSortOrder)
    (dso : option TableSortOrder) :
  MouseEvent.datasetKey e = Some columnKey ->
  columnKey <> "" ->
  lookupRows (store w) (Grid.rows (grid w)) = Some rs ->
  lookupOrder (store w) (Grid.sortOrder (grid w)) = Some order ->
  lookupDefault (store w) (Settings.defaultSortOrder settings) = Some dso ->
  prevented settings (orderAfter settings e columnKey order) = false ->
  exists w' rs',
    onColumnHeaderClick StringToNumber settings layout e w = Return tt w' /\
    lookupRows (store w') (Grid.rows (grid w')) = Some rs' /\
    rs' = sorted StringToNumber (Settings.columns settings)
            (orderAfter settings e columnKey order) dso rs /\
    rs' ≡ₚ rs /\
    store w !! Grid.rows (grid w') = None /\
    lookupRows (store w') (Grid.rows (grid w)) = Some rs.
Proof.
  intros Hkey Hnonempty Hrows Horder Hdefault Hprevented.
  destruct (click_prefix_run StringToNumber settings layout w e columnKey order
              Hkey Hnonempty Horder) as (w6 & -> & Hg6 & Hsub6 & _ & Horder6).
  destruct (after_order_cases w6 (Grid.sortOrder (grid w6)) rs
              (orderAfter settings e columnKey order) dso)
    as (w' & Hrun & Hw'); try done.
  { rewrite Hg6. simpl. by apply (lookupRows_weaken (store w)). }
  { by apply (lookupDefault_weaken (store w)). }
  rewrite Hprevented in Hw'. destruct Hw' as (Hstore & Hr & _).
  exists w', (sorted StringToNumber (Settings.columns settings)
                (orderAfter settings e columnKey order) dso rs).
  split; [exact Hrun|]. rewrite Hstore, Hr.
  split; [unfold lookupRows; by rewrite lookup_insert_eq|].
  split; [done|]. split; [apply Array_sort_perm|].
  split; [apply (unused_weaken _ (store w6)); [done|apply fresh_unused]|].
  apply (lookupRows_weaken (store w)); [|done].
  etrans; [exact Hsub6|apply alloc_extends].
Qed.

End ClickOutcome.

(** ** The order stays well formed *)

Lemma otherColumns_well_formed columnKey order :
  WellFormedOrder order -> WellFormedOrder (otherColumns columnKey order).
Proof.
  unfold WellFormedOrder, otherColumns. intros [Hnodup Hdir].
  induction order as [|c order IH]; simpl; [done|].
  apply NoDup_cons in Hnodup as [Hc Hnodup]. apply Forall_cons in Hdir as [Hd Hdir].
  destruct (IH Hnodup Hdir) as [IH1 IH2].
  destruct (negb (String.eqb (FieldSortOrder.key c) columnKey)); simpl; [|done].
  split; [|by constructor].
  apply NoDup_cons. split; [|done].
  intros Hin. apply Hc. apply list_elem_of_fmap in Hin as (c' & -> & Hin).
  apply list_elem_of_fmap. exists c'. split; [done|].
  apply list_elem_of_In, List.filter_In in Hin as [Hin _]. by apply list_elem_of_In.
Qed.

Lemma orderAfter_well_formed settings e columnKey order :
  isPlain e = true \/ WellFormedOrder order ->
  WellFormedOrder (orderAfter settings e columnKey order).
Proof.
  intros Hwf. unfold orderAfter.
  set (advanced := cycleColumnSortOrder settings (currentState columnKey order)).
  assert (WellFormedOrder (if isPlain e then [] else otherColumns columnKey order))
    as [Hnodup Hdir].
  { destruct (isPlain e).
    - split; constructor.
    - destruct Hwf as [|Hwf]; [done|]. by apply otherColumns_well_formed. }
  assert (Forall (fun c => FieldSortOrder.key c <> columnKey)
            (if isPlain e then [] else otherColumns columnKey order)) as Hkeys.
  { destruct (isPlain e); [constructor|apply otherColumns_keys]. }
  split.
  - rewrite map_app. apply NoDup_app. split; [done|]. split.
    + intros k Hk Htail. destruct advanced; simpl in Htail.
      * apply list_elem_of_singleton in Htail as ->.
        apply list_elem_of_fmap in Hk as (c & Hc & Hin).
        by apply (proj1 (Forall_forall _ _) Hkeys c Hin).
      * by apply elem_of_nil in Htail.
    + destruct advanced; simpl; [apply NoDup_singleton|constructor].
  - apply Forall_app. split; [done|].
    destruct advanced; simpl; repeat constructor. done.
Qed.

(** A grid ready for a click: its row array, its order and its default
    order are in the store, and the order is well formed. *)
Definition Ready (settings : Settings) (w : World) : Prop :=
  exists rs order dso,
    lookupRows (store w) (Grid.rows (grid w)) = Some rs /\
    lookupOrder (store w) (Grid.sortOrder (grid w)) = Some order /\
    lookupDefault (store w) (Settings.defaultSortOrder settings) = Some dso /\
    WellFormedOrder order.

(** The event comes from a header that carries a key. *)
Definition Keyed (e : MouseEvent) : Prop :=
  exists columnKey, MouseEvent.datasetKey e = Some columnKey /\ columnKey <> "".

Section Clicks.

Variable StringToNumber : string -> Number.
Variable settings : Settings.
Variable layout : Layout.

(** X12: a grid that is ready for a click (its arrays in the store, its
    order well formed: one entry per column at most, every entry with a
    direction) completes a click on a keyed header and is ready for the next
    one; so the order is well formed after any number of clicks. *)
Theorem click_keeps_grid_ready (w : World) (e : MouseEvent) :
  Keyed e -> Ready settings w ->
  exists w',
    onColumnHeaderClick StringToNumber settings layout e w = Return tt w' /\
    Ready settings w'.
Proof.
  intros (columnKey & Hkey & Hnonempty) (rs & order & dso & Hrows & Horder & Hdefault & Hwf).
  destruct (click_prefix_run StringToNumber settings layout w e columnKey order
              Hkey Hnonempty Horder) as (w6 & -> & Hg6 & Hsub6 & _ & Horder6).
  assert (lookupRows (store w6) (Grid.rows (grid w6)) = Some rs) as Hrows6.
  { rewrite Hg6. simpl. by apply (lookupRows_weaken (store w)). }
  assert (lookupDefault (store w6) (Settings.defaultSortOrder settings) = Some dso)
    as Hdefault6 by (by apply (lookupDefault_weaken (store w))).
  destruct (after_order_cases StringToNumber settings layout w6
              (Grid.sortOrder (grid w6)) rs (orderAfter settings e columnKey order) dso)
    as (w' & Hrun & Hw'); try done.
  exists w'. split; [exact Hrun|].
  assert (WellFormedOrder (orderAfter settings e columnKey order)) as Hwf'
    by (apply orderAfter_well_formed; by right).
  destruct (prevented settings (orderAfter settings e columnKey order)).
  - subst w'. by exists rs, (orderAfter settings e columnKey order), dso.
  - destruct Hw' as (Hstore & Hr & Hso & _).
    assert (store w6 ⊆ store w') as Hsub' by (rewrite Hstore; apply alloc_extends).
    exists (sorted StringToNumber (Settings.columns settings)
              (orderAfter settings e columnKey order) dso rs),
      (orderAfter settings e columnKey order), dso.
    split; [rewrite Hstore, Hr; unfold lookupRows; by rewrite lookup_insert_eq|].
    split; [rewrite Hso; by apply (lookupOrder_weaken (store w6))|].
    split; [by apply (lookupDefault_weaken (store w6))|done].
Qed.

End Clicks.

(** ** What is on the screen *)

(** The display elements the grid builds, as data.  A cell: its class, its
    width in pixels, its [data-key] and its text.  A row: its classes, its
    [data-key], its [data-index], its width and its cells. *)
Module Dom.

Record CellElement := mkCell {
  cellClasses : list string;
  cellWidth : Q;
  cellKey : string;
  textContent : string
}.

Record RowElement := mkRow {
  classes : list string;
  key : string;
  index : nat;
  width : Q;
  cells : list CellElement
}.

(** A column header: its width, its [data-key], its label and the chevron
    after the label, if any. *)
Record HeaderElement := mkHeader {
  headerWidth : Q;
  headerKey : string;
  label : string;
  chevron : option Direction
}.

(** The children of the row container, and the closure's variables that
    only the display uses. *)
Record Display := mkDisplay {
  rowElements : list RowElement;
  renderCount : nat;
  hotRowKey : option string;
  selectedRowKey : option string;
  mouseX : option Q;
  mouseY : option Q
}.

End Dom.

Section Rendering.

(** The host's conversion of a number to a string. *)
Variable NumberToString : Number -> string.

(** [String(v)] on primitives. *)
Definition ToString (v : Value) : string :=
  match v with
  | VUndefined => "undefined"
  | VNull => "null"
  | VBool true => "true"
  | VBool false => "false"
  | VNum n => NumberToString n
  | VStr s => s
  end.

(** [settings.rowKey]: the name of a property of the row, or a function. *)
Variable rowKey : Accessor.

Variable settings : Settings.

Definition getRowKey (row : Row) : string := ToString (access rowKey row).

(** [renderCell]: the text of the cell is the display value, which the
    assignment to [textContent] turns into a string. *)
Definition renderCell (row : Row) (column : GridColumn) : Dom.CellElement :=
  Dom.mkCell ["ts-data-grid-cell"] (GridColumn.width column) (GridColumn.key column)
    (ToString (getCellValue row column)).

(** [key === selectedRowKey] *)
Definition isKey (k : string) (selected : option string) : bool :=
  match selected with
  | Some s => String.eqb k s
  | None => false
  end.

(** [renderRow(row, i)], with the closure's [selectedRowKey] and
    [totalColumnWidth]. *)
Definition renderRow (selected : option string) (totalColumnWidth : Q)
    (row : Row) (i : nat) : Dom.RowElement :=
  let key := getRowKey row in
  let alt := if Nat.odd i then ["ts-data-grid-alt"] else [] in
  let sel := if isKey key selected then ["ts-data-grid-selected"] else [] in
  Dom.mkRow ("ts-data-grid-row" :: alt ++ sel) key i totalColumnWidth
    (map (renderCell row) (Settings.columns settings)).

(** [rows[index]]: undefined outside the array. *)
Definition rowAt (rows : list Row) (index : Z) : option Row :=
  if index <? 0 then None else rows !! Z.to_nat index.

(** The loop of [createRows], from [i] on, with [n] rounds to go: a row is
    rendered when there is one at [firstVisibleRowIndex + i]. *)
Fixpoint renderFrom (selected : option string) (v : Viewport) (rows : list Row)
    (i n : nat) : list Dom.RowElement :=
  match n with
  | O => []
  | S n' =>
      match rowAt rows (Viewport.firstVisibleRowIndex v + Z.of_nat i) with
      | Some row => [renderRow selected (Viewport.totalColumnWidth v) row i]
      | None => []
      end ++ renderFrom selected v rows (S i) n'
  end.

(** [createRows]: the row container is emptied and filled again; the debug
    line is left out. *)
Definition createRows (d : Dom.Display) : M Dom.Display :=
  g ← getGrid;
  rows ← load lookupRows (Grid.rows g);
  let v := Grid.view g in
  mret (Dom.mkDisplay
          (renderFrom (Dom.selectedRowKey d) v rows 0
             (Z.to_nat (Viewport.visibleRowCount v)))
          (S (Dom.renderCount d)) (Dom.hotRowKey d) (Dom.selectedRowKey d)
          (Dom.mouseX d) (Dom.mouseY d)).

(** [updateRows(forceUpdate)], display included. *)
Definition refreshRows (layout : Layout) (forceUpdate : bool) (d : Dom.Display) :
    M Dom.Display :=
  changed ← recomputeVisibleArea settings layout;
  if (changed || forceUpdate)%bool then createRows d else mret d.

(** [renderColumnHeader] for one column, given the contents of the current
    order: the chevron shows the order of the first entry for the column. *)
Definition renderColumnHeader (order : TableSortOrder) (column : GridColumn) :
    Dom.HeaderElement :=
  let entry :=
    List.find (fun x => String.eqb (FieldSortOrder.key x) (GridColumn.key column)) order in
  Dom.mkHeader (GridColumn.width column) (GridColumn.key column)
    (GridColumn.label column)
    (match entry with
     | Some x => FieldSortOrder.order x
     | None => None
     end).

(** [updateColumnHeaders]: the new children of the header container. *)
Definition updateColumnHeaders : M (list Dom.HeaderElement) :=
  g ← getGrid;
  order ← load lookupOrder (Grid.sortOrder g);
  mret (map (renderColumnHeader order) (Settings.columns settings)).

End Rendering.

Section RenderingFacts.

Variable NumberToString : Number -> string.
Variable rowKey : Accessor.
Variable settings : Settings.

Lemma rowAt_nat rows (first : Z) (i : nat) :
  0 <= first ->
  rowAt rows (first + Z.of_nat i) = rows !! (Z.to_nat first + i)%nat.
Proof.
  intros Hfirst. unfold rowAt.
  destruct (first + Z.of_nat i <? 0) eqn:E; [apply Z.ltb_lt in E; lia|].
  f_equal. lia.
Qed.

Lemma renderFrom_slice selected v rows i n :
  0 <= Viewport.firstVisibleRowIndex v ->
  renderFrom NumberToString rowKey settings selected v rows i n =
    imap (fun j row =>
            renderRow NumberToString rowKey settings selected
              (Viewport.totalColumnWidth v) row (i + j))
      (take n (drop (Z.to_nat (Viewport.firstVisibleRowIndex v) + i) rows)).
Proof.
  intros Hfirst. revert i. induction n as [|n IH]; intros i; simpl; [done|].
  rewrite (rowAt_nat _ _ _ Hfirst), (IH (S i)), Nat.add_succ_r.
  destruct (rows !! (Z.to_nat (Viewport.firstVisibleRowIndex v) + i)%nat)
    as [row|] eqn:Hrow.
  - rewrite (drop_S _ _ _ Hrow). simpl. rewrite Nat.add_0_r. f_equal.
    apply imap_ext. intros j x _. simpl. by rewrite Nat.add_succ_r.
  - apply lookup_ge_None in Hrow.
    rewrite !drop_ge by lia. by rewrite take_nil.
Qed.

(** X13: [createRows] puts on the screen the rows of the array from the
    first visible index on, in their sequence, as many as the visible row
    count and no more, however long the array is; each carries its key and
    its position in the window. *)
Theorem rendered_rows_are_the_window (d : Dom.Display) (w : World) (rs : list Row) :
  lookupRows (store w) (Grid.rows (grid w)) = Some rs ->
  0 <= Viewport.firstVisibleRowIndex (Grid.view (grid w)) ->
  let v := Grid.view (grid w) in
  let window :=
    take (Z.to_nat (Viewport.visibleRowCount v))
      (drop (Z.to_nat (Viewport.firstVisibleRowIndex v)) rs) in
  exists d',
    createRows NumberToString rowKey settings d w = Return d' w /\
    Dom.rowElements d' =
      imap (fun i row =>
              renderRow NumberToString rowKey settings (Dom.selectedRowKey d)
                (Viewport.totalColumnWidth v) row i) window /\
    map Dom.key (Dom.rowElements d') = map (getRowKey NumberToString rowKey) window /\
    map Dom.index (Dom.rowElements d') = seq 0 (length window) /\
    (length (Dom.rowElements d') <= Z.to_nat (Viewport.visibleRowCount v))%nat /\
    Dom.renderCount d' = S (Dom.renderCount d) /\
    Dom.selectedRowKey d' = Dom.selectedRowKey d.
Proof.
  intros Hrows Hfirst v window.
  eexists. split.
  { unfold createRows. rewrite (bind_run _ _ w (grid w) w) by done.
    by rewrite (bind_run _ _ _ _ _ (load_run _ _ _ _ Hrows)). }
  simpl. rewrite (renderFrom_slice _ _ _ _ _ Hfirst), Nat.add_0_r.
  fold v. fold window.
  split; [done|]. split; [|split; [|split; [|done]]].
  - rewrite fmap_imap. simpl. generalize window. intros l.
    induction l as [|x l IH]; [done|]. rewrite imap_cons. simpl. f_equal.
    exact IH.
  - rewrite fmap_imap. simpl. generalize window. intros l.
    etrans; [apply (imap_ext _ (fun j _ => j)); done|].
    rewrite (imap_seq_0 l (fun j => j)). apply list_fmap_id.
  - rewrite length_imap. subst window. rewrite length_take. lia.
Qed.

Lemma renderRow_classes selected width row i :
  let el := renderRow NumberToString rowKey settings selected width row i in
  "ts-data-grid-row" ∈ Dom.classes el /\
  ("ts-data-grid-selected" ∈ Dom.classes el <-> selected = Some (Dom.key el)) /\
  ("ts-data-grid-alt" ∈ Dom.classes el <-> Nat.odd (Dom.index el) = true) /\
  "ts-data-grid-hot" ∉ Dom.classes el.
Proof.
  unfold renderRow. simpl.
  assert (isKey (getRowKey NumberToString rowKey row) selected = true <->
          selected = Some (getRowKey NumberToString rowKey row)) as Hkey.
  { destruct selected as [s|]; simpl; [|done]. rewrite String.eqb_eq.
    split; [by intros ->|by intros [= ->]]. }
  destruct (Nat.odd i), (isKey (getRowKey NumberToString rowKey row) selected);
    simpl; rewrite ?elem_of_cons, ?elem_of_nil;
    repeat split; try tauto; try (intros _; tauto);
    try (intros H; repeat destruct H as [H|H]; try done; by apply Hkey in H);
    try (intros H; apply Hkey in H; done);
    try (intros H; repeat destruct H as [H|H]; done).
Qed.

(** X14: of the rows [createRows] puts on the screen, the selected mark is
    on those whose key is the selected key and on no other, whether or not
    they were on the screen before; the alternate mark is on the odd
    positions of the window; none carries the hover mark. *)
Theorem rendered_rows_marks (d : Dom.Display) (w : World) (rs : list Row) :
  lookupRows (store w) (Grid.rows (grid w)) = Some rs ->
  exists d',
    createRows NumberToString rowKey settings d w = Return d' w /\
    forall el, el ∈ Dom.rowElements d' ->
      "ts-data-grid-row" ∈ Dom.classes el /\
      ("ts-data-grid-selected" ∈ Dom.classes el <->
         Dom.selectedRowKey d = Some (Dom.key el)) /\
      ("ts-data-grid-alt" ∈ Dom.classes el <-> Nat.odd (Dom.index el) = true) /\
      "ts-data-grid-hot" ∉ Dom.classes el.
Proof.
  intros Hrows. eexists. split.
  { unfold createRows. rewrite (bind_run _ _ w (grid w) w) by done.
    by rewrite (bind_run _ _ _ _ _ (load_run _ _ _ _ Hrows)). }
  simpl. generalize 0%nat, (Z.to_nat (Viewport.visibleRowCount (Grid.view (grid w)))).
  intros i n. revert i. induction n as [|n IH]; intros i el Hel; simpl in Hel.
  - by apply elem_of_nil in Hel.
  - apply elem_of_app in Hel as [Hel|Hel]; [|by apply (IH (S i))].
    destruct (rowAt rs _) as [row|]; [|by apply elem_of_nil in Hel].
    apply list_elem_of_singleton in Hel as ->. apply renderRow_classes.
Qed.

Lemma createRows_keys d w rs :
  lookupRows (store w) (Grid.rows (grid w)) = Some rs ->
  0 <= Viewport.firstVisibleRowIndex (Grid.view (grid w)) ->
  exists d',
    createRows NumberToString rowKey settings d w = Return d' w /\
    map Dom.key (Dom.rowElements d') =
      map (getRowKey NumberToString rowKey)
        (take (Z.to_nat (Viewport.visibleRowCount (Grid.view (grid w))))
           (drop (Z.to_nat (Viewport.firstVisibleRowIndex (Grid.view (grid w)))) rs)) /\
    Dom.renderCount d' = S (Dom.renderCount d).
Proof.
  intros Hrows Hfirst. eexists. split.
  { unfold createRows. rewrite (bind_run _ _ w (grid w) w) by done.
    by rewrite (bind_run _ _ _ _ _ (load_run _ _ _ _ Hrows)). }
  simpl. split; [|done].
  rewrite (renderFrom_slice _ _ _ _ _ Hfirst), Nat.add_0_r, fmap_imap. simpl.
  generalize (take (Z.to_nat (Viewport.visibleRowCount (Grid.view (grid w))))
    (drop (Z.to_nat (Viewport.firstVisibleRowIndex (Grid.view (grid w)))) rs)).
  intros l. induction l as [|x l IH]; [done|]. rewrite imap_cons. simpl. f_equal.
  exact IH.
Qed.

Lemma createRows_run d w rs :
  lookupRows (store w) (Grid.rows (grid w)) = Some rs ->
  exists d',
    createRows NumberToString rowKey settings d w = Return d' w /\
    Dom.renderCount d' = S (Dom.renderCount d).
Proof.
  intros Hrows. eexists. split.
  - unfold createRows. rewrite (bind_run _ _ w (grid w) w) by done.
    by rewrite (bind_run _ _ _ _ _ (load_run _ _ _ _ Hrows)).
  - reflexivity.
Qed.

(** X15: [updateRows] moves the two containers to [scrollLeft] and leaves
    the window the host computes; when that window is a new one, and after
    any forced refresh, the screen shows the rows of the array from the
    first visible index on, at most the visible row count of them; when the
    window did not change and the refresh is not forced, the rows on the
    screen are left as they are. *)
Theorem refresh_shows_the_window (layout : Layout) (force : bool) (d : Dom.Display)
    (w : World) (rs : list Row) :
  (0 < Settings.rowHeight settings)%Q ->
  (0 <= Layout.scrollTop layout)%Q ->
  lookupRows (store w) (Grid.rows (grid w)) = Some rs ->
  exists changed d' w',
    recomputeVisibleArea settings layout w = Return changed w' /\
    refreshRows NumberToString rowKey settings layout force d w = Return d' w' /\
    Containers.rowContainerScrollLeft (Grid.containers (grid w')) =
      Layout.scrollLeft layout /\
    Containers.columnHeaderContainerScrollLeft (Grid.containers (grid w')) =
      Layout.scrollLeft layout /\
    let v := Grid.view (grid w') in
    Viewport.firstVisibleRowIndex v =
      Qceiling (Host.divide (Layout.scrollTop layout) (Settings.rowHeight settings)) /\
    Viewport.visibleRowCount v =
      Qceiling (Host.divide (Layout.clientHeight layout) (Settings.rowHeight settings)) /\
    if (changed || force)%bool
    then
      map Dom.key (Dom.rowElements d') =
        map (getRowKey NumberToString rowKey)
          (take (Z.to_nat (Viewport.visibleRowCount v))
             (drop (Z.to_nat (Viewport.firstVisibleRowIndex v)) rs)) /\
      Dom.renderCount d' = S (Dom.renderCount d)
    else d' = d.
Proof.
  intros Hh Hs Hrows.
  destruct (recompute_view settings layout w rs Hrows)
    as (changed & w' & Hrun & Hstore & Hr & _ & Hcount & Hfirst & _ & _ & _ & _ &
        Hleft1 & Hleft2).
  assert (lookupRows (store w') (Grid.rows (grid w')) = Some rs) as Hrows'
    by (by rewrite Hstore, Hr).
  unfold refreshRows. rewrite (bind_run _ _ _ _ _ Hrun).
  destruct (changed || force)%bool eqn:Hdo.
  - destruct (createRows_keys d w' rs Hrows') as (d' & Hcreate & Hkeys & Hcounter).
    { rewrite Hfirst. by apply ceiling_nonnegative. }
    exists changed, d', w'. rewrite Hdo. by repeat split.
  - exists changed, d, w'. by rewrite Hdo.
Qed.

Lemma computedView_same_rows layout1 layout2 n :
  Layout.clientHeight layout2 = Layout.clientHeight layout1 ->
  Qceiling (Host.divide (Layout.scrollTop layout2) (Settings.rowHeight settings)) =
    Qceiling (Host.divide (Layout.scrollTop layout1) (Settings.rowHeight settings)) ->
  computedView settings layout2 n = computedView settings layout1 n.
Proof. unfold computedView. by intros -> ->. Qed.

(** X16: a scroll that stays within the same first row as the host
    computes it, the height unchanged, renders nothing: the rows on the
    screen are not built again, the window is the same and [onScroll] is not
    told.  Of the grid's state only the horizontal offset of the two
    containers changes, which follows [scrollLeft].  (The debug line, which
    is not part of the model, shows the new [scrollTop] when it is switched
    on.) *)
Theorem scroll_within_a_row_renders_nothing (layout1 layout2 : Layout)
    (force : bool) (d : Dom.Display) (w : World) (rs : list Row) :
  (0 < Settings.rowHeight settings)%Q ->
  lookupRows (store w) (Grid.rows (grid w)) = Some rs ->
  Layout.clientHeight layout2 = Layout.clientHeight layout1 ->
  Qceiling (Host.divide (Layout.scrollTop layout2) (Settings.rowHeight settings)) =
    Qceiling (Host.divide (Layout.scrollTop layout1) (Settings.rowHeight settings)) ->
  exists d1 w1 w2,
    refreshRows NumberToString rowKey settings layout1 force d w = Return d1 w1 /\
    refreshRows NumberToString rowKey settings layout2 false d1 w1 = Return d1 w2 /\
    w2 = mkWorld
           (Grid.with_containers
              (Containers.with_scrollLeft (Layout.scrollLeft layout2)
                 (Grid.containers (grid w1)))
              (grid w1))
           (store w1).
Proof.
  intros _ Hrows Hheight Hfirst.
  assert (exists changed w1,
    recomputeVisibleArea settings layout1 w = Return changed w1 /\
    lookupRows (store w1) (Grid.rows (grid w1)) = Some rs /\
    viewDiffers (computedView settings layout1 (length rs)) (Grid.view (grid w1)) = false)
    as (changed & w1 & Hrun & Hrows1 & Hsame).
  { rewrite (recompute_result settings layout1 w rs Hrows). cbv zeta.
    destruct (viewDiffers _ _) eqn:Hdiff.
    - eexists _, _. split; [reflexivity|]. split; [done|]. apply viewDiffers_same.
    - eexists _, _. split; [reflexivity|]. by split. }
  destruct (createRows_run d w1 rs Hrows1) as (dc & Hcreate & _).
  pose proof (recompute_result settings layout2 w1 rs Hrows1) as Hrun2.
  cbv zeta in Hrun2.
  rewrite (computedView_same_rows layout1 layout2 _ Hheight Hfirst), Hsame in Hrun2.
  eexists (if (changed || force)%bool then dc else d), w1, _.
  unfold refreshRows. rewrite (bind_run _ _ _ _ _ Hrun), (bind_run _ _ _ _ _ Hrun2).
  split; [by destruct (changed || force)%bool|]. by split.
Qed.

End RenderingFacts.

(** ** The chevrons of the column headers *)

Lemma find_app {A} (f : A -> bool) l1 l2 :
  List.find f (l1 ++ l2) =
    match List.find f l1 with Some x => Some x | None => List.find f l2 end.
Proof. induction l1 as [|x l1 IH]; simpl; [done|]. by destruct (f x). Qed.

Lemma currentState_app k l1 l2 :
  currentState k (l1 ++ l2) =
    match List.find (fun x => String.eqb (FieldSortOrder.key x) k) l1 with
    | Some x => FieldSortOrder.order x
    | None => currentState k l2
    end.
Proof.
  unfold currentState. rewrite find_app.
  by destruct (List.find _ l1).
Qed.

Lemma find_otherColumns k columnKey order :
  List.find (fun x => String.eqb (FieldSortOrder.key x) k) (otherColumns columnKey order) =
    if String.eqb k columnKey then None
    else List.find (fun x => String.eqb (FieldSortOrder.key x) k) order.
Proof.
  unfold otherColumns. induction order as [|c order IH]; simpl.
  - by destruct (String.eqb k columnKey).
  - destruct (String.eqb (FieldSortOrder.key c) columnKey) eqn:Hc; simpl.
    + rewrite IH. destruct (String.eqb k columnKey) eqn:Hk; [done|].
      destruct (String.eqb (FieldSortOrder.key c) k) eqn:Hck; [|done].
      apply String.eqb_eq in Hc, Hck. subst. by rewrite String.eqb_refl in Hk.
    + destruct (String.eqb (FieldSortOrder.key c) k) eqn:Hck.
      * apply String.eqb_eq in Hck. subst k. by rewrite Hc.
      * exact IH.
Qed.

Lemma currentState_orderAfter settings e columnKey order k :
  currentState k (orderAfter settings e columnKey order) =
    if String.eqb k columnKey
    then cycleColumnSortOrder settings (currentState columnKey order)
    else if isPlain e then None else currentState k order.
Proof.
  unfold orderAfter. rewrite currentState_app.
  set (advanced := cycleColumnSortOrder settings (currentState columnKey order)).
  assert (currentState k (clickedTail columnKey advanced) =
          if String.eqb k columnKey then advanced else None) as Htail.
  { unfold currentState. destruct advanced; simpl.
    - rewrite (String.eqb_sym columnKey k). by destruct (String.eqb k columnKey).
    - by destruct (String.eqb k columnKey). }
  destruct (isPlain e); simpl.
  - rewrite Htail. by destruct (String.eqb k columnKey).
  - rewrite find_otherColumns, Htail.
    destruct (String.eqb k columnKey); [done|].
    unfold currentState.
    by destruct (List.find (fun x => String.eqb (FieldSortOrder.key x) k) order).
Qed.

Section Headers.

Variable StringToNumber : string -> Number.
Variable settings : Settings.
Variable layout : Layout.

(** X17: after a click the header of the clicked column shows its advanced
    state (no chevron when that is none); the header of any other column
    shows nothing after a plain click and what it showed before after a
    modified one. *)
Theorem headers_after_click (w : World) (e : MouseEvent) (columnKey : string)
    (rs : list Row) (order : TableSortOrder) (dso : option TableSortOrder) :
  MouseEvent.datasetKey e = Some columnKey ->
  columnKey <> "" ->
  lookupRows (store w) (Grid.rows (grid w)) = Some rs ->
  lookupOrder (store w) (Grid.sortOrder (grid w)) = Some order ->
  lookupDefault (store w) (Settings.defaultSortOrder settings) = Some dso ->
  exists before w' after,
    updateColumnHeaders settings w = Return before w /\
    onColumnHeaderClick StringToNumber settings layout e w = Return tt w' /\
    updateColumnHeaders settings w' = Return after w' /\
    map Dom.headerKey after = map GridColumn.key (Settings.columns settings) /\
    Forall2 (fun old new =>
               Dom.chevron new =
                 if String.eqb (Dom.headerKey new) columnKey
                 then cycleColumnSortOrder settings (currentState columnKey order)
                 else if isPlain e then None else Dom.chevron old)
      before after.
Proof.
  intros Hkey Hnonempty Hrows Horder Hdefault.
  destruct (click_run StringToNumber settings layout w e columnKey rs order dso)
    as (w' & Hrun & _ & _ & Horder'); try done.
  exists (map (renderColumnHeader order) (Settings.columns settings)), w',
    (map (renderColumnHeader (orderAfter settings e columnKey order))
       (Settings.columns settings)).
  split; [|split; [done|split; [|split]]].
  - unfold updateColumnHeaders. rewrite (bind_run _ _ w (grid w) w) by done.
    by rewrite (bind_run _ _ _ _ _ (load_run _ _ _ _ Horder)).
  - unfold updateColumnHeaders. rewrite (bind_run _ _ w' (grid w') w') by done.
    by rewrite (bind_run _ _ _ _ _ (load_run _ _ _ _ Horder')).
  - by rewrite <- list_fmap_compose.
  - apply Forall2_fmap, Forall_Forall2_diag, Forall_forall. intros c _. simpl.
    apply (currentState_orderAfter settings e columnKey order (GridColumn.key c)).
Qed.

End Headers.

(** ** The pointer: hover and selection *)

(** An element of the document under the pointer, as far as the grid looks
    at it: its classes, whether it is an [HTMLElement], and its
    [data-key]. *)
Record HitElement := mkHit {
  hitClasses : list string;
  hitIsHTMLElement : bool;
  hitKey : option string
}.

(** The fields of the mouse event that [onClick] and [handleMouseMove]
    read. *)
Record PointerEvent := mkPointer {
  clientX : Q;
  clientY : Q
}.

(** An element of the row container: the row at a position, or a cell of
    it. *)
Inductive Target :=
  | RowTarget (i : nat)
  | CellTarget (i j : nat).

(** A handler either runs to its end or is cut short by an exception of the
    host; either way the display is as the handler left it. *)
Inductive Completion :=
  | Normal (d : Dom.Display)
  | Abrupt (d : Dom.Display).

Definition displayOf (c : Completion) : Dom.Display :=
  match c with Normal d | Abrupt d => d end.

(** A number as a condition: absent and 0 count as false. *)
Definition truthyNumber (x : option Q) : bool :=
  match x with
  | Some q => negb (Qeq_bool q 0)
  | None => false
  end.

(** A string as a condition: absent and empty count as false. *)
Definition truthyString (s : option string) : bool :=
  match s with
  | Some k => negb (String.eqb k "")
  | None => false
  end.

Definition Qgtb (a b : Q) : bool :=
  match Qcompare a b with Gt => true | _ => false end.

(** [classList.remove(c)] and [classList.add(c)] *)
Definition removeClass (c : string) (classes : list string) : list string :=
  List.filter (fun x => negb (String.eqb x c)) classes.

Definition addClass (c : string) (classes : list string) : list string :=
  if existsb (String.eqb c) classes then classes else classes ++ [c].

Definition onRowClasses (f : list string -> list string) (r : Dom.RowElement) :
    Dom.RowElement :=
  Dom.mkRow (f (Dom.classes r)) (Dom.key r) (Dom.index r) (Dom.width r) (Dom.cells r).

Definition onCellClasses (f : list string -> list string) (c : Dom.CellElement) :
    Dom.CellElement :=
  Dom.mkCell (f (Dom.cellClasses c)) (Dom.cellWidth c) (Dom.cellKey c)
    (Dom.textContent c).

(** The class list of the element at [t] changed by [f]. *)
Definition onClasses (f : list string -> list string) (t : Target)
    (rows : list Dom.RowElement) : list Dom.RowElement :=
  match t with
  | RowTarget i => alter (onRowClasses f) i rows
  | CellTarget i j =>
      alter (fun r =>
               Dom.mkRow (Dom.classes r) (Dom.key r) (Dom.index r) (Dom.width r)
                 (alter (onCellClasses f) j (Dom.cells r))) i rows
  end.

(** The first element with [data-key] equal to [k], rows and cells in the
    sequence of the document: a row comes before its cells, and these before
    the next row. *)
Fixpoint firstCellWithKey (k : string) (cells : list Dom.CellElement) (j : nat) :
    option nat :=
  match cells with
  | [] => None
  | c :: rest =>
      if String.eqb (Dom.cellKey c) k then Some j else firstCellWithKey k rest (S j)
  end.

Fixpoint firstWithKey (k : string) (rows : list Dom.RowElement) (i : nat) :
    option Target :=
  match rows with
  | [] => None
  | r :: rest =>
      if String.eqb (Dom.key r) k then Some (RowTarget i)
      else match firstCellWithKey k (Dom.cells r) 0 with
           | Some j => Some (CellTarget i j)
           | None => firstWithKey k rest (S i)
           end
  end.

Definition withMouse (x y : option Q) (d : Dom.Display) : Dom.Display :=
  Dom.mkDisplay (Dom.rowElements d) (Dom.renderCount d) (Dom.hotRowKey d)
    (Dom.selectedRowKey d) x y.

Definition withHot (k : option string) (d : Dom.Display) : Dom.Display :=
  Dom.mkDisplay (Dom.rowElements d) (Dom.renderCount d) k
    (Dom.selectedRowKey d) (Dom.mouseX d) (Dom.mouseY d).

Definition withSelected (k : option string) (d : Dom.Display) : Dom.Display :=
  Dom.mkDisplay (Dom.rowElements d) (Dom.renderCount d) (Dom.hotRowKey d)
    k (Dom.mouseX d) (Dom.mouseY d).

Definition withRowElements (rows : list Dom.RowElement) (d : Dom.Display) :
    Dom.Display :=
  Dom.mkDisplay rows (Dom.renderCount d) (Dom.hotRowKey d)
    (Dom.selectedRowKey d) (Dom.mouseX d) (Dom.mouseY d).

Section Interaction.

Variable NumberToString : Number -> string.
Variable rowKey : Accessor.

(** [settings.onRowClick]: the hook sees the row and answers whether it
    called [preventDefault]. *)
Variable onRowClick : option (Row -> bool).

(** [document.elementsFromPoint(x, y)], topmost element first. *)
Variable elementsFromPoint : Q -> Q -> list HitElement.

(** [grid.getBoundingClientRect().right] *)
Variable gridRight : Q.

(** The host's answer to [rowContainer.querySelector] for the selector the
    grid builds from a key, [data-key] in brackets with the key between
    double quotes: an element, or none, or, when the host cannot read the
    selector, an exception ([None]). *)
Variable querySelector : string -> list Dom.RowElement -> option (option Target).

(** [getRowElementAtMouse]: the key it returns, and the display, whose
    pointer it may have forgotten.  The element it returns with the key is
    not used by any caller. *)
Definition getRowElementAtMouse (d : Dom.Display) : option string * Dom.Display :=
  let d :=
    match Dom.mouseX d with
    | Some x =>
        if (truthyNumber (Some x) && Qgtb x (gridRight - 17))%bool
        then withMouse None None d else d
    | None => d
    end in
  match Dom.mouseX d, Dom.mouseY d with
  | Some x, Some y =>
      if (negb (truthyNumber (Some x)) || negb (truthyNumber (Some y)))%bool
      then (None, d)
      else
        match List.filter
                (fun el => existsb (String.eqb "ts-data-grid-row") (hitClasses el))
                (elementsFromPoint x y) with
        | [] => (None, d)
        | element :: _ =>
            if negb (hitIsHTMLElement element) then (None, d)
            else if truthyString (hitKey element) then (hitKey element, d)
            else (None, d)
        end
  | _, _ => (None, d)
  end.

(** [findRowElement(key)] *)
Definition findRowElement (key : string) (d : Dom.Display) : option (option Target) :=
  if String.eqb key "" then Some None
  else querySelector key (Dom.rowElements d).

(** [if (k) { const element = findRowElement(k); if (element) { change the
    class list } }], and then [next]. *)
Definition mark (f : list string -> list string) (k : option string)
    (d : Dom.Display) (next : Dom.Display -> Completion) : Completion :=
  match k with
  | Some key =>
      if truthyString (Some key) then
        match findRowElement key d with
        | None => Abrupt d
        | Some None => next d
        | Some (Some t) => next (withRowElements (onClasses f t (Dom.rowElements d)) d)
        end
      else next d
  | None => next d
  end.

Definition updateHotRow (d : Dom.Display) : Completion :=
  let (key, d) := getRowElementAtMouse d in
  mark (removeClass "ts-data-grid-hot") (Dom.hotRowKey d) d (fun d =>
  let d := withHot key d in
  mark (addClass "ts-data-grid-hot") (Dom.hotRowKey d) d Normal).

Definition handleMouseMove (e : PointerEvent) (d : Dom.Display) : Completion :=
  updateHotRow (withMouse (Some (clientX e)) (Some (clientY e)) d).

Definition handleMouseLeave (d : Dom.Display) : Completion :=
  updateHotRow (withMouse None None d).

(** [key !== selectedRowKey] *)
Definition sameKey (a b : option string) : bool :=
  match a, b with
  | Some x, Some y => String.eqb x y
  | None, None => true
  | _, _ => false
  end.

(** [rows.find((x) => getRowKey(x) === key)] *)
Definition findRow (rows : list Row) (key : option string) : option Row :=
  match key with
  | Some k => List.find (fun x => String.eqb (getRowKey NumberToString rowKey x) k) rows
  | None => None
  end.

Definition onClick (e : PointerEvent) (d : Dom.Display) : M Completion :=
  let d := withMouse (Some (clientX e)) (Some (clientY e)) d in
  let (key, d) := getRowElementAtMouse d in
  if sameKey key (Dom.selectedRowKey d) then mret (Normal d)
  else
    g ← getGrid;
    rows ← load lookupRows (Grid.rows g);
    mret
      (mark (removeClass "ts-data-grid-selected") (Dom.selectedRowKey d) d (fun d =>
       let handled :=
         match onRowClick with
         | Some hook =>
             match findRow rows key with
             | Some row => hook row
             | None => false
             end
         | None => false
         end in
       if handled then Normal d
       else
         let d := withSelected key d in
         mark (addClass "ts-data-grid-selected") (Dom.selectedRowKey d) d Normal)).

End Interaction.

Section InteractionFacts.

Variable NumberToString : Number -> string.
Variable rowKey : Accessor.
Variable onRowClick : option (Row -> bool).
Variable elementsFromPoint : Q -> Q -> list HitElement.
Variable gridRight : Q.
Variable querySelector : string -> list Dom.RowElement -> option (option Target).

Lemma truthyNumber_zero x : (x == 0)%Q -> truthyNumber (Some x) = false.
Proof. intros H. unfold truthyNumber. apply Qeq_bool_iff in H. by rewrite H. Qed.

Lemma Qgtb_lt a b : (b < a)%Q -> Qgtb a b = true.
Proof.
  intros H. unfold Qgtb. apply Qgt_alt in H.
  change (Qcompare a b = Gt) in H. by rewrite H.
Qed.

(** X18: the pointer finds no row, whatever lies under it, when its x or
    its y is 0 (a coordinate of 0 counts as no coordinate) and when its x is
    within 17 pixels of the right edge of the grid or beyond; in that band
    the grid also forgets where the pointer is. *)
Theorem pointer_dead_zones (d : Dom.Display) (x y : Q) :
  Dom.mouseX d = Some x ->
  Dom.mouseY d = Some y ->
  ((x == 0)%Q \/ (y == 0)%Q \/ (gridRight - 17 < x)%Q ->
   fst (getRowElementAtMouse elementsFromPoint gridRight d) = None) /\
  (~ (x == 0)%Q -> (gridRight - 17 < x)%Q ->
   snd (getRowElementAtMouse elementsFromPoint gridRight d) = withMouse None None d).
Proof.
  intros Hx Hy. unfold getRowElementAtMouse. rewrite Hx. split.
  - intros Hdead.
    destruct (truthyNumber (Some x) && Qgtb x (gridRight - 17))%bool eqn:Hband;
      [done|].
    rewrite Hx, Hy.
    destruct Hdead as [H0|[H0|Hfar]].
    + by rewrite (truthyNumber_zero x H0).
    + rewrite (truthyNumber_zero y H0). by rewrite orb_true_r.
    + rewrite (Qgtb_lt _ _ Hfar), andb_true_r in Hband. by rewrite Hband.
  - intros Hnz Hfar.
    assert (truthyNumber (Some x) = true) as ->.
    { unfold truthyNumber. destruct (Qeq_bool x 0) eqn:E; [|done].
      by apply Qeq_bool_iff in E. }
    by rewrite (Qgtb_lt _ _ Hfar).
Qed.

Lemma mark_cases f k d next :
  mark querySelector f k d next = Abrupt d \/
  exists rows, mark querySelector f k d next = next (withRowElements rows d).
Proof.
  assert (d = withRowElements (Dom.rowElements d) d) as Hd by (by destruct d).
  unfold mark. destruct k as [key|]; [|right; exists (Dom.rowElements d); by rewrite <- Hd].
  destruct (truthyString (Some key));
    [|right; exists (Dom.rowElements d); by rewrite <- Hd].
  destruct (findRowElement querySelector key d) as [[t|]|].
  - right. by eexists.
  - right. exists (Dom.rowElements d). by rewrite <- Hd.
  - by left.
Qed.

(** Whether the [onRowClick] hook, shown the row with the key, prevents the
    default. *)
Definition rowClickPrevented (rows : list Row) (key : option string) : bool :=
  match onRowClick with
  | Some hook =>
      match findRow NumberToString rowKey rows key with
      | Some row => hook row
      | None => false
      end
  | None => false
  end.

(** X19: a click that runs to its end leaves the selection as follows: on
    the row that is selected already, or when the hook prevents the default,
    the selection stays; otherwise the row under the pointer becomes the
    selected one, and nothing is selected when no row is under the pointer.
    The rows and the sort order are not touched. *)
Theorem selection_after_click (e : PointerEvent) (d : Dom.Display) (w : World)
    (rs : list Row) :
  lookupRows (store w) (Grid.rows (grid w)) = Some rs ->
  let key :=
    fst (getRowElementAtMouse elementsFromPoint gridRight
           (withMouse (Some (clientX e)) (Some (clientY e)) d)) in
  exists c,
    onClick NumberToString rowKey onRowClick elementsFromPoint gridRight
      querySelector e d w = Return c w /\
    match c with
    | Normal d' =>
        Dom.selectedRowKey d' =
          if (sameKey key (Dom.selectedRowKey d) || rowClickPrevented rs key)%bool
          then Dom.selectedRowKey d else key
    | Abrupt _ => True
    end.
Proof.
  intros Hrows key. subst key. unfold onClick.
  destruct (getRowElementAtMouse elementsFromPoint gridRight
              (withMouse (Some (clientX e)) (Some (clientY e)) d)) as [key d1] eqn:Hat.
  assert (Dom.selectedRowKey d1 = Dom.selectedRowKey d) as Hsel.
  { pose proof (f_equal snd Hat) as H1. simpl in H1. subst d1.
    unfold getRowElementAtMouse. simpl.
    repeat match goal with
    | |- context [if ?b then _ else _] => destruct b
    | |- context [match ?x with _ => _ end] => destruct x
    end; reflexivity. }
  simpl. rewrite Hsel.
  destruct (sameKey key (Dom.selectedRowKey d)) eqn:Hsame.
  - exists (Normal d1). by split.
  - rewrite (bind_run _ _ w (grid w) w) by done.
    rewrite (bind_run _ _ _ _ _ (load_run _ _ _ _ Hrows)).
    eexists. split; [reflexivity|]. simpl.
    fold (rowClickPrevented rs key).
    match goal with
    | |- context [mark querySelector ?f ?k ?d0 ?next] =>
        destruct (mark_cases f k d0 next) as [->|[rows ->]]; [done|]
    end.
    destruct (rowClickPrevented rs key); simpl; [done|].
    match goal with
    | |- context [mark querySelector ?f ?k ?d0 ?next] =>
        destruct (mark_cases f k d0 next) as [->|[rows' ->]]; done
    end.
Qed.

Lemma removeClass_gone c classes : c ∉ removeClass c classes.
Proof.
  unfold removeClass. intros Hin.
  apply list_elem_of_In, List.filter_In in Hin as [_ Hc].
  by rewrite String.eqb_refl in Hc.
Qed.

Lemma getRowElementAtMouse_display d :
  let d' := snd (getRowElementAtMouse elementsFromPoint gridRight d) in
  Dom.rowElements d' = Dom.rowElements d /\
  Dom.selectedRowKey d' = Dom.selectedRowKey d /\
  Dom.hotRowKey d' = Dom.hotRowKey d /\
  Dom.renderCount d' = Dom.renderCount d.
Proof.
  unfold getRowElementAtMouse.
  repeat match goal with
  | |- context [if ?b then _ else _] => destruct b
  | |- context [match ?x with _ => _ end] => destruct x
  end; done.
Qed.

(** X20: when [onRowClick] prevents the default of a click on another row
    than the selected one, the selection stays, but the selected mark has
    been taken off the selected row already: the row is still selected and
    no longer looks it. *)
Theorem prevented_click_unmarks_selected_row (e : PointerEvent) (d : Dom.Display)
    (w : World) (rs : list Row) (k s : string) (hook : Row -> bool) (row : Row)
    (i : nat) :
  lookupRows (store w) (Grid.rows (grid w)) = Some rs ->
  fst (getRowElementAtMouse elementsFromPoint gridRight
         (withMouse (Some (clientX e)) (Some (clientY e)) d)) = Some k ->
  Dom.selectedRowKey d = Some s ->
  s <> k ->
  s <> "" ->
  onRowClick = Some hook ->
  findRow NumberToString rowKey rs (Some k) = Some row ->
  hook row = true ->
  querySelector s (Dom.rowElements d) = Some (Some (RowTarget i)) ->
  exists d',
    onClick NumberToString rowKey onRowClick elementsFromPoint gridRight
      querySelector e d w = Return (Normal d') w /\
    Dom.selectedRowKey d' = Some s /\
    Dom.rowElements d' =
      alter (onRowClasses (removeClass "ts-data-grid-selected")) i (Dom.rowElements d) /\
    forall r, Dom.rowElements d' !! i = Some r ->
      "ts-data-grid-selected" ∉ Dom.classes r.
Proof.
  intros Hrows Hat Hsel Hsk Hs Hhook Hrow Hprevent Hfound.
  unfold onClick.
  destruct (getRowElementAtMouse elementsFromPoint gridRight
              (withMouse (Some (clientX e)) (Some (clientY e)) d)) as [key d1] eqn:Hd1.
  simpl in Hat. subst key.
  destruct (getRowElementAtMouse_display
              (withMouse (Some (clientX e)) (Some (clientY e)) d))
    as (Hrows1 & Hsel1 & _). rewrite Hd1 in Hrows1, Hsel1. simpl in Hrows1, Hsel1.
  rewrite Hsel1, Hsel. simpl.
  assert (String.eqb k s = false) as -> by (apply String.eqb_neq; congruence).
  rewrite (bind_run _ _ w (grid w) w) by done.
  rewrite (bind_run _ _ _ _ _ (load_run _ _ _ _ Hrows)).
  assert (String.eqb s "" = false) as Hs' by (by apply String.eqb_neq).
  rewrite Hs'. simpl. unfold findRowElement at 1. rewrite Hs', Hrows1. simpl.
  rewrite Hfound. unfold findRow in Hrow. rewrite Hhook, Hrow, Hprevent.
  eexists. split; [reflexivity|]. simpl.
  split; [by rewrite Hsel1|]. split; [done|].
  intros r Hr. rewrite list_lookup_alter_eq in Hr.
  destruct (Dom.rowElements d !! i) as [r0|]; [|done].
  injection Hr as <-. apply removeClass_gone.
Qed.

(** X21: when the pointer leaves the grid, the grid forgets where it was,
    no row is hot any more, and the row the host finds for the row that was
    hot loses the hover mark. *)
Theorem pointer_leaves (d : Dom.Display) :
  let c := handleMouseLeave elementsFromPoint gridRight querySelector d in
  Dom.mouseX (displayOf c) = None /\
  Dom.mouseY (displayOf c) = None /\
  match c with
  | Normal d' =>
      Dom.hotRowKey d' = None /\
      forall hk i r,
        Dom.hotRowKey d = Some hk -> hk <> "" ->
        querySelector hk (Dom.rowElements d) = Some (Some (RowTarget i)) ->
        Dom.rowElements d' !! i = Some r ->
        "ts-data-grid-hot" ∉ Dom.classes r
  | Abrupt d' => Dom.hotRowKey d' = Dom.hotRowKey d
  end.
Proof.
  unfold handleMouseLeave, updateHotRow, getRowElementAtMouse. simpl.
  unfold mark at 1. simpl.
  destruct (Dom.hotRowKey d) as [hk|] eqn:Hhot; simpl; [|by repeat split].
  destruct (negb (String.eqb hk "")) eqn:Hnonempty; simpl.
  - unfold findRowElement.
    apply negb_true_iff in Hnonempty. rewrite Hnonempty.
    change (Dom.rowElements (withMouse None None d)) with (Dom.rowElements d).
    destruct (querySelector hk (Dom.rowElements d)) as [[t|]|] eqn:Hq; simpl.
    + repeat split; try done.
      intros hk' i r Hhk _ Hq' Hr. injection Hhk as <-.
      rewrite Hq in Hq'. injection Hq' as ->. simpl in Hr.
      rewrite list_lookup_alter_eq in Hr.
      destruct (Dom.rowElements d !! i) as [r0|]; [|done].
      injection Hr as <-. apply removeClass_gone.
    + repeat split; try done. intros hk' i r Hhk _ Hq'. injection Hhk as <-.
      by rewrite Hq in Hq'.
    + by repeat split.
  - repeat split; try done.
    intros hk' i r Hhk Hne. injection Hhk as <-.
    by apply negb_false_iff, String.eqb_eq in Hnonempty.
Qed.

End InteractionFacts.

(** ** Row keys and column keys *)

Section KeyClash.

Variable NumberToString : Number -> string.
Variable rowKey : Accessor.
Variable settings : Settings.
Variable querySelector : string -> list Dom.RowElement -> option (option Target).

Lemma renderFrom_cells selected v rows i n :
  Forall (fun r => map Dom.cellKey (Dom.cells r) =
                   map GridColumn.key (Settings.columns settings))
    (renderFrom NumberToString rowKey settings selected v rows i n).
Proof.
  revert i. induction n as [|n IH]; intros i; simpl; [constructor|].
  apply Forall_app. split; [|apply IH].
  destruct (rowAt rows _); constructor; [|constructor].
  simpl. by rewrite <- list_fmap_compose.
Qed.

Lemma createRows_inv d0 w d w' :
  createRows NumberToString rowKey settings d0 w = Return d w' ->
  exists rs,
    lookupRows (store w) (Grid.rows (grid w)) = Some rs /\
    Dom.rowElements d =
      renderFrom NumberToString rowKey settings (Dom.selectedRowKey d0)
        (Grid.view (grid w)) rs 0
        (Z.to_nat (Viewport.visibleRowCount (Grid.view (grid w)))).
Proof.
  unfold createRows, mbind, M_bind, getGrid, load. simpl.
  destruct (lookupRows (store w) (Grid.rows (grid w))) as [rs|]; [|done].
  intros [= <- _]. by exists rs.
Qed.

Lemma firstCellWithKey_found k cells n :
  k ∈ map Dom.cellKey cells -> is_Some (firstCellWithKey k cells n).
Proof.
  revert n. induction cells as [|c cells IH]; intros n Hin; simpl in *.
  - by apply elem_of_nil in Hin.
  - destruct (String.eqb (Dom.cellKey c) k) eqn:E; [by eexists|].
    apply IH. apply elem_of_cons in Hin as [->|Hin]; [|done].
    by rewrite String.eqb_refl in E.
Qed.

Lemma firstCellWithKey_missing k cells n :
  k ∉ map Dom.cellKey cells -> firstCellWithKey k cells n = None.
Proof.
  revert n. induction cells as [|c cells IH]; intros n Hin; simpl in *; [done|].
  destruct (String.eqb (Dom.cellKey c) k) eqn:E.
  - apply String.eqb_eq in E. exfalso. apply Hin. rewrite E. apply list_elem_of_here.
  - apply IH. intros H. apply Hin. by apply list_elem_of_further.
Qed.

Lemma firstWithKey_rows k rows n :
  Forall (fun r => firstCellWithKey k (Dom.cells r) 0 = None) rows ->
  match firstWithKey k rows n with
  | Some (RowTarget i) =>
      exists r, (n <= i)%nat /\ rows !! (i - n)%nat = Some r /\ Dom.key r = k /\
                Forall (fun r' => Dom.key r' <> k) (take (i - n) rows)
  | Some (CellTarget _ _) => False
  | None => Forall (fun r' => Dom.key r' <> k) rows
  end.
Proof.
  intros Hcells. revert n. induction Hcells as [|r rows Hr _ IH]; intros n; simpl.
  - constructor.
  - destruct (String.eqb (Dom.key r) k) eqn:E.
    + apply String.eqb_eq in E. exists r. rewrite Nat.sub_diag. simpl.
      repeat split; done.
    + apply String.eqb_neq in E. rewrite Hr. specialize (IH (S n)).
      destruct (firstWithKey k rows (S n)) as [[i|i j]|]; [|done|by constructor].
      destruct IH as (r' & Hn & Hlook & Hkey & Hbefore).
      exists r'. replace (i - n)%nat with (S (i - S n)) by lia. simpl.
      repeat split; try done; [lia|]. by constructor.
Qed.

(** X22: [findRowElement] looks for the key among the rows and their cells,
    and a cell carries the key of its column.  With a key that no column
    has, it finds the first row on the screen with that key, or nothing when
    there is none.  With a key that a column has too, it finds a cell of the
    first row on the screen instead, unless that first row is the row looked
    for: the hover and selected marks then go to that cell. *)
Theorem findRowElement_and_column_keys (d0 d : Dom.Display) (w : World) (k : string) :
  createRows NumberToString rowKey settings d0 w = Return d w ->
  k <> "" ->
  querySelector k (Dom.rowElements d) = Some (firstWithKey k (Dom.rowElements d) 0) ->
  (k ∈ map GridColumn.key (Settings.columns settings) ->
   forall r0 rest,
     Dom.rowElements d = r0 :: rest -> Dom.key r0 <> k ->
     exists j, findRowElement querySelector k d = Some (Some (CellTarget 0 j))) /\
  (k ∉ map GridColumn.key (Settings.columns settings) ->
   match findRowElement querySelector k d with
   | Some (Some (RowTarget i)) =>
       exists r, Dom.rowElements d !! i = Some r /\ Dom.key r = k /\
                 Forall (fun r' => Dom.key r' <> k) (take i (Dom.rowElements d))
   | Some (Some (CellTarget _ _)) => False
   | Some None => Forall (fun r' => Dom.key r' <> k) (Dom.rowElements d)
   | None => False
   end).
Proof.
  intros Hcreate Hk Hhost.
  destruct (createRows_inv _ _ _ _ Hcreate) as (rs & _ & Hrows).
  pose proof (renderFrom_cells (Dom.selectedRowKey d0) (Grid.view (grid w)) rs 0
    (Z.to_nat (Viewport.visibleRowCount (Grid.view (grid w))))) as Hcells.
  rewrite <- Hrows in Hcells.
  assert (findRowElement querySelector k d = Some (firstWithKey k (Dom.rowElements d) 0))
    as ->.
  { unfold findRowElement. apply String.eqb_neq in Hk. by rewrite Hk. }
  split.
  - intros Hin r0 rest Hd Hr0. rewrite Hd in Hcells |- *.
    apply Forall_cons in Hcells as [Hc0 _]. simpl.
    apply String.eqb_neq in Hr0. rewrite Hr0.
    destruct (firstCellWithKey_found k (Dom.cells r0) 0) as [j ->].
    { by rewrite Hc0. }
    by exists j.
  - intros Hout.
    pose proof (firstWithKey_rows k (Dom.rowElements d) 0) as Hfirst.
    destruct (firstWithKey k (Dom.rowElements d) 0) as [[i|i j]|].
    + destruct Hfirst as (r & _ & Hlook & Hkey & Hbefore).
      { eapply Forall_impl; [exact Hcells|]. intros r Hr. simpl in Hr.
        apply firstCellWithKey_missing. by rewrite Hr. }
      rewrite Nat.sub_0_r in Hlook, Hbefore. by exists r.
    + apply Hfirst. eapply Forall_impl; [exact Hcells|]. intros r Hr. simpl in Hr.
      apply firstCellWithKey_missing. by rewrite Hr.
    + apply Hfirst. eapply Forall_impl; [exact Hcells|]. intros r Hr. simpl in Hr.
      apply firstCellWithKey_missing. by rewrite Hr.
Qed.

End KeyClash.

(** ** The construction of a grid *)

Definition emptyDisplay : Dom.Display := Dom.mkDisplay [] 0 None None None None.

Section Construction.

Variable StringToNumber : string -> Number.
Variable NumberToString : Number -> string.
Variable rowKey : Accessor.
Variable settings : Settings.

(** [createGrid], from the closure's variables to the first refresh.
    [rows] is [settings.rows], [sortOrder] is [settings.sortOrder]; the
    variables start as the source initialises them.  Building the
    containers, measuring the row height, adding the listeners and restoring
    the scroll position touch the document only. *)
Definition createGrid (rows : loc) (sortOrder : option loc) (layout : Layout)
    (h : heap) : outcome (list Dom.HeaderElement * Dom.Display) :=
  let start :=
    match sortOrder with
    | Some l => mkWorld (Grid.mk rows l emptyView [] atRest) h
    | None =>
        mkWorld (Grid.mk rows (fresh (dom h)) emptyView [] atRest)
          (<[fresh (dom h) := OrderArray []]> h)
    end in
  (headers ← updateColumnHeaders settings;
   _ ← recomputeVisibleArea settings layout;
   _ ← match Settings.onSort settings with
       | None => sortRows StringToNumber settings
       | Some _ => mret tt
       end;
   d ← refreshRows NumberToString rowKey settings layout true emptyDisplay;
   mret (headers, d)) start.

Lemma refreshRows_forced layout d w rs :
  (0 < Settings.rowHeight settings)%Q ->
  (0 <= Layout.scrollTop layout)%Q ->
  lookupRows (store w) (Grid.rows (grid w)) = Some rs ->
  exists d' w',
    refreshRows NumberToString rowKey settings layout true d w = Return d' w' /\
    store w' = store w /\
    Grid.rows (grid w') = Grid.rows (grid w) /\
    Grid.sortOrder (grid w') = Grid.sortOrder (grid w) /\
    Viewport.firstVisibleRowIndex (Grid.view (grid w')) =
      Qceiling (Host.divide (Layout.scrollTop layout) (Settings.rowHeight settings)) /\
    Viewport.visibleRowCount (Grid.view (grid w')) =
      Qceiling (Host.divide (Layout.clientHeight layout) (Settings.rowHeight settings)) /\
    map Dom.key (Dom.rowElements d') =
      map (getRowKey NumberToString rowKey)
        (take (Z.to_nat (Viewport.visibleRowCount (Grid.view (grid w'))))
           (drop (Z.to_nat (Viewport.firstVisibleRowIndex (Grid.view (grid w')))) rs)).
Proof.
  intros Hh Hs Hrows.
  destruct (recompute_view settings layout w rs Hrows)
    as (changed & w' & Hrun & Hstore & Hr & Hso & Hcount & Hfirst & _).
  assert (lookupRows (store w') (Grid.rows (grid w')) = Some rs) as Hrows'
    by (by rewrite Hstore, Hr).
  destruct (createRows_keys NumberToString rowKey settings d w' rs Hrows')
    as (d' & Hcreate & Hkeys & _).
  { rewrite Hfirst. by apply ceiling_nonnegative. }
  exists d', w'. unfold refreshRows. rewrite (bind_run _ _ _ _ _ Hrun).
  rewrite orb_true_r. by repeat split.
Qed.

(** X23: a new grid shows the rows sorted by the initial order (by the
    default order when there is none), unless an [onSort] hook is installed:
    then it shows them in the sequence they were given, in the caller's own
    array.  Neither way is an array or object of the caller written.  The
    first screen is the window the host computes: the rows from the first
    visible index on, at most the visible row count of them. *)
Theorem construction_sorts_unless_hooked (rows : loc) (sortOrder : option loc)
    (layout : Layout) (h : heap) (rs : list Row) (so : TableSortOrder)
    (dso : option TableSortOrder) :
  (0 < Settings.rowHeight settings)%Q ->
  (0 <= Layout.scrollTop layout)%Q ->
  lookupRows h rows = Some rs ->
  match sortOrder with
  | Some l => lookupOrder h l = Some so
  | None => so = []
  end ->
  lookupDefault h (Settings.defaultSortOrder settings) = Some dso ->
  let shown :=
    match Settings.onSort settings with
    | Some _ => rs
    | None => sorted StringToNumber (Settings.columns settings) so dso rs
    end in
  exists headers d w',
    createGrid rows sortOrder layout h = Return (headers, d) w' /\
    (forall l c, h !! l = Some c -> store w' !! l = Some c) /\
    lookupRows (store w') (Grid.rows (grid w')) = Some shown /\
    currentOrder w' = Some so /\
    match Settings.onSort settings with
    | Some _ => Grid.rows (grid w') = rows
    | None => h !! Grid.rows (grid w') = None
    end /\
    let v := Grid.view (grid w') in
    Viewport.firstVisibleRowIndex v =
      Qceiling (Host.divide (Layout.scrollTop layout) (Settings.rowHeight settings)) /\
    Viewport.visibleRowCount v =
      Qceiling (Host.divide (Layout.clientHeight layout) (Settings.rowHeight settings)) /\
    map Dom.key (Dom.rowElements d) =
      map (getRowKey NumberToString rowKey)
        (take (Z.to_nat (Viewport.visibleRowCount v))
           (drop (Z.to_nat (Viewport.firstVisibleRowIndex v)) shown)).
Proof.
  intros Hh Hs Hrows Hso Hdefault shown.
  unfold createGrid.
  set (start := match sortOrder with
                | Some l => mkWorld (Grid.mk rows l emptyView [] atRest) h
                | None => mkWorld (Grid.mk rows (fresh (dom h)) emptyView [] atRest)
                            (<[fresh (dom h) := OrderArray []]> h)
                end).
  assert (h ⊆ store start /\ Grid.rows (grid start) = rows /\
          lookupOrder (store start) (Grid.sortOrder (grid start)) = Some so)
    as (Hsub0 & Hrows0 & Horder0).
  { subst start. destruct sortOrder as [l|]; simpl.
    - by repeat split.
    - subst so. split; [apply alloc_extends|]. split; [done|].
      unfold lookupOrder, lookupEntries. by rewrite lookup_insert_eq. }
  assert (lookupRows (store start) (Grid.rows (grid start)) = Some rs) as Hrs0
    by (rewrite Hrows0; by apply (lookupRows_weaken h)).
  pose proof (lookupDefault_weaken _ _ _ _ Hsub0 Hdefault) as Hdefault0.
  (* the headers *)
  rewrite (bind_run _ _ start
             (map (renderColumnHeader so) (Settings.columns settings)) start).
  2:{ unfold updateColumnHeaders. rewrite (bind_run _ _ start (grid start) start) by done.
      by rewrite (bind_run _ _ _ _ _ (load_run _ _ _ _ Horder0)). }
  (* the first window *)
  destruct (recompute_view settings layout start rs Hrs0)
    as (changed & w1 & Hrun1 & Hstore1 & Hr1 & Hso1 & _).
  rewrite (bind_run _ _ _ _ _ Hrun1).
  assert (lookupRows (store w1) (Grid.rows (grid w1)) = Some rs) as Hrs1
    by (by rewrite Hstore1, Hr1).
  assert (lookupOrder (store w1) (Grid.sortOrder (grid w1)) = Some so) as Horder1
    by (by rewrite Hstore1, Hso1).
  assert (lookupDefault (store w1) (Settings.defaultSortOrder settings) = Some dso)
    as Hdefault1 by (by rewrite Hstore1).
  (* the sort, unless the hook is there *)
  assert (exists w2,
    match Settings.onSort settings with
    | None => sortRows StringToNumber settings
    | Some _ => mret tt
    end w1 = Return tt w2 /\
    h ⊆ store w2 /\
    lookupRows (store w2) (Grid.rows (grid w2)) = Some shown /\
    lookupOrder (store w2) (Grid.sortOrder (grid w2)) = Some so /\
    match Settings.onSort settings with
    | Some _ => Grid.rows (grid w2) = rows
    | None => h !! Grid.rows (grid w2) = None
    end)
    as (w2 & Hrun2 & Hsub2 & Hrs2 & Horder2 & Hwhere).
  { subst shown. destruct (Settings.onSort settings).
    - exists w1. split; [done|]. rewrite Hstore1. repeat split; try done.
      + by rewrite <- Hstore1.
      + by rewrite <- Hstore1.
      + by rewrite Hr1.
    - eexists. split; [by apply (sortRows_run _ _ _ rs so dso)|]. simpl.
      rewrite Hstore1.
      assert (store start ⊆ <[fresh (dom (store start)) :=
        RowArray (sorted StringToNumber (Settings.columns settings) so dso rs)]>
        (store start)) as Hsub by apply alloc_extends.
      split; [by etrans|].
      split; [unfold lookupRows; by rewrite lookup_insert_eq|].
      split; [rewrite Hso1; by apply (lookupOrder_weaken (store start))|].
      apply (unused_weaken _ (store start)); [done|apply fresh_unused]. }
  rewrite (bind_run _ _ _ _ _ Hrun2).
  (* the first refresh *)
  destruct (refreshRows_forced layout emptyDisplay w2 shown Hh Hs Hrs2)
    as (d & w3 & Hrun3 & Hstore3 & Hr3 & Hso3 & Hfirst3 & Hcount3 & Hkeys).
  rewrite (bind_run _ _ _ _ _ Hrun3).
  exists (map (renderColumnHeader so) (Settings.columns settings)), d, w3.
  split; [done|]. rewrite Hstore3.
  split; [intros l c Hl; by apply (lookup_weaken _ _ _ _ Hl)|].
  split; [by rewrite Hr3|].
  split; [unfold currentOrder; by rewrite Hstore3, Hso3|].
  split; [rewrite Hr3; exact Hwhere|]. by cbv zeta.
Qed.

End Construction.

(** ** The further properties on sample grids *)

Definition notifyingSettings : Settings :=
  Settings.mk [columnV] None None true 20.

Definition hookedSettings : Settings :=
  Settings.mk [columnNamed "colA"; columnNamed "colB"] None (Some (fun _ => true))
    false 20.

(** A host that prints no number, and the rows' [k] as their key. *)
Definition noText : Number -> string := fun _ => "".

Definition keyByK : Accessor := ByName "k".

(** The sample world scrolled by one row, with room for one row. *)
Definition windowWorld : World :=
  mkWorld (Grid.mk 1 2 (Viewport.mk 20 1 1 1 80 40) [] atRest) sampleStore.

Lemma recompute_idempotent_witness :
  exists changed w',
    recomputeVisibleArea notifyingSettings scrolledLayout sampleWorld =
      Return changed w' /\
    recomputeVisibleArea notifyingSettings scrolledLayout w' = Return false w'.
Proof.
  apply (recompute_idempotent notifyingSettings scrolledLayout sampleWorld
           [sampleRow "b" 2; sampleRow "a" 1]); reflexivity.
Defined.

Lemma scroll_notified_on_first_row_change_witness :
  exists changed w',
    recomputeVisibleArea notifyingSettings scrolledLayout sampleWorld =
      Return changed w' /\
    Grid.scrolled (grid w') = [1%Q].
Proof.
  destruct (scroll_notified_on_first_row_change notifyingSettings scrolledLayout
              sampleWorld [sampleRow "b" 2; sampleRow "a" 1])
    as (changed & w' & Hrun & Hfirst & Hscrolled); [reflexivity..|].
  exists changed, w'. split; [exact Hrun|].
  rewrite Hscrolled, Hfirst. reflexivity.
Defined.

(** Rows of 18.4 pixels, scrolled by 92 pixels under a height of 184: row 14
    ends a little above the bottom edge and is the last of the window, whose
    quotients both round down. *)
Lemma window_covers_visible_rows_witness :
  exists changed w',
    recomputeVisibleArea fractionalSettings (Layout.mk 0 92 184) sampleWorld =
      Return changed w' /\
    Viewport.firstVisibleRowIndex (Grid.view (grid w')) <= 14 /\
    14 <= Viewport.lastVisibleRowIndex (Grid.view (grid w')).
Proof.
  apply (window_covers_visible_rows fractionalSettings (Layout.mk 0 92 184)
           sampleWorld [sampleRow "b" 2; sampleRow "a" 1] 14);
    first [reflexivity | discriminate].
Defined.

Lemma compare_mixed_values_do_not_chain_witness :
  compare noNumber (VNum (Finite 1)) (VStr "x") = 0 /\
  compare noNumber (VStr "x") (VNum (Finite 2)) = 0 /\
  compare noNumber (VNum (Finite 1)) (VNum (Finite 2)) = -1.
Proof.
  apply (compare_mixed_values_do_not_chain noNumber 1 2 "x"); reflexivity.
Defined.

Lemma sorted_rows_in_order_witness :
  comparator noNumber [columnV] ascendingV None (sampleRow "a" 1) (sampleRow "c" 2) <= 0.
Proof.
  apply (sorted_rows_in_order noNumber [columnV] ascendingV None threeRows
           threeRows_consistent).
  change (sorted noNumber [columnV] ascendingV None threeRows)
    with [sampleRow "a" 1; sampleRow "b" 1; sampleRow "c" 2].
  apply sublist_skip, sublist_cons, sublist_skip, sublist_nil.
Defined.

Lemma sorting_twice_witness :
  sorted noNumber [columnV] ascendingV None
    (sorted noNumber [columnV] ascendingV None threeRows) =
  sorted noNumber [columnV] ascendingV None threeRows.
Proof.
  apply (sorting_twice noNumber [columnV] ascendingV None threeRows
           threeRows_consistent).
Defined.

Lemma click_throws_exactly_without_key_witness :
  exists w',
    onColumnHeaderClick noNumber (abSettings None) restLayout shiftClickB abWorld =
      Return tt w'.
Proof.
  apply (click_throws_exactly_without_key noNumber (abSettings None) restLayout
           abWorld shiftClickB [abRow 2 1; abRow 1 2; abRow 1 1]
           [entryOf "colA" ascending] None); reflexivity.
Defined.

Lemma click_with_default_prevented_witness :
  exists w',
    onColumnHeaderClick noNumber hookedSettings restLayout shiftClickB abWorld =
      Return tt w' /\
    currentOrder w' = Some [entryOf "colA" ascending; entryOf "colB" ascending] /\
    Grid.rows (grid w') = 1%positive /\
    lookupRows (store w') (Grid.rows (grid w')) =
      Some [abRow 2 1; abRow 1 2; abRow 1 1].
Proof.
  destruct (click_with_default_prevented noNumber hookedSettings restLayout abWorld
              shiftClickB "colB" [abRow 2 1; abRow 1 2; abRow 1 1]
              [entryOf "colA" ascending] None)
    as (w' & Hrun & Horder & Hrows & Hheld & _);
    try reflexivity; try discriminate.
  exists w'. split; [exact Hrun|]. split; [exact Horder|]. split; [exact Hrows|].
  exact Hheld.
Defined.

Lemma click_sorts_rows_by_new_order_witness :
  exists w' rs',
    onColumnHeaderClick noNumber (abSettings None) restLayout shiftClickB abWorld =
      Return tt w' /\
    lookupRows (store w') (Grid.rows (grid w')) = Some rs' /\
    rs' = [abRow 1 1; abRow 1 2; abRow 2 1].
Proof.
  destruct (click_sorts_rows_by_new_order noNumber (abSettings None) restLayout abWorld
              shiftClickB "colB" [abRow 2 1; abRow 1 2; abRow 1 1]
              [entryOf "colA" ascending] None)
    as (w' & rs' & Hrun & Hrows & Hsorted & _);
    try reflexivity; try discriminate.
  exists w', rs'. split; [exact Hrun|]. split; [exact Hrows|].
  rewrite Hsorted. reflexivity.
Defined.

Lemma abWorld_ready : Ready (abSettings None) abWorld.
Proof.
  exists [abRow 2 1; abRow 1 2; abRow 1 1], [entryOf "colA" ascending], None.
  split; [reflexivity|]. split; [reflexivity|]. split; [reflexivity|].
  split.
  - apply NoDup_singleton.
  - repeat constructor. discriminate.
Defined.

Lemma click_keeps_grid_ready_witness :
  exists w',
    onColumnHeaderClick noNumber (abSettings None) restLayout shiftClickB abWorld =
      Return tt w' /\
    Ready (abSettings None) w'.
Proof.
  apply (click_keeps_grid_ready noNumber (abSettings None) restLayout abWorld
           shiftClickB).
  - exists "colB". split; [reflexivity|discriminate].
  - exact abWorld_ready.
Defined.

Lemma rendered_rows_are_the_window_witness :
  exists d',
    createRows noText keyByK sampleSettings emptyDisplay windowWorld =
      Return d' windowWorld /\
    map Dom.key (Dom.rowElements d') = ["a"].
Proof.
  destruct (rendered_rows_are_the_window noText keyByK sampleSettings emptyDisplay
              windowWorld [sampleRow "b" 2; sampleRow "a" 1])
    as (d' & Hrun & _ & Hkeys & _);
    try reflexivity; try discriminate.
  exists d'. split; [exact Hrun|]. rewrite Hkeys. reflexivity.
Defined.

Lemma rendered_rows_marks_witness :
  exists d',
    createRows noText keyByK sampleSettings emptyDisplay windowWorld =
      Return d' windowWorld /\
    forall el, el ∈ Dom.rowElements d' ->
      "ts-data-grid-row" ∈ Dom.classes el /\
      ("ts-data-grid-selected" ∈ Dom.classes el <->
         Dom.selectedRowKey emptyDisplay = Some (Dom.key el)) /\
      ("ts-data-grid-alt" ∈ Dom.classes el <-> Nat.odd (Dom.index el) = true) /\
      "ts-data-grid-hot" ∉ Dom.classes el.
Proof.
  apply (rendered_rows_marks noText keyByK sampleSettings emptyDisplay windowWorld
           [sampleRow "b" 2; sampleRow "a" 1]).
  reflexivity.
Defined.

Lemma refresh_shows_the_window_witness :
  exists changed d' w',
    recomputeVisibleArea sampleSettings scrolledLayout sampleWorld =
      Return changed w' /\
    refreshRows noText keyByK sampleSettings scrolledLayout true emptyDisplay
      sampleWorld = Return d' w' /\
    map Dom.key (Dom.rowElements d') = ["a"].
Proof.
  destruct (refresh_shows_the_window noText keyByK sampleSettings scrolledLayout true
              emptyDisplay sampleWorld [sampleRow "b" 2; sampleRow "a" 1])
    as (changed & d' & w' & Hrun & Hrefresh & _ & _ & Hwindow);
    try reflexivity; try discriminate.
  cbv zeta in Hwindow. destruct Hwindow as (Hfirst & Hcount & Hshown).
  exists changed, d', w'. split; [exact Hrun|]. split; [exact Hrefresh|].
  rewrite orb_true_r in Hshown. destruct Hshown as [Hkeys _].
  rewrite Hkeys, Hcount, Hfirst. reflexivity.
Defined.

(** Four pixels further down and thirty to the right. *)
Definition nudgedLayout : Layout := Layout.mk 30 5 100.

Lemma scroll_within_a_row_renders_nothing_witness :
  exists d1 w1 w2,
    refreshRows noText keyByK sampleSettings scrolledLayout true emptyDisplay
      sampleWorld = Return d1 w1 /\
    refreshRows noText keyByK sampleSettings nudgedLayout false d1 w1 = Return d1 w2 /\
    Grid.view (grid w2) = Grid.view (grid w1) /\
    Containers.rowContainerScrollLeft (Grid.containers (grid w2)) = 30%Q.
Proof.
  destruct (scroll_within_a_row_renders_nothing noText keyByK sampleSettings
              scrolledLayout nudgedLayout true emptyDisplay sampleWorld
              [sampleRow "b" 2; sampleRow "a" 1])
    as (d1 & w1 & w2 & Hrun1 & Hrun2 & Hw2); [reflexivity..|].
  exists d1, w1, w2. split; [exact Hrun1|]. split; [exact Hrun2|].
  rewrite Hw2. by split.
Defined.

Lemma headers_after_click_witness :
  exists w' after,
    onColumnHeaderClick noNumber (abSettings None) restLayout shiftClickB abWorld =
      Return tt w' /\
    updateColumnHeaders (abSettings None) w' = Return after w' /\
    map Dom.headerKey after = ["colA"; "colB"].
Proof.
  destruct (headers_after_click noNumber (abSettings None) restLayout abWorld
              shiftClickB "colB" [abRow 2 1; abRow 1 2; abRow 1 1]
              [entryOf "colA" ascending] None)
    as (before & w' & after & _ & Hrun & Hafter & Hkeys & _);
    try reflexivity; try discriminate.
  exists w', after. split; [exact Hrun|]. split; [exact Hafter|exact Hkeys].
Defined.

(** A document with one grid row, of key "a", under every point; a grid
    whose right edge is at 500; a host that reads every selector. *)
Definition rowUnderPointer : Q -> Q -> list HitElement :=
  fun _ _ => [mkHit ["ts-data-grid-row"] true (Some "a")].

Definition plainQuery : string -> list Dom.RowElement -> option (option Target) :=
  fun k rows => Some (firstWithKey k rows 0).

Definition pointerAtLeftEdge : Dom.Display :=
  Dom.mkDisplay [] 0 None None (Some 0%Q) (Some 5%Q).

Lemma pointer_dead_zones_witness :
  fst (getRowElementAtMouse rowUnderPointer 500 pointerAtLeftEdge) = None.
Proof.
  refine (proj1 (pointer_dead_zones rowUnderPointer 500 pointerAtLeftEdge 0 5
                   eq_refl eq_refl) (or_introl _)).
  apply Qeq_refl.
Defined.

(** The row "b" is on the screen and selected; the pointer comes down on
    the row "a"; the hook prevents every default. *)
Definition selectedB : Dom.Display :=
  Dom.mkDisplay
    [Dom.mkRow ["ts-data-grid-row"; "ts-data-grid-selected"] "b" 0 80 []]
    1 None (Some "b") None None.

Definition pressAt : PointerEvent := mkPointer 10 10.

Definition refuseAll : option (Row -> bool) := Some (fun _ => true).

Lemma selection_after_click_witness :
  exists c,
    onClick noText keyByK None rowUnderPointer 500 plainQuery pressAt selectedB
      sampleWorld = Return c sampleWorld /\
    match c with
    | Normal d' => Dom.selectedRowKey d' = Some "a"
    | Abrupt _ => True
    end.
Proof.
  apply (selection_after_click noText keyByK None rowUnderPointer 500 plainQuery
           pressAt selectedB sampleWorld [sampleRow "b" 2; sampleRow "a" 1]).
  reflexivity.
Defined.

Lemma prevented_click_unmarks_selected_row_witness :
  exists d',
    onClick noText keyByK refuseAll rowUnderPointer 500 plainQuery pressAt selectedB
      sampleWorld = Return (Normal d') sampleWorld /\
    Dom.selectedRowKey d' = Some "b" /\
    Dom.rowElements d' = [Dom.mkRow ["ts-data-grid-row"] "b" 0 80 []].
Proof.
  destruct (prevented_click_unmarks_selected_row noText keyByK refuseAll
              rowUnderPointer 500 plainQuery pressAt selectedB sampleWorld
              [sampleRow "b" 2; sampleRow "a" 1] "a" "b" (fun _ => true)
              (sampleRow "a" 1) 0)
    as (d' & Hrun & Hsel & Hrows & _);
    try reflexivity; try discriminate.
  exists d'. split; [exact Hrun|]. split; [exact Hsel|]. rewrite Hrows. reflexivity.
Defined.

(** Two rows on the screen, of keys "a" and "v", in a grid whose only
    column has the key "v". *)
Definition clashStore : heap :=
  {[ 1%positive := RowArray [sampleRow "a" 1; sampleRow "v" 2];
     2%positive := OrderArray [] ]}.

Definition clashWorld : World :=
  mkWorld (Grid.mk 1 2 (Viewport.mk 40 2 0 1 80 40) [] atRest) clashStore.

Definition clashDisplay : Dom.Display :=
  Dom.mkDisplay
    [Dom.mkRow ["ts-data-grid-row"] "a" 0 80 [Dom.mkCell ["ts-data-grid-cell"] 80 "v" ""];
     Dom.mkRow ["ts-data-grid-row"; "ts-data-grid-alt"] "v" 1 80
       [Dom.mkCell ["ts-data-grid-cell"] 80 "v" ""]]
    1 None None None None.

Lemma findRowElement_and_column_keys_witness :
  exists j, findRowElement plainQuery "v" clashDisplay = Some (Some (CellTarget 0 j)).
Proof.
  destruct (findRowElement_and_column_keys noText keyByK sampleSettings plainQuery
              emptyDisplay clashDisplay clashWorld "v") as [Hclash _];
    try reflexivity; try discriminate.
  eapply Hclash.
  - apply list_elem_of_here.
  - reflexivity.
  - discriminate.
Defined.

Lemma construction_sorts_unless_hooked_witness :
  exists headers d w',
    createGrid noNumber noText keyByK sampleSettings 1%positive (Some 2%positive)
      scrolledLayout sampleStore = Return (headers, d) w' /\
    lookupRows (store w') (Grid.rows (grid w')) =
      Some [sampleRow "a" 1; sampleRow "b" 2] /\
    lookupRows (store w') 1%positive = Some [sampleRow "b" 2; sampleRow "a" 1] /\
    map Dom.key (Dom.rowElements d) = ["b"].
Proof.
  destruct (construction_sorts_unless_hooked noNumber noText keyByK sampleSettings
              1%positive (Some 2%positive) scrolledLayout sampleStore
              [sampleRow "b" 2; sampleRow "a" 1] ascendingV None)
    as (headers & d & w' & Hrun & Hframe & Hrows & _ & _ & Hwindow);
    try reflexivity; try discriminate.
  cbv zeta in Hwindow. destruct Hwindow as (Hfirst & Hcount & Hkeys).
  exists headers, d, w'. split; [exact Hrun|]. split; [exact Hrows|].
  split.
  - unfold lookupRows. by rewrite (Hframe 1%positive _ eq_refl).
  - rewrite Hkeys, Hcount, Hfirst. reflexivity.
Defined.
